(** * Verification of the document-indexing pipeline of [local-indexing.py]

    A shallow embedding of the pipeline (text extraction dispatch, the
    token-window chunker, the identifier builder, the batched uploader and
    the orchestrating [main]) together with the properties stated about it. *)

From Stdlib Require Import ZArith NArith Lia Ascii DecimalNat.
From stdpp Require Import base option list gmap strings.

Local Open Scope Z_scope.

(** ** Python values *)

(** A Python [str] is a sequence of Unicode code points. *)
Abbreviation codepoint := N.
Abbreviation pystr := (list codepoint).

(** String literals of the source, written as Rocq strings (ASCII only). *)
Fixpoint py (s : string) : pystr :=
  match s with
  | EmptyString => []
  | String a r => Ascii.N_of_ascii a :: py r
  end.

(** [len(x)] as a Python integer. *)
Definition len {A} (l : list A) : Z := Z.of_nat (length l).

(** Index normalisation of a slice bound: negative bounds count from the
    end, and every bound is clamped to [0, len]. *)
Definition clamp_index (n i : Z) : Z :=
  if i <? 0 then Z.max (i + n) 0 else Z.min i n.

(** [l[i:j]] with Python's slice semantics. *)
Definition py_slice {A} (l : list A) (i j : Z) : list A :=
  let lo := clamp_index (len l) i in
  let hi := clamp_index (len l) j in
  take (Z.to_nat (hi - lo)) (drop (Z.to_nat lo) l).

(** Characters that [str.split()] without argument treats as separators. *)
Definition is_space (c : codepoint) : bool :=
  ((9 <=? c) && (c <=? 13) || (28 <=? c) && (c <=? 32)
   || (c =? 133) || (c =? 160) || (c =? 5760)
   || (8192 <=? c) && (c <=? 8202)
   || (c =? 8232) || (c =? 8233) || (c =? 8239) || (c =? 8287)
   || (c =? 12288))%N.

(** [text.split()]: the maximal runs of non-whitespace characters.  [cur]
    holds the current run, most recent character first. *)
Fixpoint split_go (cur : pystr) (s : pystr) : list pystr :=
  match s with
  | [] => match cur with [] => [] | _ => [rev cur] end
  | c :: r =>
      if is_space c then
        match cur with
        | [] => split_go [] r
        | _ => rev cur :: split_go [] r
        end
      else split_go (c :: cur) r
  end.

Definition split (s : pystr) : list pystr := split_go [] s.

(** [sep.join(l)]. *)
Fixpoint join (sep : pystr) (l : list pystr) : pystr :=
  match l with
  | [] => []
  | [x] => x
  | x :: r => x ++ sep ++ join sep r
  end.

(** [str(n)] for a non-negative integer. *)
Fixpoint digits_of_uint (u : Decimal.uint) : pystr :=
  match u with
  | Decimal.Nil => []
  | Decimal.D0 r => 48%N :: digits_of_uint r
  | Decimal.D1 r => 49%N :: digits_of_uint r
  | Decimal.D2 r => 50%N :: digits_of_uint r
  | Decimal.D3 r => 51%N :: digits_of_uint r
  | Decimal.D4 r => 52%N :: digits_of_uint r
  | Decimal.D5 r => 53%N :: digits_of_uint r
  | Decimal.D6 r => 54%N :: digits_of_uint r
  | Decimal.D7 r => 55%N :: digits_of_uint r
  | Decimal.D8 r => 56%N :: digits_of_uint r
  | Decimal.D9 r => 57%N :: digits_of_uint r
  end.

Definition str_of_nat (n : nat) : pystr := digits_of_uint (Nat.to_uint n).

(** [str(z)] for any integer. *)
Definition str_of_Z (z : Z) : pystr :=
  if z <? 0 then 45%N :: str_of_nat (Z.to_nat (- z)) else str_of_nat (Z.to_nat z).

(** ** Chunking *)

(** The [while] loop of [chunk_text].  The loop need not terminate, so it is
    run with a bound on the number of iterations; [None] means the loop is
    still running when the bound is reached. *)
Fixpoint chunk_loop (fuel : nat) (tokens : list pystr)
    (chunk_size overlap start : Z) (chunks : list pystr) : option (list pystr) :=
  match fuel with
  | O => None
  | S fuel' =>
      if start <? len tokens then
        let end_ := Z.min (start + chunk_size) (len tokens) in
        chunk_loop fuel' tokens chunk_size overlap
          (start + (chunk_size - overlap))
          (chunks ++ [join (py " ") (py_slice tokens start end_)])
      else Some chunks
  end.

Definition chunk_text_fuel (fuel : nat) (text : pystr) (chunk_size overlap : Z)
    : option (list pystr) :=
  chunk_loop fuel (split text) chunk_size overlap 0 [].

(** ** Identifier sanitisation *)

(** The character class [[A-Za-z0-9_\-=]] of the regular expression. *)
Definition id_char (c : codepoint) : bool :=
  ((65 <=? c) && (c <=? 90) || (97 <=? c) && (c <=? 122)
   || (48 <=? c) && (c <=? 57)
   || (c =? 95) || (c =? 45) || (c =? 61))%N.

(** [re.sub(r'[^A-Za-z0-9_\-=]', "_", s)]: every character outside the
    class is replaced, one for one, by an underscore. *)
Definition sanitize_id (s : pystr) : pystr :=
  map (fun c => if id_char c then c else 95%N) s.

(** [chr(10)], the newline of the source's string literals. *)
Definition nl : pystr := [10%N].

(** [s.strip()]: whitespace removed at both ends. *)
Fixpoint lstrip (s : pystr) : pystr :=
  match s with
  | [] => []
  | c :: r => if is_space c then lstrip r else s
  end.

Definition strip (s : pystr) : pystr := rev (lstrip (rev (lstrip s))).

(** [s.endswith(suffix)]. *)
Definition endswith (s suffix : pystr) : bool :=
  (length suffix <=? length s)%nat
  && bool_decide (drop (length s - length suffix) s = suffix).

(** [s.replace(old, new)] for one-character [old] and [new]. *)
Definition replace_char (old new : codepoint) (s : pystr) : pystr :=
  map (fun c => if (c =? old)%N then new else c) s.

(** [repr] of a list of names free of quotes and escapes. *)
Definition repr_names (l : list string) : pystr :=
  py "[" ++ join (py ", ") (map (fun v => py "'" ++ py v ++ py "'") l) ++ py "]".

(** ** Exceptions, outcomes and effects *)

(** The exception classes that matter to the handlers of the source; all of
    them derive from [Exception]. *)
Inductive exn_class := ImportError | TypeError | ValueError | OtherException.

(** An exception: its class and [str(e)]. *)
Record exn := Exn { exn_kind : exn_class; exn_str : pystr }.

(** How a call ends: it returns, raises, or does not end. *)
Inductive outcome (A : Type) :=
| Returns (a : A)
| Raises (e : exn)
| Diverges.
Arguments Returns {A} a.
Arguments Raises {A} e.
Arguments Diverges {A}.

(** The answer of a call into a library or service outside the source. *)
Inductive answer (A : Type) :=
| Answers (a : A)
| Fails (e : exn).
Arguments Answers {A} a.
Arguments Fails {A} e.

(** The unit persisted to the search index. *)
Record Document := { id : pystr; text : pystr }.

(** The observable effects of a run, in order. *)
Inductive event :=
| Print (line : pystr)
| LogWarning (msg : pystr)
| LogError (msg : pystr)
| MakeDirs (path : pystr)
| FetchBlob (name file_path : pystr)
| CreateIndex (name : pystr)
| Submit (batch : list Document).

(** Computations: the effects performed so far and the way the call ends. *)
Definition M (A : Type) : Type := (list event * outcome A)%type.

Definition ret {A} (a : A) : M A := ([], Returns a).

Definition bind {A B} (m : M A) (k : A -> M B) : M B :=
  match m with
  | (t, Returns a) => let '(t', r) := k a in (t ++ t', r)
  | (t, Raises e) => (t, Raises e)
  | (t, Diverges) => (t, Diverges)
  end.

Notation "'do' x <- m ; k" := (bind m (fun x => k))
  (at level 10, x name, m at level 100, k at level 200).
Notation "'run' m ; k" := (bind m (fun _ => k))
  (at level 10, m at level 100, k at level 200).

Definition emit (ev : event) : M unit := ([ev], Returns tt).
Definition raise {A} (e : exn) : M A := ([], Raises e).
Definition lift {A} (o : outcome A) : M A := ([], o).

(** A call into a library: its answer becomes a return or a raise. *)
Definition call {A} (a : answer A) : M A :=
  match a with
  | Answers x => ret x
  | Fails e => raise e
  end.

(** [try: body except <class> as e: handler e]. *)
Definition try_except {A} (body : M A) (caught : exn -> bool)
    (handler : exn -> M A) : M A :=
  match body with
  | (t, Raises e) =>
      if caught e then let '(t', r) := handler e in (t ++ t', r)
      else (t, Raises e)
  | other => other
  end.

(** [except Exception]: every class of [exn_class] derives from it. *)
Definition is_Exception (e : exn) : bool := true.

(** [except ImportError]. *)
Definition is_ImportError (e : exn) : bool :=
  match exn_kind e with
  | ImportError => true
  | _ => false
  end.

(** A cell of a worksheet: its truth value and [str(cell)]. *)
Record cell := { cell_truth : bool; cell_str : pystr }.

(** ** The world outside the source

    The process environment, the Python runtime's tables and the libraries
    and services the pipeline calls.  [importable m] tells whether
    [import m] succeeds; when it does not, the import raises
    [import_error m], an exception of any class: [ImportError] for a module
    that is not installed, anything else when the module's own
    initialisation fails.  A library call answers or raises an
    [Exception]. *)
Record World := {
  environ : gmap string pystr;
  importable : string -> bool;
  import_error : string -> exn;
  unicode_lower : pystr -> codepoint -> pystr -> pystr;
  os_sep : codepoint;
  path_join : pystr -> pystr -> pystr;
  path_dirname : pystr -> pystr;
  path_relpath : pystr -> pystr -> answer pystr;
  os_makedirs : pystr -> answer unit;
  os_walk : pystr -> list (pystr * list pystr);
  blob_list : pystr -> pystr -> answer (list pystr);
  blob_fetch : pystr -> pystr -> answer unit;
  fitz_pages : pystr -> answer (list pystr);
  docx_paragraphs : pystr -> answer (list pystr);
  pptx_shapes : pystr -> answer (list (list (option pystr)));
  xlsx_rows : pystr -> answer (list (list (list cell)));
  csv_dump : pystr -> answer pystr;
  search_list_indexes : pystr -> pystr -> answer (list pystr);
  search_create_index : pystr -> answer unit;
  search_client : pystr -> pystr -> pystr -> answer unit;
  search_upload : nat -> list Document -> answer pystr
}.

(** [os.getenv(v)] and [os.getenv(v, default)]. *)
Definition getenv (w : World) (v : string) : option pystr := environ w !! v.
Definition getenv_or (w : World) (v : string) (d : pystr) : pystr :=
  default d (getenv w v).

(** [import m]. *)
Definition py_import (w : World) (m : string) : M unit :=
  if importable w m then ret tt else raise (import_error w m).

Fixpoint py_imports (w : World) (ms : list string) : M unit :=
  match ms with
  | [] => ret tt
  | m :: r => run py_import w m; py_imports w r
  end.

(** The guarded import that opens every stage: [true] when the imports
    succeeded, [false] after the warning of the [except ImportError] branch
    (the branch then returns from the function).  An exception of another
    class is not caught and leaves the stage. *)
Definition guarded_import (w : World) (ms : list string) (warning : pystr)
    : M bool :=
  try_except (run py_imports w ms; ret true) is_ImportError
    (fun _ => run emit (LogWarning warning); ret false).

(** ** Text extraction *)

(** [s.lower()]: ASCII letters are mapped here; the lower-case form of any
    other character, which may depend on what surrounds it, is read from
    the runtime's tables. *)
Definition ascii_lower (c : codepoint) : codepoint :=
  if ((65 <=? c) && (c <=? 90))%N then (c + 32)%N else c.

Fixpoint lower_go (w : World) (before s : pystr) : pystr :=
  match s with
  | [] => []
  | c :: after =>
      (if (c <? 128)%N then [ascii_lower c] else unicode_lower w before c after)
      ++ lower_go w (before ++ [c]) after
  end.

Definition lower (w : World) (s : pystr) : pystr := lower_go w [] s.

Definition extract_text_from_pdf (w : World) (path : pystr) : M pystr :=
  do ok <- guarded_import w ["fitz"]
             (py "PyMuPDF not installed, skipping PDF extraction.");
  if ok then
    try_except
      (do pages <- call (fitz_pages w path);
       ret (join nl pages))
      is_Exception
      (fun e =>
         run emit (LogWarning
               (py "Failed to extract PDF " ++ path ++ py ": " ++ exn_str e));
         ret [])
  else ret [].

Definition extract_text_from_docx (w : World) (path : pystr) : M pystr :=
  do ok <- guarded_import w ["docx"]
             (py "python-docx not installed, skipping DOCX extraction.");
  if ok then
    try_except
      (do paragraphs <- call (docx_paragraphs w path);
       ret (join nl paragraphs))
      is_Exception
      (fun e =>
         run emit (LogWarning
               (py "Failed to extract DOCX " ++ path ++ py ": " ++ exn_str e));
         ret [])
  else ret [].

(** The texts of the shapes that have a [text] attribute, slide by slide. *)
Definition shape_texts (slides : list (list (option pystr))) : list pystr :=
  omap (fun shape => shape) (concat slides).

Definition extract_text_from_pptx (w : World) (path : pystr) : M pystr :=
  do ok <- guarded_import w ["pptx"]
             (py "python-pptx not installed, skipping PPTX extraction.");
  if ok then
    try_except
      (do slides <- call (pptx_shapes w path);
       ret (join nl (shape_texts slides)))
      is_Exception
      (fun e =>
         run emit (LogWarning
               (py "Failed to extract PPTX " ++ path ++ py ": " ++ exn_str e));
         ret [])
  else ret [].

(** One line per row that has a truthy cell: its truthy cells, space-joined. *)
Definition row_texts (sheets : list (list (list cell))) : list pystr :=
  omap (fun row =>
          match map cell_str (filter (fun c => cell_truth c = true) row) with
          | [] => None
          | row_text => Some (join (py " ") row_text)
          end)
       (concat sheets).

Definition extract_text_from_xlsx (w : World) (path : pystr) : M pystr :=
  do ok <- guarded_import w ["openpyxl"]
             (py "openpyxl not installed, skipping XLSX extraction.");
  if ok then
    try_except
      (do sheets <- call (xlsx_rows w path);
       ret (join nl (row_texts sheets)))
      is_Exception
      (fun e =>
         run emit (LogWarning
               (py "Failed to extract XLSX " ++ path ++ py ": " ++ exn_str e));
         ret [])
  else ret [].

Definition extract_text_from_csv (w : World) (path : pystr) : M pystr :=
  do ok <- guarded_import w ["pandas"]
             (py "pandas not installed, skipping CSV extraction.");
  if ok then
    try_except
      (call (csv_dump w path))
      is_Exception
      (fun e =>
         run emit (LogWarning
               (py "Failed to extract CSV " ++ path ++ py ": " ++ exn_str e));
         ret [])
  else ret [].

Definition extract_text (w : World) (path : pystr) : M pystr :=
  let path_lower := lower w path in
  if endswith path_lower (py ".pdf") then extract_text_from_pdf w path
  else if endswith path_lower (py ".docx") then extract_text_from_docx w path
  else if endswith path_lower (py ".pptx") then extract_text_from_pptx w path
  else if endswith path_lower (py ".xlsx") then extract_text_from_xlsx w path
  else if endswith path_lower (py ".csv") then extract_text_from_csv w path
  else ret [].

(** ** The chunker as a call

    [chunk_text] runs the loop for one iteration more than there are tokens:
    a loop that has not ended by then never ends (lemma
    [chunk_text_Diverges]). *)
Definition chunk_text (text : pystr) (chunk_size overlap : Z)
    : outcome (list pystr) :=
  match chunk_text_fuel (S (length (split text))) text chunk_size overlap with
  | Some chunks => Returns chunks
  | None => Diverges
  end.

(** ** Identifiers *)

(** [f"{rel_path.replace(os.sep, '_')}_chunk_{i}"]. *)
Definition raw_id (sep : codepoint) (rel_path : pystr) (i : nat) : pystr :=
  replace_char sep 95%N rel_path ++ py "_chunk_" ++ str_of_nat i.

Definition safe_id (sep : codepoint) (rel_path : pystr) (i : nat) : pystr :=
  sanitize_id (raw_id sep rel_path i).

(** The documents of one file: [enumerate(chunks)] from index [i]. *)
Fixpoint chunk_docs (sep : codepoint) (rel_path : pystr) (i : nat)
    (chunks : list pystr) : list Document :=
  match chunks with
  | [] => []
  | chunk :: r =>
      {| id := safe_id sep rel_path i; text := chunk |}
      :: chunk_docs sep rel_path (S i) r
  end.

(** ** Batched upload *)

(** [range(start, stop, step)] as the list of its elements. *)
Definition py_range (start stop step : Z) : answer (list Z) :=
  if step =? 0 then
    Fails (Exn ValueError (py "range() arg 3 must not be zero"))
  else
    let n :=
      if 0 <? step then
        if start <? stop then (stop - start - 1) / step + 1 else 0
      else
        if stop <? start then (start - stop - 1) / (- step) + 1 else 0 in
    Answers (map (fun k => start + Z.of_nat k * step) (seq 0 (Z.to_nat n))).

(** The body of the [for] loop of [upload_documents], for the start offsets
    still to come; [calls] counts the submissions made so far. *)
Fixpoint upload_batches (w : World) (docs : list Document) (batch_size : Z)
    (starts : list Z) (calls : nat) : M unit :=
  match starts with
  | [] => ret tt
  | i :: rest =>
      let batch := py_slice docs i (i + batch_size) in
      run try_except
            (run emit (Submit batch);
             do result <- call (search_upload w calls batch);
             emit (Print
                     (py "Uploaded batch " ++ str_of_Z (i / batch_size + 1)
                      ++ py " (" ++ str_of_Z (len batch) ++ py " docs) "
                      ++ [8594%N] ++ py " Result: " ++ result)))
            is_Exception
            (fun e =>
               emit (LogError
                       (py "Failed to upload batch "
                        ++ str_of_Z (i / batch_size + 1)
                        ++ py ": " ++ exn_str e)));
      upload_batches w docs batch_size rest (S calls)
  end.

Definition upload_documents (w : World)
    (search_endpoint search_key index_name : pystr)
    (docs : list Document) (batch_size : Z) : M unit :=
  match docs with
  | [] => emit (Print (py "No documents to upload."))
  | _ =>
      do ok <- guarded_import w
                 ["azure.core.credentials"; "azure.search.documents"]
                 (py "Azure Search SDK not installed, skipping document upload.");
      if ok then
        run emit (Print (py "inside upload_documents"));
        run call (search_client w search_endpoint index_name search_key);
        do starts <- call (py_range 0 (len docs) batch_size);
        upload_batches w docs batch_size starts 0
      else ret tt
  end.

(** ** Blob download and index provisioning *)

(** The [for blob in container.list_blobs()] loop of [download_blobs]. *)
Fixpoint download_each (w : World) (local_folder : pystr) (blobs : list pystr)
    : M unit :=
  match blobs with
  | [] => ret tt
  | name :: rest =>
      let file_path := path_join w local_folder name in
      run emit (MakeDirs (path_dirname w file_path));
      run call (os_makedirs w (path_dirname w file_path));
      run try_except
            (run emit (FetchBlob name file_path);
             call (blob_fetch w name file_path))
            is_Exception
            (fun e =>
               emit (LogWarning
                       (py "Failed to download blob " ++ name
                        ++ py ": " ++ exn_str e)));
      download_each w local_folder rest
  end.

Definition download_blobs (w : World) (connection_string container_name : pystr)
    (local_folder : option pystr) : M (option pystr) :=
  do ok <- guarded_import w ["azure.storage.blob"]
             (py "azure-storage-blob not installed, skipping blob download.");
  if ok then
    let local_folder :=
      match local_folder with
      | Some folder => folder
      | None => path_join w (getenv_or w "TMP" (py "/tmp")) (py "blobs")
      end in
    run emit (MakeDirs local_folder);
    run call (os_makedirs w local_folder);
    do blobs <- call (blob_list w connection_string container_name);
    run download_each w local_folder blobs;
    run emit (Print (py "Downloaded blobs to " ++ local_folder));
    ret (Some local_folder)
  else ret None.

Definition ensure_index (w : World) (search_endpoint search_key index_name : pystr)
    : M unit :=
  do ok <- guarded_import w
             ["azure.core.credentials"; "azure.search.documents.indexes";
              "azure.search.documents.indexes.models"]
             (py "Azure Search SDK not installed, skipping index creation.");
  if ok then
    run emit (Print (py "inside ensure_index"));
    do names <- call (search_list_indexes w search_endpoint search_key);
    if bool_decide (index_name ∈ names) then ret tt
    else
      run emit (CreateIndex index_name);
      run call (search_create_index w index_name);
      emit (Print (py "Created index: " ++ index_name))
  else ret tt.

(** ** The orchestrator *)

Definition required_vars : list string :=
  ["BLOB_CONNECTION_STRING"; "BLOB_CONTAINER_NAME"; "SEARCH_ENDPOINT";
   "SEARCH_KEY"; "SEARCH_INDEX"].

(** [not os.getenv(v)]: unset, or set to the empty string. *)
Definition var_missing (w : World) (v : string) : bool :=
  match getenv w v with
  | None => true
  | Some [] => true
  | Some _ => false
  end.

(** What [str + None] raises. *)
Definition concat_None : exn :=
  Exn TypeError
    (py "can only concatenate str (not " ++ [34%N] ++ py "NoneType"
     ++ [34%N] ++ py ") to str").

(** The documents of the file [fname] found in directory [root]. *)
Definition file_docs (w : World) (folder root fname : pystr) : M (list Document) :=
  let fpath := path_join w root fname in
  do rel_path <- call (path_relpath w fpath folder);
  do text <- extract_text w fpath;
  match strip text with
  | [] => ret []
  | _ =>
      do chunks <- lift (chunk_text text 800 100);
      ret (chunk_docs (os_sep w) rel_path 0 chunks)
  end.

Fixpoint files_docs (w : World) (folder root : pystr) (files : list pystr)
    : M (list Document) :=
  match files with
  | [] => ret []
  | fname :: rest =>
      do docs <- file_docs w folder root fname;
      do more <- files_docs w folder root rest;
      ret (docs ++ more)
  end.

Fixpoint walk_docs (w : World) (folder : pystr)
    (dirs : list (pystr * list pystr)) : M (list Document) :=
  match dirs with
  | [] => ret []
  | (root, files) :: rest =>
      do docs <- files_docs w folder root files;
      do more <- walk_docs w folder rest;
      ret (docs ++ more)
  end.

(** The listing loop: [print(f"ID: {doc['id']}\nTEXT:\n{doc['text'][:50]}...")]. *)
Fixpoint print_docs (docs : list Document) : M unit :=
  match docs with
  | [] => ret tt
  | doc :: rest =>
      run emit (Print (py "ID: " ++ id doc ++ nl ++ py "TEXT:" ++ nl
                       ++ py_slice (text doc) 0 50 ++ py "..."));
      print_docs rest
  end.

(** [json.dumps({"status": "success", "docs_uploaded": n})]. *)
Definition success_summary (n : nat) : pystr :=
  py "{" ++ [34%N] ++ py "status" ++ [34%N] ++ py ": "
  ++ [34%N] ++ py "success" ++ [34%N] ++ py ", "
  ++ [34%N] ++ py "docs_uploaded" ++ [34%N] ++ py ": " ++ str_of_nat n ++ py "}".

(** The [try] block of [main]. *)
Definition main_body (w : World) : M pystr :=
  let connection_string := getenv w "BLOB_CONNECTION_STRING" in
  let container_name := getenv w "BLOB_CONTAINER_NAME" in
  let search_endpoint := getenv w "SEARCH_ENDPOINT" in
  let search_key := getenv w "SEARCH_KEY" in
  let index_name := getenv w "SEARCH_INDEX" in
  (* the concatenation of the [print] raises at the first operand that is None *)
  match connection_string, container_name, search_endpoint, search_key,
        index_name with
  | Some connection_string, Some container_name, Some search_endpoint,
    Some search_key, Some index_name =>
      run emit (Print (py "env variables: " ++ connection_string
                       ++ container_name ++ search_endpoint ++ search_key
                       ++ index_name));
      match filter (fun v => var_missing w v = true) required_vars with
      | [] =>
          do folder <- download_blobs w connection_string container_name None;
          match folder with
          | None | Some [] => ret (py "Blob download failed or skipped.")
          | Some folder =>
              do chunked_docs <- walk_docs w folder (os_walk w folder);
              run print_docs chunked_docs;
              run ensure_index w search_endpoint search_key index_name;
              run upload_documents w search_endpoint search_key index_name
                    chunked_docs 500;
              ret (success_summary (length chunked_docs))
          end
      | missing_vars =>
          run emit (LogWarning
                (py "Missing environment variables: " ++ repr_names missing_vars));
          ret (py "Missing required environment variables: "
               ++ repr_names missing_vars)
      end
  | _, _, _, _, _ => raise concat_None
  end.

Definition main (w : World) : M pystr :=
  run emit (Print (py "Trigger received, starting blob processing pipeline."));
  try_except (main_body w) is_Exception
    (fun e =>
       run emit (LogError (py "Pipeline error: " ++ exn_str e));
       ret (py "Internal Server Error: " ++ exn_str e)).

(** ** Notions used to state the properties *)

(** The ceiling of [a / b]. *)
Definition ceil_div (a b : Z) : Z := - ((- a) / b).

(** The number of tokens of a text. *)
Definition token_count (text : pystr) : Z := len (split text).

(** The chunk whose window starts at token offset [start]. *)
Definition window (tokens : list pystr) (chunk_size start : Z) : pystr :=
  join (py " ")
    (py_slice tokens start (Z.min (start + chunk_size) (len tokens))).

(** The start offsets [0, step, 2 * step, ...] of [n] windows. *)
Definition starts_of (step : Z) (n : nat) : list Z :=
  map (fun k => Z.of_nat k * step) (seq 0 n).

(** The number of windows of a text. *)
Definition window_count (text : pystr) (chunk_size overlap : Z) : nat :=
  Z.to_nat (ceil_div (token_count text) (chunk_size - overlap)).

(** A decimal digit. *)
Definition is_digit (c : codepoint) : bool := ((48 <=? c) && (c <=? 57))%N.

(** A string made only of characters of the identifier class. *)
Definition id_safe (s : pystr) : Prop := Forall (fun c => id_char c = true) s.

(** The path part of an identifier: separators flattened, then sanitised. *)
Definition flat_path (sep : codepoint) (rel_path : pystr) : pystr :=
  sanitize_id (replace_char sep 95%N rel_path).

(** The recognised extensions with their handlers, in dispatch order. *)
Definition handlers : list (pystr * (World -> pystr -> M pystr)) :=
  [(py ".pdf", extract_text_from_pdf);
   (py ".docx", extract_text_from_docx);
   (py ".pptx", extract_text_from_pptx);
   (py ".xlsx", extract_text_from_xlsx);
   (py ".csv", extract_text_from_csv)].

(** The batches submitted to the index during a run, in order. *)
Fixpoint submitted (trace : list event) : list (list Document) :=
  match trace with
  | [] => []
  | Submit batch :: rest => batch :: submitted rest
  | _ :: rest => submitted rest
  end.

(** The same world with another upload endpoint. *)
Definition with_upload (w : World)
    (reply : nat -> list Document -> answer pystr) : World :=
  {| environ := environ w;
     importable := importable w;
     import_error := import_error w;
     unicode_lower := unicode_lower w;
     os_sep := os_sep w;
     path_join := path_join w;
     path_dirname := path_dirname w;
     path_relpath := path_relpath w;
     os_makedirs := os_makedirs w;
     os_walk := os_walk w;
     blob_list := blob_list w;
     blob_fetch := blob_fetch w;
     fitz_pages := fitz_pages w;
     docx_paragraphs := docx_paragraphs w;
     pptx_shapes := pptx_shapes w;
     xlsx_rows := xlsx_rows w;
     csv_dump := csv_dump w;
     search_list_indexes := search_list_indexes w;
     search_create_index := search_create_index w;
     search_client := search_client w;
     search_upload := reply |}.

(** What one batch leaves in the trace: its submission, then the line that
    reports the endpoint's reply to it. *)
Definition batch_events (ordinal : Z) (batch : list Document)
    (reply : answer pystr) : list event :=
  [Submit batch;
   match reply with
   | Answers result =>
       Print (py "Uploaded batch " ++ str_of_Z ordinal
              ++ py " (" ++ str_of_Z (len batch) ++ py " docs) "
              ++ [8594%N] ++ py " Result: " ++ result)
   | Fails e =>
       LogError (py "Failed to upload batch " ++ str_of_Z ordinal
                 ++ py ": " ++ exn_str e)
   end].

(** Batch number [k], counted from zero, of batches of [batch_size]
    documents: the slice [docs[k * batch_size : (k + 1) * batch_size]]. *)
Definition nth_batch (docs : list Document) (batch_size : Z) (k : nat)
    : list Document :=
  py_slice docs (Z.of_nat k * batch_size) ((Z.of_nat k + 1) * batch_size).

(** The events of the batches that start at [starts], batch by batch. *)
Definition upload_reports (w : World) (docs : list Document) (batch_size : Z)
    (starts : list Z) (calls : nat) : list (list event) :=
  imap (fun j i =>
          batch_events (i / batch_size + 1)
            (py_slice docs i (i + batch_size))
            (search_upload w (calls + j) (py_slice docs i (i + batch_size))))
       starts.

(** The batches [upload_documents] submits. *)
Definition submitted_batches (w : World)
    (search_endpoint search_key index_name : pystr)
    (docs : list Document) (batch_size : Z) : list (list Document) :=
  submitted
    (fst (upload_documents w search_endpoint search_key index_name docs batch_size)).

(** ** A concrete world for examples *)

(** [posixpath.dirname(p)]: [p] up to its last [/], without the slashes
    that end this head unless it is made of slashes only. *)
Fixpoint from_first_slash (s : pystr) : pystr :=
  match s with
  | [] => []
  | c :: r => if (c =? 47)%N then s else from_first_slash r
  end.

Fixpoint lstrip_slashes (s : pystr) : pystr :=
  match s with
  | [] => []
  | c :: r => if (c =? 47)%N then lstrip_slashes r else s
  end.

Definition posix_dirname (p : pystr) : pystr :=
  let head := rev (from_first_slash (rev p)) in
  if forallb (N.eqb 47) head then head
  else rev (lstrip_slashes (rev head)).

(** What [import m] raises for a module that is not installed. *)
Definition ModuleNotFound (m : string) : exn :=
  Exn ImportError (py "No module named '" ++ py m ++ py "'").

(** POSIX paths, a process environment [env], a local folder holding
    [files], parsers that read the text [x] out of every file and services
    that accept every request; [installed] tells which modules can be
    imported, the others are not installed, and [reply] is the upload
    endpoint. *)
Definition example_world (env : gmap string pystr) (installed : string -> bool)
    (files : list pystr) (reply : nat -> list Document -> answer pystr) : World :=
  {| environ := env;
     importable := installed;
     import_error := ModuleNotFound;
     unicode_lower := fun _ c _ => [c];
     os_sep := 47%N;
     path_join := fun a b => a ++ [47%N] ++ b;
     path_dirname := posix_dirname;
     path_relpath := fun p start => Answers (drop (S (length start)) p);
     os_makedirs := fun _ => Answers tt;
     os_walk := fun folder => [(folder, files)];
     blob_list := fun _ _ => Answers [];
     blob_fetch := fun _ _ => Answers tt;
     fitz_pages := fun _ => Answers [py "x"];
     docx_paragraphs := fun _ => Answers [py "x"];
     pptx_shapes := fun _ => Answers [[Some (py "x")]];
     xlsx_rows := fun _ => Answers [[[ {| cell_truth := true; cell_str := py "x" |} ]]];
     csv_dump := fun _ => Answers (py "x");
     search_list_indexes := fun _ _ => Answers [];
     search_create_index := fun _ => Answers tt;
     search_client := fun _ _ _ => Answers tt;
     search_upload := reply |}.

(** A process environment that sets the five required variables. *)
Definition full_env : gmap string pystr :=
  <["BLOB_CONNECTION_STRING" := py "conn"]>
    (<["BLOB_CONTAINER_NAME" := py "docs"]>
       (<["SEARCH_ENDPOINT" := py "https://search"]>
          (<["SEARCH_KEY" := py "key"]>
             (<["SEARCH_INDEX" := py "idx"]> ∅)))).

Definition accepts : nat -> list Document -> answer pystr :=
  fun _ _ => Answers (py "ok").

Definition everything : string -> bool := fun _ => true.
Definition nothing : string -> bool := fun _ => false.

(** The tokens of the window that starts at token offset [start]. *)
Definition window_tokens (tokens : list pystr) (chunk_size start : Z)
    : list pystr :=
  py_slice tokens start (Z.min (start + chunk_size) (len tokens)).

(** A word: at least one character, none of them whitespace. *)
Definition is_word (t : pystr) : Prop :=
  t <> [] /\ Forall (fun c => is_space c = false) t.

(** A text made of whitespace only (possibly empty). *)
Definition blank (s : pystr) : Prop := Forall (fun c => is_space c = true) s.

(** ** Reasoning about computations *)

(** [m] does not run for ever. *)
Definition halts {A} (m : M A) : Prop := snd m <> Diverges.

(** Every effect of [m] satisfies [P], and a value returned by [m]
    satisfies [Q]. *)
Definition ensures {A} (m : M A) (Q : A -> Prop) (P : event -> Prop) : Prop :=
  Forall P (fst m) /\ forall a, snd m = Returns a -> Q a.

(** Two computations end the same way and submit the same batches. *)
Definition agree {A} (m1 m2 : M A) : Prop :=
  snd m1 = snd m2 /\ submitted (fst m1) = submitted (fst m2).

(** An effect that is not a submission to the index. *)
Definition not_Submit (ev : event) : Prop :=
  match ev with
  | Submit _ => False
  | _ => True
  end.

(** A document made from a chunk: an identifier of safe characters, and a
    text of between one and [chunk_size] words joined by single spaces. *)
Definition chunk_document (chunk_size : Z) (d : Document) : Prop :=
  id_safe (id d)
  /\ exists words,
       Forall is_word words /\ words <> [] /\ len words <= chunk_size
       /\ text d = join (py " ") words.

(** An effect that, if it is a submission, submits a non-empty batch of at
    most [batch_size] documents, each satisfying [Q]. *)
Definition submits_within (batch_size : Z) (Q : Document -> Prop)
    (ev : event) : Prop :=
  match ev with
  | Submit batch => batch <> [] /\ len batch <= batch_size /\ Forall Q batch
  | _ => True
  end.

(** Every required variable is set to a non-empty value. *)
Definition configured (w : World) : Prop :=
  forall v, In v required_vars -> exists s, getenv w v = Some s /\ s <> [].

(** The line that the first [print] of the [try] block writes. *)
Definition env_line (w : World) : pystr :=
  py "env variables: "
  ++ getenv_or w "BLOB_CONNECTION_STRING" []
  ++ getenv_or w "BLOB_CONTAINER_NAME" []
  ++ getenv_or w "SEARCH_ENDPOINT" []
  ++ getenv_or w "SEARCH_KEY" []
  ++ getenv_or w "SEARCH_INDEX" [].

(** The folder [download_blobs] uses when it is given none. *)
Definition default_folder (w : World) : pystr :=
  path_join w (getenv_or w "TMP" (py "/tmp")) (py "blobs").

(** What [main] does once the configuration has been accepted. *)
Definition main_stages (w : World) : M pystr :=
  do folder <- download_blobs w (getenv_or w "BLOB_CONNECTION_STRING" [])
                 (getenv_or w "BLOB_CONTAINER_NAME" []) None;
  match folder with
  | None | Some [] => ret (py "Blob download failed or skipped.")
  | Some folder =>
      do chunked_docs <- walk_docs w folder (os_walk w folder);
      run print_docs chunked_docs;
      run ensure_index w (getenv_or w "SEARCH_ENDPOINT" [])
            (getenv_or w "SEARCH_KEY" []) (getenv_or w "SEARCH_INDEX" []);
      run upload_documents w (getenv_or w "SEARCH_ENDPOINT" [])
            (getenv_or w "SEARCH_KEY" []) (getenv_or w "SEARCH_INDEX" [])
            chunked_docs 500;
      ret (success_summary (length chunked_docs))
  end.

(** The blobs a run tried to fetch, with the files they were written to. *)
Fixpoint fetched (trace : list event) : list (pystr * pystr) :=
  match trace with
  | [] => []
  | FetchBlob name file_path :: rest => (name, file_path) :: fetched rest
  | _ :: rest => fetched rest
  end.

(** The warnings a run logged. *)
Fixpoint warnings (trace : list event) : list pystr :=
  match trace with
  | [] => []
  | LogWarning msg :: rest => msg :: warnings rest
  | _ :: rest => warnings rest
  end.

(** The same world with another blob container. *)
Definition with_blobs (w : World) (listing : answer (list pystr))
    (fetch : pystr -> answer unit) : World :=
  {| environ := environ w;
     importable := importable w;
     import_error := import_error w;
     unicode_lower := unicode_lower w;
     os_sep := os_sep w;
     path_join := path_join w;
     path_dirname := path_dirname w;
     path_relpath := path_relpath w;
     os_makedirs := os_makedirs w;
     os_walk := os_walk w;
     blob_list := fun _ _ => listing;
     blob_fetch := fun name _ => fetch name;
     fitz_pages := fitz_pages w;
     docx_paragraphs := docx_paragraphs w;
     pptx_shapes := pptx_shapes w;
     xlsx_rows := xlsx_rows w;
     csv_dump := csv_dump w;
     search_list_indexes := search_list_indexes w;
     search_create_index := search_create_index w;
     search_client := search_client w;
     search_upload := search_upload w |}.

(** The same world where every import that fails raises [err]. *)
Definition with_import_error (w : World) (err : string -> exn) : World :=
  {| environ := environ w;
     importable := importable w;
     import_error := err;
     unicode_lower := unicode_lower w;
     os_sep := os_sep w;
     path_join := path_join w;
     path_dirname := path_dirname w;
     path_relpath := path_relpath w;
     os_makedirs := os_makedirs w;
     os_walk := os_walk w;
     blob_list := blob_list w;
     blob_fetch := blob_fetch w;
     fitz_pages := fitz_pages w;
     docx_paragraphs := docx_paragraphs w;
     pptx_shapes := pptx_shapes w;
     xlsx_rows := xlsx_rows w;
     csv_dump := csv_dump w;
     search_list_indexes := search_list_indexes w;
     search_create_index := search_create_index w;
     search_client := search_client w;
     search_upload := search_upload w |}.

(** Every library installed, but a [pandas] that fails while it loads its
    compiled extensions: its import raises [ValueError]. *)
Definition broken_pandas : World :=
  with_import_error
    (example_world full_env (fun m => negb (bool_decide (m = "pandas"%string)))
       [py "data.csv"] accepts)
    (fun _ =>
       Exn ValueError
         (py "numpy.dtype size changed, may indicate binary incompatibility")).

(** The first module of [ms] whose import fails. *)
Definition failing_import (w : World) (ms : list string) : string :=
  default ""%string (head (filter (fun m => importable w m = false) ms)).

(** The library each extraction handler imports, by extension. *)
Definition handler_library : list (pystr * string) :=
  [(py ".pdf", "fitz"); (py ".docx", "docx"); (py ".pptx", "pptx");
   (py ".xlsx", "openpyxl"); (py ".csv", "pandas")]%string.

(** The indexes a run tried to create. *)
Fixpoint created (trace : list event) : list pystr :=
  match trace with
  | [] => []
  | CreateIndex name :: rest => name :: created rest
  | _ :: rest => created rest
  end.

(** The modules [ensure_index] and [upload_documents] import. *)
Definition index_modules : list string :=
  ["azure.core.credentials"; "azure.search.documents.indexes";
   "azure.search.documents.indexes.models"].
Definition upload_modules : list string :=
  ["azure.core.credentials"; "azure.search.documents"].

(** The files of a walk, each with the directory it was found in. *)
Definition walk_files (dirs : list (pystr * list pystr)) : list (pystr * pystr) :=
  flat_map (fun d => map (pair (fst d)) (snd d)) dirs.

(** The relative path of a walked file, when [os.path.relpath] gives one. *)
Definition rel_path_of (w : World) (folder : pystr) (f : pystr * pystr)
    : option pystr :=
  match path_relpath w (path_join w (fst f) (snd f)) folder with
  | Answers rel_path => Some rel_path
  | Fails _ => None
  end.

(** The relative paths of the files of a walk. *)
Definition rel_paths (w : World) (folder : pystr)
    (dirs : list (pystr * list pystr)) : list pystr :=
  omap (rel_path_of w folder) (walk_files dirs).

(** The identifiers of the [n] chunks of the file with relative path [r]. *)
Definition group_ids (sep : codepoint) (g : pystr * nat) : list pystr :=
  map (safe_id sep (fst g)) (seq 0 (snd g)).

(** Modules: everything but the search client library. *)
Definition without_search : string -> bool :=
  fun m => negb (bool_decide (m = "azure.search.documents"%string)).

(** The first character of a returned report. *)
Definition first_char (o : outcome pystr) : option codepoint :=
  match o with
  | Returns s => head s
  | _ => None
  end.

(** * Properties *)

(** ** Slices, tokens and joins *)

Section Slices.
Context {A : Type}.
Implicit Types l : list A.

Lemma py_slice_inside l (i j : Z) :
  0 <= i -> i <= j -> j <= len l ->
  py_slice l i j = take (Z.to_nat (j - i)) (drop (Z.to_nat i) l).
Proof.
  intros Hi Hij Hj. unfold py_slice, clamp_index.
  destruct (Z.ltb_spec i 0); [lia|].
  destruct (Z.ltb_spec j 0); [lia|].
  rewrite !Z.min_l by lia. reflexivity.
Qed.

Lemma py_slice_length l (i j : Z) :
  0 <= i -> i <= j -> j <= len l -> len (py_slice l i j) = j - i.
Proof.
  intros Hi Hij Hj. rewrite py_slice_inside by assumption.
  unfold len in *. rewrite length_take, length_drop. lia.
Qed.

Lemma py_slice_whole_from l (i B : Z) :
  0 <= i -> 0 <= B ->
  py_slice l i (i + B) = take (Z.to_nat B) (drop (Z.to_nat i) l).
Proof.
  intros Hi HB. unfold py_slice, clamp_index, len.
  destruct (Z.ltb_spec i 0); [lia|].
  destruct (Z.ltb_spec (i + B) 0); [lia|].
  destruct (Z.le_gt_cases (Z.of_nat (length l)) i) as [Hout|Hin].
  - rewrite !Z.min_r by lia. rewrite Z.sub_diag.
    rewrite (drop_ge l (Z.to_nat i)) by lia. rewrite take_nil. reflexivity.
  - rewrite (Z.min_l i) by lia.
    destruct (Z.le_gt_cases (i + B) (Z.of_nat (length l))) as [Hfit|Hcut].
    + rewrite Z.min_l by lia. f_equal. lia.
    + rewrite Z.min_r by lia.
      rewrite !take_ge; [reflexivity | rewrite length_drop; lia
                        | rewrite length_drop; lia].
Qed.

End Slices.

Lemma split_go_nonempty cur s : Forall (fun t => t <> []) (split_go cur s).
Proof.
  revert cur. induction s as [|c r IH]; intros cur; simpl.
  - destruct cur as [|x cur]; [constructor|].
    constructor; [|constructor].
    intros H. apply (f_equal length) in H. rewrite length_rev in H.
    simpl in H. lia.
  - destruct (is_space c); [|apply IH].
    destruct cur as [|x cur]; [apply IH|].
    constructor; [|apply IH].
    intros H. apply (f_equal length) in H. rewrite length_rev in H.
    simpl in H. lia.
Qed.

(** Every token of [text.split()] has at least one character. *)
Lemma split_nonempty s : Forall (fun t => t <> []) (split s).
Proof. apply split_go_nonempty. Qed.

Lemma join_nonempty sep l :
  l <> [] -> Forall (fun t => t <> []) l -> join sep l <> [].
Proof.
  destruct l as [|x r]; [congruence|]. intros _ H.
  apply Forall_cons in H as [Hx _]. simpl.
  destruct r; [assumption|]. destruct x; [congruence|discriminate].
Qed.

(** ** The chunking loop *)

Lemma starts_of_S step n :
  starts_of step (S n) = 0 :: map (fun s => s + step) (starts_of step n).
Proof.
  unfold starts_of. simpl. f_equal.
  rewrite <- seq_shift, !map_map. apply map_ext. intros k. lia.
Qed.

(** With a positive step the loop performs [n] iterations, where [n] is the
    number of offsets [start + k * step] below the token count, and appends
    one window per offset. *)
Lemma chunk_loop_run tokens chunk_size overlap :
  0 < chunk_size - overlap ->
  forall (n fuel : nat) (start : Z) (chunks : list pystr),
    ((0 < n)%nat ->
     start + (Z.of_nat n - 1) * (chunk_size - overlap) < len tokens) ->
    len tokens <= start + Z.of_nat n * (chunk_size - overlap) ->
    (n < fuel)%nat ->
    chunk_loop fuel tokens chunk_size overlap start chunks
    = Some (chunks ++ map (fun s => window tokens chunk_size (start + s))
                          (starts_of (chunk_size - overlap) n)).
Proof.
  intros Hstep. induction n as [|n IH]; intros fuel start chunks Hlast Hend Hfuel.
  - destruct fuel as [|fuel]; [lia|]. simpl.
    destruct (Z.ltb_spec start (len tokens)); [lia|].
    rewrite app_nil_r. reflexivity.
  - destruct fuel as [|fuel]; [lia|]. cbn [chunk_loop].
    specialize (Hlast ltac:(lia)). rewrite Nat2Z.inj_succ in Hlast, Hend.
    replace (Z.succ (Z.of_nat n) - 1) with (Z.of_nat n) in Hlast by lia.
    rewrite Z.mul_succ_l in Hend.
    assert (0 <= Z.of_nat n * (chunk_size - overlap)) as Hpos by nia.
    destruct (Z.ltb_spec start (len tokens)); [|lia].
    rewrite IH; [| intros; lia | lia | lia].
    rewrite starts_of_S. cbn [map]. rewrite <- app_assoc. cbn [app].
    rewrite Z.add_0_r, map_map. fold (window tokens chunk_size start).
    do 3 f_equal. apply map_ext. intros s. f_equal. lia.
Qed.

Lemma ceil_div_bounds a b :
  0 < b -> b * (ceil_div a b - 1) < a /\ a <= b * ceil_div a b.
Proof.
  intros Hb. unfold ceil_div.
  pose proof (Z.div_mod (- a) b ltac:(lia)) as Hdm.
  pose proof (Z.mod_pos_bound (- a) b Hb) as Hr.
  nia.
Qed.

Lemma ceil_div_nonneg a b : 0 < b -> 0 <= a -> 0 <= ceil_div a b.
Proof. intros Hb Ha. pose proof (ceil_div_bounds a b Hb). nia. Qed.

Lemma ceil_div_zero b : 0 < b -> ceil_div 0 b = 0.
Proof. intros Hb. unfold ceil_div. rewrite Z.div_0_l by lia. reflexivity. Qed.

Lemma ceil_div_le_self a b : 0 < b -> 0 <= a -> ceil_div a b <= a.
Proof. intros Hb Ha. pose proof (ceil_div_bounds a b Hb). nia. Qed.

Lemma len_nonneg {A} (l : list A) : 0 <= len l.
Proof. unfold len. lia. Qed.

Lemma len_map {A B} (f : A -> B) l : len (map f l) = len l.
Proof. unfold len. rewrite length_map. reflexivity. Qed.

Lemma starts_of_length step n : length (starts_of step n) = n.
Proof. unfold starts_of. rewrite length_map, length_seq. reflexivity. Qed.

Lemma starts_of_In step n s :
  In s (starts_of step n) -> exists k, (k < n)%nat /\ s = Z.of_nat k * step.
Proof.
  unfold starts_of. rewrite in_map_iff. intros (k & <- & Hk).
  apply in_seq in Hk. exists k. split; [lia | reflexivity].
Qed.

(** Enough iterations: the loop ends and returns one window per start
    offset [0, step, 2 * step, ...] below the token count. *)
Lemma chunk_text_fuel_enough text chunk_size overlap fuel :
  overlap < chunk_size ->
  (window_count text chunk_size overlap < fuel)%nat ->
  chunk_text_fuel fuel text chunk_size overlap
  = Some (map (window (split text) chunk_size)
              (starts_of (chunk_size - overlap)
                         (window_count text chunk_size overlap))).
Proof.
  intros Hlt Hfuel. unfold chunk_text_fuel, window_count in *.
  pose proof (len_nonneg (split text)) as HT. fold (token_count text) in HT.
  pose proof (ceil_div_bounds (token_count text) (chunk_size - overlap)
                ltac:(lia)) as [Hlo Hhi].
  pose proof (ceil_div_nonneg (token_count text) (chunk_size - overlap)
                ltac:(lia) HT) as Hc.
  rewrite (chunk_loop_run (split text) chunk_size overlap ltac:(lia)
             (Z.to_nat (ceil_div (token_count text) (chunk_size - overlap))));
    [ | intros _; rewrite Z2Nat.id by lia; fold (token_count text); nia
      | rewrite Z2Nat.id by lia; fold (token_count text); nia
      | assumption ].
  reflexivity.
Qed.

Lemma window_count_le text chunk_size overlap :
  overlap < chunk_size ->
  (window_count text chunk_size overlap <= length (split text))%nat.
Proof.
  intros Hlt. unfold window_count.
  pose proof (len_nonneg (split text)) as HT. fold (token_count text) in HT.
  pose proof (ceil_div_le_self (token_count text) (chunk_size - overlap)
                ltac:(lia) HT) as Hle.
  unfold token_count, len in *. lia.
Qed.

Lemma chunk_text_returns text chunk_size overlap :
  overlap < chunk_size ->
  chunk_text text chunk_size overlap
  = Returns (map (window (split text) chunk_size)
                 (starts_of (chunk_size - overlap)
                            (window_count text chunk_size overlap))).
Proof.
  intros Hlt. unfold chunk_text.
  rewrite chunk_text_fuel_enough; [reflexivity | assumption |].
  pose proof (window_count_le text chunk_size overlap Hlt). lia.
Qed.

(** Without a positive step the start offset never passes the token count. *)
Lemma chunk_loop_stuck tokens chunk_size overlap :
  chunk_size <= overlap ->
  forall fuel start chunks,
    start < len tokens ->
    chunk_loop fuel tokens chunk_size overlap start chunks = None.
Proof.
  intros Hle. induction fuel as [|fuel IH]; intros start chunks Hstart.
  - reflexivity.
  - cbn [chunk_loop]. destruct (Z.ltb_spec start (len tokens)); [|lia].
    apply IH. lia.
Qed.

Lemma chunk_loop_more_fuel tokens chunk_size overlap fuel :
  forall start chunks result,
    chunk_loop fuel tokens chunk_size overlap start chunks = Some result ->
    chunk_loop (S fuel) tokens chunk_size overlap start chunks = Some result.
Proof.
  induction fuel as [|fuel IH]; intros start chunks result H.
  - discriminate.
  - cbn [chunk_loop] in H. change (chunk_loop (S (S fuel)) tokens chunk_size overlap start chunks)
      with (if start <? len tokens
            then chunk_loop (S fuel) tokens chunk_size overlap
                   (start + (chunk_size - overlap))
                   (chunks ++ [join (py " ")
                     (py_slice tokens start
                        (Z.min (start + chunk_size) (len tokens)))])
            else Some chunks).
    destruct (start <? len tokens); [apply IH|]; assumption.
Qed.

Lemma chunk_loop_fuel_le tokens chunk_size overlap fuel fuel' start chunks result :
  (fuel <= fuel')%nat ->
  chunk_loop fuel tokens chunk_size overlap start chunks = Some result ->
  chunk_loop fuel' tokens chunk_size overlap start chunks = Some result.
Proof.
  induction 1 as [|fuel' _ IH]; intros H; [assumption|].
  apply chunk_loop_more_fuel, IH, H.
Qed.

(** [chunk_text] diverges exactly when no number of iterations ends the loop. *)
Lemma chunk_text_Diverges text chunk_size overlap :
  chunk_text text chunk_size overlap = Diverges
  <-> forall fuel, chunk_text_fuel fuel text chunk_size overlap = None.
Proof.
  split.
  - intros H fuel.
    destruct (Z.lt_ge_cases overlap chunk_size) as [Hlt|Hge].
    + rewrite chunk_text_returns in H by assumption. discriminate.
    + unfold chunk_text, chunk_text_fuel in *.
      destruct (split text) as [|t ts] eqn:Htok; [discriminate|].
      apply chunk_loop_stuck; [lia|]. unfold len. simpl. lia.
  - intros H. unfold chunk_text. rewrite H. reflexivity.
Qed.

(** [chunk_text] returns exactly what the loop returns once it ends. *)
Lemma chunk_text_Returns text chunk_size overlap chunks :
  chunk_text text chunk_size overlap = Returns chunks
  <-> exists fuel, chunk_text_fuel fuel text chunk_size overlap = Some chunks.
Proof.
  split.
  - unfold chunk_text. intros H.
    exists (S (length (split text))).
    destruct (chunk_text_fuel _ text chunk_size overlap); congruence.
  - intros [fuel H].
    destruct (chunk_text text chunk_size overlap) as [l|e|] eqn:Hrun.
    + unfold chunk_text in Hrun.
      destruct (chunk_text_fuel (S (length (split text))) text chunk_size overlap)
        as [l'|] eqn:Hl'; [|discriminate].
      injection Hrun as ->. unfold chunk_text_fuel in *.
      apply (chunk_loop_fuel_le _ _ _ _ (Nat.max fuel (S (length (split text)))))
        in H; [|lia].
      apply (chunk_loop_fuel_le _ _ _ _ (Nat.max fuel (S (length (split text)))))
        in Hl'; [|lia].
      congruence.
    + unfold chunk_text in Hrun.
      destruct (chunk_text_fuel (S (length (split text))) text chunk_size overlap);
        discriminate.
    + pose proof (proj1 (chunk_text_Diverges _ _ _) Hrun fuel) as Hnone.
      congruence.
Qed.

(** ** Chunk count, termination and chunk contents *)

(** C1, as stated, fails: on the ten-token example with [chunk_size = 4] and
    [overlap = 1] the loop also emits the window that starts at offset 9, so
    four chunks are returned where the stated formula
    [ceil((T - overlap) / (chunk_size - overlap))] gives three. *)
Lemma chunk_text_count_counterexample :
  token_count (py "a b c d e f g h i j") = 10
  /\ chunk_text (py "a b c d e f g h i j") 4 1
     = Returns [py "a b c d"; py "d e f g"; py "g h i j"; py "j"]
  /\ ceil_div (10 - 1) (4 - 1) = 3
  /\ len [py "a b c d"; py "d e f g"; py "g h i j"; py "j"] = 4.
Proof. vm_compute. repeat split; reflexivity. Qed.

(** C1 (amended): for [overlap < chunk_size], [chunk_text] returns exactly
    [ceil(T / (chunk_size - overlap))] chunks, where [T] is the number of
    tokens, one window per start offset [0, step, 2 * step, ...], and none
    when [T = 0]; on the ten-token example with [chunk_size = 4] and
    [overlap = 1] it returns the four chunks that start at offsets 0, 3, 6, 9. *)
Theorem chunk_text_count :
  (forall text chunk_size overlap,
      overlap < chunk_size ->
      exists chunks,
        chunk_text text chunk_size overlap = Returns chunks
        /\ len chunks = ceil_div (token_count text) (chunk_size - overlap)
        /\ chunks = map (window (split text) chunk_size)
                        (starts_of (chunk_size - overlap) (length chunks))
        /\ (token_count text = 0 -> chunks = []))
  /\ chunk_text (py "a b c d e f g h i j") 4 1
     = Returns [py "a b c d"; py "d e f g"; py "g h i j"; py "j"]
  /\ starts_of (4 - 1) 4 = [0; 3; 6; 9].
Proof.
  split; [|split; vm_compute; reflexivity].
  intros text chunk_size overlap Hlt.
  eexists. split; [apply chunk_text_returns; assumption|].
  pose proof (len_nonneg (split text)) as HT. fold (token_count text) in HT.
  assert (length (map (window (split text) chunk_size)
                      (starts_of (chunk_size - overlap)
                                 (window_count text chunk_size overlap)))
          = window_count text chunk_size overlap) as Hlen
    by (rewrite length_map, starts_of_length; reflexivity).
  split; [|split].
  - unfold len. rewrite Hlen. unfold window_count.
    apply Z2Nat.id, ceil_div_nonneg; lia.
  - rewrite Hlen. reflexivity.
  - intros H0. unfold window_count. rewrite H0, ceil_div_zero by lia.
    reflexivity.
Qed.

Lemma chunk_text_count_witness :
  1 < 4
  /\ exists chunks,
       chunk_text (py "a b c d e f g h i j") 4 1 = Returns chunks
       /\ len chunks = ceil_div (token_count (py "a b c d e f g h i j")) (4 - 1)
       /\ chunks = map (window (split (py "a b c d e f g h i j")) 4)
                       (starts_of (4 - 1) (length chunks))
       /\ (token_count (py "a b c d e f g h i j") = 0 -> chunks = []).
Proof.
  split; [lia|].
  apply (proj1 chunk_text_count (py "a b c d e f g h i j") 4 1). lia.
Defined.

(** C3, as stated, fails: [chunk_text] has no validation.  With
    [overlap >= chunk_size] a text without tokens is accepted and the empty
    list returned, and a text with a token keeps the loop running for ever;
    in neither case is an error signalled. *)
Lemma chunk_text_validation_counterexample :
  1 <= 1
  /\ chunk_text (py "") 1 1 = Returns []
  /\ chunk_text (py "a") 1 1 = Diverges
  /\ chunk_text_fuel 1000 (py "a") 1 1 = None.
Proof. vm_compute. repeat split; try reflexivity. discriminate. Qed.

(** C3 (amended): [chunk_text] never signals an error.  For
    [overlap < chunk_size] it terminates and returns its chunks; for
    [overlap >= chunk_size] it returns the empty list when the text has no
    token, and does not terminate when the text has one. *)
Theorem chunk_text_unvalidated text chunk_size overlap :
  (forall e, chunk_text text chunk_size overlap <> Raises e)
  /\ (overlap < chunk_size ->
      exists fuel chunks,
        chunk_text_fuel fuel text chunk_size overlap = Some chunks
        /\ chunk_text text chunk_size overlap = Returns chunks)
  /\ (chunk_size <= overlap -> token_count text = 0 ->
      chunk_text text chunk_size overlap = Returns [])
  /\ (chunk_size <= overlap -> 0 < token_count text ->
      chunk_text text chunk_size overlap = Diverges
      /\ forall fuel, chunk_text_fuel fuel text chunk_size overlap = None).
Proof.
  split; [|split; [|split]].
  - intros e. unfold chunk_text.
    destruct (chunk_text_fuel _ text chunk_size overlap); discriminate.
  - intros Hlt. exists (S (window_count text chunk_size overlap)). eexists.
    split; [apply chunk_text_fuel_enough; [assumption | lia]|].
    apply chunk_text_returns. assumption.
  - intros _ H0. unfold token_count, len in H0.
    unfold chunk_text, chunk_text_fuel.
    destruct (split text); [reflexivity | simpl in H0; lia].
  - intros Hge Hpos.
    assert (forall fuel, chunk_text_fuel fuel text chunk_size overlap = None)
      as Hnone
      by (intros fuel; apply chunk_loop_stuck; [assumption | exact Hpos]).
    split; [apply chunk_text_Diverges|]; exact Hnone.
Qed.

Lemma chunk_text_unvalidated_witness :
  (forall e, chunk_text (py "a") 1 1 <> Raises e)
  /\ chunk_text (py "a") 1 1 = Diverges
  /\ (exists fuel chunks,
        chunk_text_fuel fuel (py "a b") 2 1 = Some chunks
        /\ chunk_text (py "a b") 2 1 = Returns chunks)
  /\ chunk_text (py " ") 2 5 = Returns [].
Proof.
  split; [apply (chunk_text_unvalidated (py "a") 1 1)|].
  split; [apply (chunk_text_unvalidated (py "a") 1 1); vm_compute;
          [discriminate | reflexivity]|].
  split; [apply (chunk_text_unvalidated (py "a b") 2 1); lia|].
  apply (chunk_text_unvalidated (py " ") 2 5); [lia | reflexivity].
Defined.

(** C10: for [chunk_size >= 1] and [overlap < chunk_size], [chunk_text]
    returns, and every chunk it returns is a non-empty string: the space-join
    of a slice [tokens[start:stop]] of at least one and at most [chunk_size]
    tokens. *)
Theorem chunk_text_chunks_nonempty text chunk_size overlap :
  1 <= chunk_size -> overlap < chunk_size ->
  exists chunks,
    chunk_text text chunk_size overlap = Returns chunks
    /\ Forall
         (fun chunk =>
            chunk <> []
            /\ exists start stop,
                 0 <= start /\ start < stop /\ stop <= token_count text
                 /\ stop - start <= chunk_size
                 /\ len (py_slice (split text) start stop) = stop - start
                 /\ chunk = join (py " ") (py_slice (split text) start stop))
         chunks.
Proof.
  intros Hsize Hlt. eexists. split; [apply chunk_text_returns; assumption|].
  pose proof (len_nonneg (split text)) as HT. fold (token_count text) in HT.
  pose proof (ceil_div_bounds (token_count text) (chunk_size - overlap)
                ltac:(lia)) as [Hlo _].
  pose proof (ceil_div_nonneg (token_count text) (chunk_size - overlap)
                ltac:(lia) HT) as Hc.
  apply List.Forall_forall. intros chunk Hin.
  apply in_map_iff in Hin as (start & <- & Hin).
  apply starts_of_In in Hin as (k & Hk & ->).
  unfold window_count in Hk.
  set (start := Z.of_nat k * (chunk_size - overlap)).
  assert (0 <= start /\ start < token_count text) as [Hs0 Hs1]
    by (subst start; split; nia).
  set (stop := Z.min (start + chunk_size) (token_count text)).
  assert (start < stop /\ stop <= token_count text
          /\ stop - start <= chunk_size) as (Hss & Hst & Hw)
    by (subst stop; lia).
  assert (len (py_slice (split text) start stop) = stop - start) as Hlen
    by (apply py_slice_length; [lia | lia | exact Hst]).
  split.
  - unfold window. fold (token_count text). fold stop.
    apply join_nonempty.
    + intros Hnil. rewrite Hnil in Hlen. unfold len in Hlen. simpl in Hlen. lia.
    + rewrite py_slice_inside by (try exact Hst; lia).
      apply Forall_take, Forall_drop, split_nonempty.
  - exists start, stop. repeat split; try assumption; lia.
Qed.

Lemma chunk_text_chunks_nonempty_witness :
  exists chunks,
    chunk_text (py "a b c d e") 2 0 = Returns chunks
    /\ Forall
         (fun chunk =>
            chunk <> []
            /\ exists start stop,
                 0 <= start /\ start < stop
                 /\ stop <= token_count (py "a b c d e")
                 /\ stop - start <= 2
                 /\ len (py_slice (split (py "a b c d e")) start stop)
                    = stop - start
                 /\ chunk = join (py " ")
                              (py_slice (split (py "a b c d e")) start stop))
         chunks.
Proof. apply (chunk_text_chunks_nonempty (py "a b c d e") 2 0); lia. Defined.

(** ** Identifier sanitisation *)

Lemma sanitize_id_safe s : id_safe (sanitize_id s).
Proof.
  unfold id_safe, sanitize_id. apply List.Forall_forall. intros c Hin.
  apply in_map_iff in Hin as (x & <- & _).
  destruct (id_char x) eqn:Hx; [exact Hx | reflexivity].
Qed.

Lemma sanitize_id_fixed s : id_safe s -> sanitize_id s = s.
Proof.
  unfold id_safe, sanitize_id. induction 1 as [|c r Hc _ IH]; [reflexivity|].
  cbn [map]. rewrite Hc, IH. reflexivity.
Qed.

Lemma sanitize_id_app a b : sanitize_id (a ++ b) = sanitize_id a ++ sanitize_id b.
Proof. apply map_app. Qed.

Lemma digits_of_uint_digits u : Forall (fun c => is_digit c = true) (digits_of_uint u).
Proof. induction u; cbn [digits_of_uint]; constructor; auto. Qed.

Lemma digits_of_uint_inj u v : digits_of_uint u = digits_of_uint v -> u = v.
Proof.
  revert v. induction u; intros v H; destruct v; try discriminate H;
    try reflexivity; cbn [digits_of_uint] in H; injection H as H;
    f_equal; auto.
Qed.

Lemma str_of_nat_digits n : Forall (fun c => is_digit c = true) (str_of_nat n).
Proof. apply digits_of_uint_digits. Qed.

Lemma str_of_nat_inj n m : str_of_nat n = str_of_nat m -> n = m.
Proof.
  intros H. apply digits_of_uint_inj in H.
  rewrite <- (Unsigned.of_to n), <- (Unsigned.of_to m), H. reflexivity.
Qed.

Lemma digit_id_char c : is_digit c = true -> id_char c = true.
Proof.
  unfold is_digit, id_char. intros ->.
  rewrite orb_true_r. reflexivity.
Qed.

Lemma str_of_nat_safe n : id_safe (str_of_nat n).
Proof.
  unfold id_safe. eapply List.Forall_impl; [|apply str_of_nat_digits].
  intros c. apply digit_id_char.
Qed.

(** A run of characters with property [P] followed by a character without
    it determines where the run ends. *)
Lemma run_then_stop {A} (P : A -> Prop) (x : A) :
  ~ P x ->
  forall l1 l2 r1 r2,
    Forall P l1 -> Forall P l2 ->
    l1 ++ x :: r1 = l2 ++ x :: r2 -> l1 = l2 /\ r1 = r2.
Proof.
  intros Hx. induction l1 as [|c l1 IH]; intros l2 r1 r2 H1 H2 Heq.
  - destruct l2 as [|y l2]; cbn [app] in Heq.
    + injection Heq as ->. split; reflexivity.
    + injection Heq as -> _. apply Forall_cons in H2 as [Hy _]. contradiction.
  - destruct l2 as [|y l2]; cbn [app] in Heq.
    + injection Heq as <- _. apply Forall_cons in H1 as [Hc _]. contradiction.
    + injection Heq as -> Heq.
      apply Forall_cons in H1 as [_ H1]. apply Forall_cons in H2 as [_ H2].
      destruct (IH l2 r1 r2 H1 H2 Heq) as [-> ->]. split; reflexivity.
Qed.

(** The decimal index at the end of an identifier can be read back. *)
Lemma chunk_suffix_inj a b n m :
  a ++ py "_chunk_" ++ str_of_nat n = b ++ py "_chunk_" ++ str_of_nat m ->
  a = b /\ n = m.
Proof.
  intros H. apply (f_equal (@rev codepoint)) in H.
  rewrite !rev_app_distr in H.
  change (rev (py "_chunk_")) with (95%N :: rev (py "_chunk")) in H.
  rewrite <- !app_assoc in H. cbn [app] in H.
  apply (run_then_stop (fun c => is_digit c = true)) in H as [Hd Ha].
  - apply (f_equal (@rev codepoint)) in Hd. rewrite !rev_involutive in Hd.
    apply str_of_nat_inj in Hd.
    apply app_inv_head in Ha.
    apply (f_equal (@rev codepoint)) in Ha. rewrite !rev_involutive in Ha.
    split; assumption.
  - discriminate.
  - apply Forall_rev, str_of_nat_digits.
  - apply Forall_rev, str_of_nat_digits.
Qed.

(** The sanitised identifier is the sanitised flattened path followed,
    unchanged, by the delimiter and the index. *)
Lemma safe_id_shape sep rel_path i :
  safe_id sep rel_path i = flat_path sep rel_path ++ py "_chunk_" ++ str_of_nat i.
Proof.
  unfold safe_id, raw_id, flat_path. rewrite !sanitize_id_app.
  rewrite (sanitize_id_fixed (str_of_nat i)) by apply str_of_nat_safe.
  reflexivity.
Qed.

Lemma safe_id_eq sep p1 i1 p2 i2 :
  safe_id sep p1 i1 = safe_id sep p2 i2
  <-> flat_path sep p1 = flat_path sep p2 /\ i1 = i2.
Proof.
  rewrite !safe_id_shape. split.
  - apply chunk_suffix_inj.
  - intros [-> ->]. reflexivity.
Qed.

Lemma chunk_docs_ids sep rel_path chunks :
  forall i,
    map id (chunk_docs sep rel_path i chunks)
    = map (safe_id sep rel_path) (seq i (length chunks)).
Proof.
  induction chunks as [|c r IH]; intros i; [reflexivity|].
  cbn [chunk_docs map length seq id]. rewrite IH. reflexivity.
Qed.

(** C7: every character of a sanitised string, hence of every identifier the
    pipeline builds, lies in [[A-Za-z0-9_\-=]]; the relative path
    [Reports/Q1 (final).pdf] with chunk index 2 has the raw identifier
    [Reports_Q1 (final).pdf_chunk_2] and the identifier
    [Reports_Q1__final__pdf_chunk_2]. *)
Theorem sanitize_id_closure :
  (forall s, Forall (fun c => id_char c = true) (sanitize_id s))
  /\ (forall sep rel_path i,
         Forall (fun c => id_char c = true) (safe_id sep rel_path i))
  /\ raw_id 47%N (py "Reports/Q1 (final).pdf") 2
     = py "Reports_Q1 (final).pdf_chunk_2"
  /\ sanitize_id (py "Reports_Q1 (final).pdf_chunk_2")
     = py "Reports_Q1__final__pdf_chunk_2"
  /\ safe_id 47%N (py "Reports/Q1 (final).pdf") 2
     = py "Reports_Q1__final__pdf_chunk_2"
  /\ safe_id 92%N (py "Reports/Q1 (final).pdf") 2
     = py "Reports_Q1__final__pdf_chunk_2".
Proof.
  split; [exact sanitize_id_safe|].
  split; [intros; apply sanitize_id_safe|].
  vm_compute. repeat split; reflexivity.
Qed.

(** C9: [sanitize_id] is idempotent, and is the identity on every string
    made only of characters of [[A-Za-z0-9_\-=]]. *)
Theorem sanitize_id_idempotent :
  (forall s, sanitize_id (sanitize_id s) = sanitize_id s)
  /\ (forall s, Forall (fun c => id_char c = true) s -> sanitize_id s = s).
Proof.
  split.
  - intros s. apply sanitize_id_fixed, sanitize_id_safe.
  - exact sanitize_id_fixed.
Qed.

Lemma sanitize_id_idempotent_witness :
  sanitize_id (sanitize_id (py "Q1 (final).pdf")) = sanitize_id (py "Q1 (final).pdf")
  /\ Forall (fun c => id_char c = true) (py "a-b=C_9")
  /\ sanitize_id (py "a-b=C_9") = py "a-b=C_9".
Proof.
  split; [apply (proj1 sanitize_id_idempotent)|].
  assert (Forall (fun c => id_char c = true) (py "a-b=C_9")) as Hsafe
    by (repeat constructor).
  split; [exact Hsafe|].
  apply (proj2 sanitize_id_idempotent (py "a-b=C_9") Hsafe).
Defined.

(** C4, as stated, fails: the relative paths [a/b.pdf] and [a_b.pdf] (and
    likewise [a b.pdf]) are distinct, yet their chunks of equal index get the
    same identifier; a run over a folder that holds [a b.pdf] and [a_b.pdf]
    submits two documents with one identifier. *)
Lemma safe_id_unique_counterexample :
  safe_id 47%N (py "a/b.pdf") 0 = safe_id 47%N (py "a_b.pdf") 0
  /\ safe_id 47%N (py "a b.pdf") 0 = safe_id 47%N (py "a_b.pdf") 0
  /\ safe_id 47%N (py "a_b.pdf") 0 = py "a_b_pdf_chunk_0"
  /\ py "a/b.pdf" <> py "a_b.pdf"
  /\ py "a b.pdf" <> py "a_b.pdf"
  /\ map (map id)
       (submitted
          (fst (main (example_world full_env everything
                        [py "a b.pdf"; py "a_b.pdf"] accepts))))
     = [[py "a_b_pdf_chunk_0"; py "a_b_pdf_chunk_0"]]
  /\ snd (main (example_world full_env everything
                  [py "a b.pdf"; py "a_b.pdf"] accepts))
     = Returns (success_summary 2).
Proof. vm_compute. repeat split; try reflexivity; discriminate. Qed.

(** C4 (amended): two (relative path, chunk index) pairs get the same
    identifier exactly when the chunk indices are equal and the flattened
    paths are equal after sanitisation; in particular the identifiers of the
    chunks of one file are pairwise distinct. *)
Theorem safe_id_unique_up_to_sanitisation sep :
  (forall p1 i1 p2 i2,
      safe_id sep p1 i1 = safe_id sep p2 i2
      <-> flat_path sep p1 = flat_path sep p2 /\ i1 = i2)
  /\ (forall p1 i1 p2 i2,
         i1 <> i2 \/ flat_path sep p1 <> flat_path sep p2 ->
         safe_id sep p1 i1 <> safe_id sep p2 i2)
  /\ (forall rel_path chunks,
         NoDup (map id (chunk_docs sep rel_path 0 chunks))).
Proof.
  split; [intros; apply safe_id_eq|]. split.
  - intros p1 i1 p2 i2 Hne Heq. apply safe_id_eq in Heq as [Hp Hi].
    destruct Hne; contradiction.
  - intros rel_path chunks. rewrite chunk_docs_ids.
    apply NoDup_fmap_2; [|apply NoDup_seq].
    intros i j Heq. apply safe_id_eq in Heq as [_ Hi]. exact Hi.
Qed.

Lemma safe_id_unique_up_to_sanitisation_witness :
  safe_id 47%N (py "docs/a.pdf") 0 <> safe_id 47%N (py "docs/a.pdf") 1
  /\ safe_id 47%N (py "docs/a.pdf") 3 <> safe_id 47%N (py "docs/b.pdf") 3
  /\ NoDup (map id (chunk_docs 47%N (py "docs/a.pdf") 0 [py "x"; py "y"])).
Proof.
  split; [|split].
  - apply (proj1 (proj2 (safe_id_unique_up_to_sanitisation 47%N))).
    left. discriminate.
  - apply (proj1 (proj2 (safe_id_unique_up_to_sanitisation 47%N))).
    right. vm_compute. discriminate.
  - apply (proj2 (proj2 (safe_id_unique_up_to_sanitisation 47%N))).
Defined.

(** ** Effects: imports and handlers *)

Lemma py_imports_run w ms :
  py_imports w ms
  = if forallb (importable w) ms then ([], Returns tt)
    else ([], Raises (import_error w (failing_import w ms))).
Proof.
  unfold failing_import.
  induction ms as [|m r IH]; [reflexivity|].
  cbn [py_imports forallb]. unfold py_import.
  rewrite filter_cons. destruct (importable w m) eqn:Hm.
  - rewrite decide_False by discriminate.
    cbn [andb]. rewrite IH.
    destruct (forallb (importable w) r); reflexivity.
  - rewrite decide_True by reflexivity. reflexivity.
Qed.

(** The guarded import reports whether the modules are there, unless an
    import fails with something else than [ImportError], which it lets
    through. *)
Lemma guarded_import_run w ms warning :
  guarded_import w ms warning
  = if forallb (importable w) ms then ([], Returns true)
    else if is_ImportError (import_error w (failing_import w ms))
         then ([LogWarning warning], Returns false)
         else ([], Raises (import_error w (failing_import w ms))).
Proof.
  unfold guarded_import. rewrite py_imports_run.
  destruct (forallb (importable w) ms); [reflexivity|].
  cbn [bind try_except raise].
  destruct (is_ImportError _); reflexivity.
Qed.

Lemma guarded_import_one w m warning :
  guarded_import w [m] warning
  = if importable w m then ([], Returns true)
    else if is_ImportError (import_error w m)
         then ([LogWarning warning], Returns false)
         else ([], Raises (import_error w m)).
Proof.
  unfold guarded_import, py_imports, py_import.
  destruct (importable w m); [reflexivity|].
  cbn [bind try_except raise].
  destruct (is_ImportError _); reflexivity.
Qed.

(** A handler returns when its library is imported, whatever the parser
    does, and when the import raises [ImportError]; any other exception of
    the import leaves the handler before it has done anything. *)
Ltac handler_outcome :=
  rewrite guarded_import_one;
  match goal with
  | |- context [importable ?w ?m] =>
      destruct (importable w m);
      [ cbn [bind];
        match goal with
        | |- context [call ?a] => destruct a; do 2 eexists; reflexivity
        end
      | destruct (is_ImportError (import_error w m));
        [ eexists; reflexivity | reflexivity ] ]
  end.

Lemma extract_text_from_pdf_outcome w path :
  if importable w "fitz"
  then exists trace s, extract_text_from_pdf w path = (trace, Returns s)
  else if is_ImportError (import_error w "fitz")
       then exists msg,
              extract_text_from_pdf w path = ([LogWarning msg], Returns [])
       else extract_text_from_pdf w path = ([], Raises (import_error w "fitz")).
Proof. unfold extract_text_from_pdf. handler_outcome. Qed.

Lemma extract_text_from_docx_outcome w path :
  if importable w "docx"
  then exists trace s, extract_text_from_docx w path = (trace, Returns s)
  else if is_ImportError (import_error w "docx")
       then exists msg,
              extract_text_from_docx w path = ([LogWarning msg], Returns [])
       else extract_text_from_docx w path = ([], Raises (import_error w "docx")).
Proof. unfold extract_text_from_docx. handler_outcome. Qed.

Lemma extract_text_from_pptx_outcome w path :
  if importable w "pptx"
  then exists trace s, extract_text_from_pptx w path = (trace, Returns s)
  else if is_ImportError (import_error w "pptx")
       then exists msg,
              extract_text_from_pptx w path = ([LogWarning msg], Returns [])
       else extract_text_from_pptx w path = ([], Raises (import_error w "pptx")).
Proof. unfold extract_text_from_pptx. handler_outcome. Qed.

Lemma extract_text_from_xlsx_outcome w path :
  if importable w "openpyxl"
  then exists trace s, extract_text_from_xlsx w path = (trace, Returns s)
  else if is_ImportError (import_error w "openpyxl")
       then exists msg,
              extract_text_from_xlsx w path = ([LogWarning msg], Returns [])
       else extract_text_from_xlsx w path
            = ([], Raises (import_error w "openpyxl")).
Proof. unfold extract_text_from_xlsx. handler_outcome. Qed.

Lemma extract_text_from_csv_outcome w path :
  if importable w "pandas"
  then exists trace s, extract_text_from_csv w path = (trace, Returns s)
  else if is_ImportError (import_error w "pandas")
       then exists msg,
              extract_text_from_csv w path = ([LogWarning msg], Returns [])
       else extract_text_from_csv w path = ([], Raises (import_error w "pandas")).
Proof. unfold extract_text_from_csv. handler_outcome. Qed.

(** ** Extension dispatch *)

Lemma endswith_app pre suffix : endswith (pre ++ suffix) suffix = true.
Proof.
  unfold endswith. rewrite length_app.
  apply andb_true_intro. split; [apply Nat.leb_le; lia|].
  apply bool_decide_eq_true.
  replace (length pre + length suffix - length suffix)%nat with (length pre) by lia.
  apply drop_app_length.
Qed.

Lemma endswith_inv s suffix :
  endswith s suffix = true -> exists pre, s = pre ++ suffix.
Proof.
  unfold endswith. intros H. apply andb_prop in H as [_ H].
  apply bool_decide_eq_true in H.
  exists (take (length s - length suffix) s).
  transitivity (take (length s - length suffix) s
                ++ drop (length s - length suffix) s);
    [symmetry; apply take_drop | f_equal; exact H].
Qed.

Lemma ascii_lower_ascii c : (ascii_lower c < 128)%N -> (c < 128)%N.
Proof.
  unfold ascii_lower.
  destruct ((65 <=? c) && (c <=? 90))%N eqn:Hc; [|auto].
  apply andb_prop in Hc as [_ Hc]. apply N.leb_le in Hc. lia.
Qed.

Lemma lower_go_ascii w ext :
  Forall (fun c => (c < 128)%N) ext ->
  forall before, lower_go w before ext = map ascii_lower ext.
Proof.
  induction 1 as [|c r Hc _ IH]; intros before; [reflexivity|].
  cbn [lower_go map]. apply N.ltb_lt in Hc. rewrite Hc, IH. reflexivity.
Qed.

(** Lower-casing a path whose last characters are ASCII lower-cases those
    characters one by one, whatever precedes them. *)
Lemma lower_go_app_ascii w ext :
  Forall (fun c => (c < 128)%N) ext ->
  forall stem before,
    exists pre, lower_go w before (stem ++ ext) = pre ++ map ascii_lower ext.
Proof.
  intros Hext. induction stem as [|c stem IH]; intros before.
  - exists []. apply lower_go_ascii, Hext.
  - cbn [app lower_go]. destruct (IH (before ++ [c])) as [pre Hpre].
    eexists. rewrite Hpre, app_assoc. reflexivity.
Qed.

Lemma lower_suffix w stem ext suffix :
  Forall (fun c => (c < 128)%N) suffix ->
  map ascii_lower ext = suffix ->
  exists pre, lower w (stem ++ ext) = pre ++ suffix.
Proof.
  intros Hsuf <-. apply lower_go_app_ascii.
  apply List.Forall_forall. intros c Hin. apply ascii_lower_ascii.
  rewrite List.Forall_forall in Hsuf. apply Hsuf, in_map, Hin.
Qed.

(** Two texts ending in different recognised extensions: no clash. *)
Ltac suffix_clash :=
  match goal with
  | |- endswith (?pre ++ ?a) ?b = false =>
      let E := fresh "E" in
      destruct (endswith (pre ++ a) b) eqn:E; [exfalso | reflexivity];
      apply endswith_inv in E as [? E];
      apply (f_equal (@rev codepoint)) in E;
      rewrite !rev_app_distr in E; vm_compute in E; discriminate E
  end.

Lemma handlers_ascii suffix handler :
  In (suffix, handler) handlers -> Forall (fun c => (c < 128)%N) suffix.
Proof.
  unfold handlers. cbn [In].
  intros [H|[H|[H|[H|[H|[]]]]]]; injection H as <- _;
    apply List.Forall_forall; intros c Hc; vm_compute in Hc;
    repeat (destruct Hc as [<-|Hc]; [reflexivity|]); destruct Hc.
Qed.

(** A path whose extension is, up to the case of its ASCII letters, one of
    the recognised ones goes to that extension's handler. *)
Lemma extract_text_dispatch w stem ext suffix handler :
  In (suffix, handler) handlers ->
  map ascii_lower ext = suffix ->
  extract_text w (stem ++ ext) = handler w (stem ++ ext).
Proof.
  intros Hin Hext.
  destruct (lower_suffix w stem ext suffix (handlers_ascii _ _ Hin) Hext)
    as [pre Hlow].
  unfold extract_text. rewrite Hlow. clear Hlow Hext.
  unfold handlers in Hin. cbn [In] in Hin.
  destruct Hin as [H|[H|[H|[H|[H|[]]]]]];
    pose proof (f_equal fst H) as Hs; apply (f_equal snd) in H;
    cbn [fst snd] in Hs, H; subst suffix handler.
  - rewrite endswith_app. reflexivity.
  - replace (endswith (pre ++ py ".docx") (py ".pdf")) with false
      by (symmetry; suffix_clash).
    rewrite endswith_app. reflexivity.
  - replace (endswith (pre ++ py ".pptx") (py ".pdf")) with false
      by (symmetry; suffix_clash).
    replace (endswith (pre ++ py ".pptx") (py ".docx")) with false
      by (symmetry; suffix_clash).
    rewrite endswith_app. reflexivity.
  - replace (endswith (pre ++ py ".xlsx") (py ".pdf")) with false
      by (symmetry; suffix_clash).
    replace (endswith (pre ++ py ".xlsx") (py ".docx")) with false
      by (symmetry; suffix_clash).
    replace (endswith (pre ++ py ".xlsx") (py ".pptx")) with false
      by (symmetry; suffix_clash).
    rewrite endswith_app. reflexivity.
  - replace (endswith (pre ++ py ".csv") (py ".pdf")) with false
      by (symmetry; suffix_clash).
    replace (endswith (pre ++ py ".csv") (py ".docx")) with false
      by (symmetry; suffix_clash).
    replace (endswith (pre ++ py ".csv") (py ".pptx")) with false
      by (symmetry; suffix_clash).
    replace (endswith (pre ++ py ".csv") (py ".xlsx")) with false
      by (symmetry; suffix_clash).
    rewrite endswith_app. reflexivity.
Qed.

Lemma extract_text_unrecognised w path :
  (forall suffix handler,
      In (suffix, handler) handlers -> endswith (lower w path) suffix = false) ->
  extract_text w path = ([], Returns []).
Proof.
  intros H. unfold extract_text.
  rewrite (H (py ".pdf") extract_text_from_pdf) by (cbn; tauto).
  rewrite (H (py ".docx") extract_text_from_docx) by (cbn; tauto).
  rewrite (H (py ".pptx") extract_text_from_pptx) by (cbn; tauto).
  rewrite (H (py ".xlsx") extract_text_from_xlsx) by (cbn; tauto).
  rewrite (H (py ".csv") extract_text_from_csv) by (cbn; tauto).
  reflexivity.
Qed.

Lemma lower_ascii w path :
  Forall (fun c => (c < 128)%N) path -> lower w path = map ascii_lower path.
Proof. intros H. apply lower_go_ascii, H. Qed.

(** An ASCII path that does not end in a recognised extension, whatever the
    case of its letters, yields the empty string. *)
Lemma extract_text_other_extension w path :
  Forall (fun c => (c < 128)%N) path ->
  (forall stem ext suffix handler,
      In (suffix, handler) handlers ->
      map ascii_lower ext = suffix -> path <> stem ++ ext) ->
  extract_text w path = ([], Returns []).
Proof.
  intros Hascii Hother. apply extract_text_unrecognised.
  intros suffix handler Hin.
  destruct (endswith (lower w path) suffix) eqn:E; [exfalso | reflexivity].
  rewrite lower_ascii in E by assumption.
  apply endswith_inv in E as [pre E].
  apply List.map_eq_app in E as (stem & ext & Hpath & _ & Hext).
  exact (Hother stem ext suffix handler Hin Hext Hpath).
Qed.

(** The handler of an extension, by the way the import of its library
    ends. *)
Lemma handlers_outcome w path suffix handler m :
  In (suffix, handler) handlers -> In (suffix, m) handler_library ->
  if importable w m
  then exists trace s, handler w path = (trace, Returns s)
  else if is_ImportError (import_error w m)
       then exists msg, handler w path = ([LogWarning msg], Returns [])
       else handler w path = ([], Raises (import_error w m)).
Proof.
  unfold handlers, handler_library. cbn [In].
  intros [H|[H|[H|[H|[H|[]]]]]] [L|[L|[L|[L|[L|[]]]]]];
    pose proof (f_equal fst H) as Hs; apply (f_equal snd) in H;
    pose proof (f_equal fst L) as Ls; apply (f_equal snd) in L;
    cbn [fst snd] in Hs, H, Ls, L; subst handler m;
    try (exfalso; rewrite <- Hs in Ls; vm_compute in Ls; discriminate Ls).
  - apply extract_text_from_pdf_outcome.
  - apply extract_text_from_docx_outcome.
  - apply extract_text_from_pptx_outcome.
  - apply extract_text_from_xlsx_outcome.
  - apply extract_text_from_csv_outcome.
Qed.

(** [extract_text] returns, or raises what the import of a parsing library
    raised, before any effect. *)
Lemma extract_text_outcome w path :
  (exists trace s, extract_text w path = (trace, Returns s))
  \/ (exists suffix m,
         In (suffix, m) handler_library
         /\ importable w m = false
         /\ is_ImportError (import_error w m) = false
         /\ extract_text w path = ([], Raises (import_error w m))).
Proof.
  assert (forall suffix handler m,
             In (suffix, handler) handlers -> In (suffix, m) handler_library ->
             (exists trace s, handler w path = (trace, Returns s))
             \/ (exists suffix m,
                    In (suffix, m) handler_library
                    /\ importable w m = false
                    /\ is_ImportError (import_error w m) = false
                    /\ handler w path = ([], Raises (import_error w m))))
    as Hcase.
  { intros suffix handler m Hin Hlib.
    pose proof (handlers_outcome w path suffix handler m Hin Hlib) as H.
    destruct (importable w m) eqn:Himp; [left; exact H|].
    destruct (is_ImportError (import_error w m)) eqn:Hkind.
    - left. destruct H as [msg H]. do 2 eexists. exact H.
    - right. exists suffix, m. auto. }
  unfold extract_text.
  destruct (endswith _ (py ".pdf"));
    [apply (Hcase (py ".pdf") _ "fitz"%string); cbn; tauto|].
  destruct (endswith _ (py ".docx"));
    [apply (Hcase (py ".docx") _ "docx"%string); cbn; tauto|].
  destruct (endswith _ (py ".pptx"));
    [apply (Hcase (py ".pptx") _ "pptx"%string); cbn; tauto|].
  destruct (endswith _ (py ".xlsx"));
    [apply (Hcase (py ".xlsx") _ "openpyxl"%string); cbn; tauto|].
  destruct (endswith _ (py ".csv"));
    [apply (Hcase (py ".csv") _ "pandas"%string); cbn; tauto|].
  left. do 2 eexists. reflexivity.
Qed.

(** C8, as stated, fails: where importing [pandas] fails with an exception
    that is not an [ImportError], [extract_text] raises it for a [csv]
    path; a [pandas] that is not installed only gives a warning. *)
Lemma extract_text_raises_counterexample :
  extract_text broken_pandas (py "data.csv")
  = ([], Raises
           (Exn ValueError
              (py "numpy.dtype size changed, may indicate binary incompatibility")))
  /\ extract_text (example_world full_env nothing [py "data.csv"] accepts)
       (py "data.csv")
     = ([LogWarning (py "pandas not installed, skipping CSV extraction.")],
        Returns []).
Proof. split; reflexivity. Qed.

(** C8 (amended): [extract_text] returns a string and raises nothing
    whenever each parsing library either can be imported or fails to import
    with [ImportError]: a handler whose library is imported returns whatever
    the parser does, one whose import raises [ImportError] logs a warning
    and returns the empty string, and any other exception of the import
    leaves the handler, and [extract_text], before any effect.  A path whose
    extension is [pdf], [docx], [pptx], [xlsx] or [csv] in any mix of upper
    and lower case goes to the handler of that extension; a path whose
    lower-case form ends in no recognised extension (for an ASCII path: a
    path that ends in none, whatever the case of its letters) yields the
    empty string without any effect, as does [notes.txt]. *)
Theorem extract_text_total w path :
  ((forall suffix m,
       In (suffix, m) handler_library ->
       importable w m = false -> is_ImportError (import_error w m) = true) ->
   exists trace s, extract_text w path = (trace, Returns s))
  /\ (forall suffix handler m,
         In (suffix, handler) handlers -> In (suffix, m) handler_library ->
         if importable w m
         then exists trace s, handler w path = (trace, Returns s)
         else if is_ImportError (import_error w m)
              then exists msg, handler w path = ([LogWarning msg], Returns [])
              else handler w path = ([], Raises (import_error w m)))
  /\ ((exists trace s, extract_text w path = (trace, Returns s))
      \/ (exists suffix m,
             In (suffix, m) handler_library
             /\ importable w m = false
             /\ is_ImportError (import_error w m) = false
             /\ extract_text w path = ([], Raises (import_error w m))))
  /\ (forall stem ext suffix handler,
         In (suffix, handler) handlers ->
         map ascii_lower ext = suffix ->
         path = stem ++ ext ->
         extract_text w path = handler w path)
  /\ ((forall suffix handler,
          In (suffix, handler) handlers ->
          endswith (lower w path) suffix = false) ->
      extract_text w path = ([], Returns []))
  /\ (Forall (fun c => (c < 128)%N) path ->
      (forall stem ext suffix handler,
          In (suffix, handler) handlers ->
          map ascii_lower ext = suffix -> path <> stem ++ ext) ->
      extract_text w path = ([], Returns []))
  /\ extract_text w (py "notes.txt") = ([], Returns []).
Proof.
  split.
  { intros Hmissing.
    destruct (extract_text_outcome w path)
      as [H|(suffix & m & Hlib & Himp & Hkind & _)]; [exact H|].
    rewrite (Hmissing suffix m Hlib Himp) in Hkind. discriminate Hkind. }
  split; [intros suffix handler m; apply handlers_outcome|].
  split; [apply extract_text_outcome|].
  split; [intros stem ext suffix handler Hin Hext ->;
          eapply extract_text_dispatch; eassumption|].
  split; [apply extract_text_unrecognised|].
  split; [apply extract_text_other_extension|].
  reflexivity.
Qed.

(** Without any parsing library installed a [csv] file is skipped with a
    warning; with them, [Q1.PdF] goes to the PDF handler. *)
Lemma extract_text_total_witness :
  (exists trace s,
      extract_text (example_world full_env nothing [] accepts) (py "a.CSV")
      = (trace, Returns s))
  /\ extract_text (example_world full_env everything [] accepts) (py "Q1.PdF")
     = extract_text_from_pdf (example_world full_env everything [] accepts)
         (py "Q1.PdF")
  /\ extract_text (example_world full_env nothing [] accepts) (py "a.CSV")
     = ([LogWarning (py "pandas not installed, skipping CSV extraction.")],
        Returns [])
  /\ extract_text (example_world full_env everything [] accepts) (py "notes.txt")
     = ([], Returns []).
Proof.
  split; [|split; [|split]].
  - apply (proj1 (extract_text_total
                    (example_world full_env nothing [] accepts) (py "a.CSV"))).
    intros suffix m _ _. reflexivity.
  - apply (proj1 (proj2 (proj2 (proj2 (extract_text_total
                           (example_world full_env everything [] accepts)
                           (py "Q1.PdF")))))
             (py "Q1") (py ".PdF") (py ".pdf") extract_text_from_pdf);
      [cbn; tauto | reflexivity | reflexivity].
  - rewrite (proj1 (proj2 (proj2 (proj2 (extract_text_total
                           (example_world full_env nothing [] accepts)
                           (py "a.CSV")))))
             (py "a") (py ".CSV") (py ".csv") extract_text_from_csv);
      [reflexivity | cbn; tauto | reflexivity | reflexivity].
  - apply (proj1 (proj2 (proj2 (proj2 (proj2 (extract_text_total
                           (example_world full_env everything [] accepts)
                           (py "notes.txt"))))))).
    intros suffix handler Hin. unfold handlers in Hin. cbn [In] in Hin.
    destruct Hin as [H|[H|[H|[H|[H|[]]]]]];
      apply (f_equal fst) in H; cbn [fst] in H; subst suffix; reflexivity.
Defined.

(** ** Batched upload *)

Lemma submitted_app t1 t2 : submitted (t1 ++ t2) = submitted t1 ++ submitted t2.
Proof.
  induction t1 as [|ev t1 IH]; [reflexivity|].
  destruct ev; cbn [app submitted]; rewrite ?IH; reflexivity.
Qed.

Lemma submitted_batch_events ordinal batch reply :
  submitted (batch_events ordinal batch reply) = [batch].
Proof. destruct reply; reflexivity. Qed.

Lemma upload_reports_cons w docs batch_size i rest calls :
  upload_reports w docs batch_size (i :: rest) calls
  = batch_events (i / batch_size + 1) (py_slice docs i (i + batch_size))
      (search_upload w calls (py_slice docs i (i + batch_size)))
    :: upload_reports w docs batch_size rest (S calls).
Proof.
  unfold upload_reports. cbn [imap]. rewrite Nat.add_0_r. f_equal.
  apply imap_ext. intros j x _. cbn. rewrite Nat.add_succ_r. reflexivity.
Qed.

(** The loop attempts every batch and always runs to its end: a reply that
    is a failure only changes the line reported for that batch. *)
Lemma upload_batches_run w docs batch_size starts :
  forall calls,
    upload_batches w docs batch_size starts calls
    = (concat (upload_reports w docs batch_size starts calls), Returns tt).
Proof.
  induction starts as [|i rest IH]; intros calls; [reflexivity|].
  rewrite upload_reports_cons. cbn [upload_batches concat].
  rewrite IH. unfold batch_events.
  destruct (search_upload w calls (py_slice docs i (i + batch_size)));
    reflexivity.
Qed.

Lemma submitted_upload_reports w docs batch_size starts :
  forall calls,
    submitted (concat (upload_reports w docs batch_size starts calls))
    = map (fun i => py_slice docs i (i + batch_size)) starts.
Proof.
  induction starts as [|i rest IH]; intros calls; [reflexivity|].
  rewrite upload_reports_cons. cbn [concat map].
  rewrite submitted_app, submitted_batch_events, IH. reflexivity.
Qed.

(** What [upload_documents] does, case by case. *)
Lemma upload_documents_run w search_endpoint search_key index_name docs batch_size :
  upload_documents w search_endpoint search_key index_name docs batch_size
  = match docs with
    | [] => ([Print (py "No documents to upload.")], Returns tt)
    | _ =>
        if forallb (importable w)
             ["azure.core.credentials"; "azure.search.documents"]%string
        then
          match search_client w search_endpoint index_name search_key with
          | Fails e => ([Print (py "inside upload_documents")], Raises e)
          | Answers _ =>
              match py_range 0 (len docs) batch_size with
              | Fails e => ([Print (py "inside upload_documents")], Raises e)
              | Answers starts =>
                  (Print (py "inside upload_documents")
                   :: concat (upload_reports w docs batch_size starts 0),
                   Returns tt)
              end
          end
        else if is_ImportError (import_error w (failing_import w upload_modules))
        then
          ([LogWarning
              (py "Azure Search SDK not installed, skipping document upload.")],
           Returns tt)
        else ([], Raises (import_error w (failing_import w upload_modules)))
    end.
Proof.
  unfold upload_documents. destruct docs as [|d docs]; [reflexivity|].
  rewrite guarded_import_run. fold upload_modules.
  destruct (forallb (importable w) _);
    [|destruct (is_ImportError _); reflexivity].
  cbn [bind emit app].
  destruct (search_client w search_endpoint index_name search_key);
    [|reflexivity].
  cbn [call ret bind app].
  destruct (py_range 0 (len (d :: docs)) batch_size); [|reflexivity].
  cbn [call ret bind app]. rewrite upload_batches_run. reflexivity.
Qed.

Lemma with_upload_upload w reply : search_upload (with_upload w reply) = reply.
Proof. reflexivity. Qed.

(** ** Batch partition *)

Lemma ceil_div_pred a b : 0 < b -> 0 < a -> (a - 1) / b + 1 = ceil_div a b.
Proof.
  intros Hb Ha.
  pose proof (ceil_div_bounds a b Hb) as [Hlo Hhi].
  pose proof (Z.mul_div_le (a - 1) b Hb) as Hq1.
  pose proof (Z.mul_succ_div_gt (a - 1) b Hb) as Hq2.
  set (q := (a - 1) / b) in *. set (c := ceil_div a b) in *.
  assert (c <= q + 1) by nia. assert (q + 1 <= c) by nia. lia.
Qed.

(** For a positive step, [range(0, n, step)] lists the offsets
    [0, step, 2 * step, ...] below [n]: there are [ceil(n / step)] of them. *)
Lemma py_range_from_0 n step :
  1 <= step -> 0 <= n ->
  py_range 0 n step = Answers (starts_of step (Z.to_nat (ceil_div n step))).
Proof.
  intros Hstep Hn. unfold py_range.
  destruct (Z.eqb_spec step 0); [lia|].
  destruct (Z.ltb_spec 0 step); [|lia].
  unfold starts_of. destruct (Z.ltb_spec 0 n) as [Hpos|Hzero].
  - rewrite Z.sub_0_r, ceil_div_pred by lia. reflexivity.
  - replace n with 0 by lia. rewrite ceil_div_zero by lia. reflexivity.
Qed.

(** Slicing a list into consecutive pieces of [b] elements loses nothing. *)
Lemma pieces_concat {A} (b : nat) :
  forall (n : nat) (l : list A),
    (length l <= n * b)%nat ->
    concat (map (fun k => take b (drop (k * b) l)) (seq 0 n)) = l.
Proof.
  induction n as [|n IH]; intros l Hlen.
  - destruct l; [reflexivity | simpl in Hlen; lia].
  - cbn [seq map concat]. rewrite <- seq_shift, map_map.
    rewrite drop_0.
    rewrite (map_ext _ (fun k => take b (drop (k * b) (drop b l)))).
    + rewrite IH by (rewrite length_drop; lia). apply take_drop.
    + intros k. rewrite drop_drop. reflexivity.
Qed.

Lemma starts_slices {A} (l : list A) (B : Z) (n : nat) :
  1 <= B ->
  map (fun i => py_slice l i (i + B)) (starts_of B n)
  = map (fun k => take (Z.to_nat B) (drop (k * Z.to_nat B) l)) (seq 0 n).
Proof.
  intros HB. unfold starts_of. rewrite map_map. apply map_ext. intros k.
  rewrite py_slice_whole_from by nia. do 2 f_equal. nia.
Qed.

(** With the SDK importable, the client constructed and a batch size of at
    least one, the batches submitted are the slices [docs[k*B : (k+1)*B]]. *)
Lemma submitted_batches_slices w search_endpoint search_key index_name docs
    batch_size :
  1 <= batch_size ->
  importable w "azure.core.credentials" = true ->
  importable w "azure.search.documents" = true ->
  search_client w search_endpoint index_name search_key = Answers tt ->
  submitted_batches w search_endpoint search_key index_name docs batch_size
  = map (fun i => py_slice docs i (i + batch_size))
        (starts_of batch_size (Z.to_nat (ceil_div (len docs) batch_size))).
Proof.
  intros HB H1 H2 Hclient. unfold submitted_batches.
  rewrite upload_documents_run. destruct docs as [|d docs].
  - unfold len. cbn [length]. rewrite ceil_div_zero by lia. reflexivity.
  - cbn [forallb]. rewrite H1, H2, Hclient. cbn [andb].
    rewrite py_range_from_0 by (try apply len_nonneg; lia).
    cbn [fst submitted]. apply submitted_upload_reports.
Qed.

(** ** Failure isolation *)

Lemma upload_reports_starts w docs batch_size n :
  1 <= batch_size ->
  upload_reports w docs batch_size (starts_of batch_size n) 0
  = map (fun k =>
           batch_events (Z.of_nat k + 1) (nth_batch docs batch_size k)
             (search_upload w k (nth_batch docs batch_size k)))
        (seq 0 n).
Proof.
  intros HB. apply list_eq. intros k.
  unfold upload_reports, starts_of, nth_batch.
  rewrite list_lookup_imap, !list_lookup_fmap.
  destruct (seq 0 n !! k) as [j|] eqn:Hk; [|reflexivity].
  apply lookup_seq in Hk as [-> _]. cbn.
  rewrite Z.div_mul by lia.
  replace (Z.of_nat k * batch_size + batch_size)
    with ((Z.of_nat k + 1) * batch_size) by lia.
  reflexivity.
Qed.

(** With the SDK imported, the client constructed and a batch size of at
    least one, [upload_documents] goes through every batch in order: each is
    submitted and followed by the report of the reply to it. *)
Lemma upload_documents_reports w search_endpoint search_key index_name docs
    batch_size :
  1 <= batch_size ->
  importable w "azure.core.credentials" = true ->
  importable w "azure.search.documents" = true ->
  search_client w search_endpoint index_name search_key = Answers tt ->
  docs <> [] ->
  upload_documents w search_endpoint search_key index_name docs batch_size
  = (Print (py "inside upload_documents")
     :: concat
          (map (fun k =>
                  batch_events (Z.of_nat k + 1) (nth_batch docs batch_size k)
                    (search_upload w k (nth_batch docs batch_size k)))
               (seq 0 (Z.to_nat (ceil_div (len docs) batch_size)))),
     Returns tt).
Proof.
  intros HB H1 H2 Hclient Hdocs. rewrite upload_documents_run.
  destruct docs as [|d docs]; [congruence|].
  cbn [forallb]. rewrite H1, H2, Hclient. cbn [andb].
  rewrite py_range_from_0 by (try apply len_nonneg; lia).
  rewrite upload_reports_starts by assumption. reflexivity.
Qed.

(** A batch is submitted only after the SDK has been imported and the client
    constructed, and only for a batch size of at least one. *)
Lemma upload_documents_submits_inv w search_endpoint search_key index_name docs
    batch_size :
  submitted_batches w search_endpoint search_key index_name docs batch_size
  <> [] ->
  1 <= batch_size
  /\ importable w "azure.core.credentials" = true
  /\ importable w "azure.search.documents" = true
  /\ search_client w search_endpoint index_name search_key = Answers tt
  /\ docs <> [].
Proof.
  unfold submitted_batches. rewrite upload_documents_run. intros Hsub.
  destruct docs as [|d docs]; [exfalso; apply Hsub; reflexivity|].
  unfold upload_modules in Hsub. cbn [forallb] in Hsub.
  destruct (importable w "azure.core.credentials");
    [|exfalso; apply Hsub; cbn [andb]; destruct (is_ImportError _); reflexivity].
  destruct (importable w "azure.search.documents");
    [|exfalso; apply Hsub; cbn [andb]; destruct (is_ImportError _); reflexivity].
  cbn [andb] in Hsub.
  destruct (search_client w search_endpoint index_name search_key) as [[]|e];
    [|exfalso; apply Hsub; reflexivity].
  destruct (Z.le_gt_cases 1 batch_size) as [HB|HB];
    [repeat split; [exact HB | discriminate]|].
  exfalso. apply Hsub. unfold py_range.
  destruct (Z.eqb_spec batch_size 0); [reflexivity|].
  destruct (Z.ltb_spec 0 batch_size); [lia|].
  pose proof (len_nonneg (d :: docs)).
  destruct (Z.ltb_spec (len (d :: docs)) 0); [lia|]. reflexivity.
Qed.

(** Whatever the endpoint replies, a run that reaches the loop submits every
    batch and reports each reply. *)
Lemma upload_documents_with_replies w reply search_endpoint search_key
    index_name docs batch_size :
  1 <= batch_size ->
  importable w "azure.core.credentials" = true ->
  importable w "azure.search.documents" = true ->
  search_client w search_endpoint index_name search_key = Answers tt ->
  docs <> [] ->
  upload_documents (with_upload w reply) search_endpoint search_key
    index_name docs batch_size
  = (Print (py "inside upload_documents")
     :: concat
          (map (fun k =>
                  batch_events (Z.of_nat k + 1) (nth_batch docs batch_size k)
                    (reply k (nth_batch docs batch_size k)))
               (seq 0 (Z.to_nat (ceil_div (len docs) batch_size)))),
     Returns tt)
  /\ submitted_batches (with_upload w reply) search_endpoint search_key
       index_name docs batch_size
     = map (nth_batch docs batch_size)
           (seq 0 (Z.to_nat (ceil_div (len docs) batch_size))).
Proof.
  intros HB H1 H2 Hclient Hdocs.
  assert (upload_documents (with_upload w reply) search_endpoint search_key
            index_name docs batch_size
          = (Print (py "inside upload_documents")
             :: concat
                  (map (fun k =>
                          batch_events (Z.of_nat k + 1)
                            (nth_batch docs batch_size k)
                            (reply k (nth_batch docs batch_size k)))
                       (seq 0 (Z.to_nat (ceil_div (len docs) batch_size)))),
             Returns tt)) as Hrun
    by (apply (upload_documents_reports (with_upload w reply));
        assumption).
  split; [exact Hrun|].
  unfold submitted_batches. rewrite Hrun. cbn [fst submitted].
  generalize (seq 0 (Z.to_nat (ceil_div (len docs) batch_size))).
  intros ks. induction ks as [|k ks IH]; [reflexivity|].
  cbn [map concat]. rewrite submitted_app, submitted_batch_events, IH.
  reflexivity.
Qed.

(** C5: in [upload_documents] a failed submission is caught and logged, and
    every batch is still attempted.  Whenever the uploader reaches its loop
    (the SDK imported, the client constructed, a batch size of at least
    one), then whichever batches the endpoint refuses, the call returns
    normally after having submitted every one of the [ceil(N / B)] batches
    [docs[k*B : (k+1)*B]] in order, each followed by the report of the reply
    to that batch alone: the success line, or the error line with the
    batch's number and the text of the exception.  A batch is submitted, and
    so can fail, under these conditions only: as soon as one batch is
    submitted, all of them are.  The batches submitted and the way the call
    ends do not depend on the replies at all; and the same holds of the loop
    from any point on. *)
Theorem upload_failure_isolated w search_endpoint search_key index_name docs
    batch_size :
  (forall reply,
      1 <= batch_size ->
      importable w "azure.core.credentials" = true ->
      importable w "azure.search.documents" = true ->
      search_client w search_endpoint index_name search_key = Answers tt ->
      docs <> [] ->
      upload_documents (with_upload w reply) search_endpoint search_key
        index_name docs batch_size
      = (Print (py "inside upload_documents")
         :: concat
              (map (fun k =>
                      batch_events (Z.of_nat k + 1)
                        (nth_batch docs batch_size k)
                        (reply k (nth_batch docs batch_size k)))
                   (seq 0 (Z.to_nat (ceil_div (len docs) batch_size)))),
         Returns tt)
      /\ submitted_batches (with_upload w reply) search_endpoint search_key
           index_name docs batch_size
         = map (nth_batch docs batch_size)
               (seq 0 (Z.to_nat (ceil_div (len docs) batch_size))))
  /\ (forall reply,
         submitted_batches (with_upload w reply) search_endpoint search_key
           index_name docs batch_size <> [] ->
         (1 <= batch_size
          /\ importable w "azure.core.credentials" = true
          /\ importable w "azure.search.documents" = true
          /\ search_client w search_endpoint index_name search_key = Answers tt
          /\ docs <> [])
         /\ upload_documents (with_upload w reply) search_endpoint search_key
              index_name docs batch_size
            = (Print (py "inside upload_documents")
               :: concat
                    (map (fun k =>
                            batch_events (Z.of_nat k + 1)
                              (nth_batch docs batch_size k)
                              (reply k (nth_batch docs batch_size k)))
                         (seq 0 (Z.to_nat (ceil_div (len docs) batch_size)))),
               Returns tt)
         /\ submitted_batches (with_upload w reply) search_endpoint search_key
              index_name docs batch_size
            = map (nth_batch docs batch_size)
                  (seq 0 (Z.to_nat (ceil_div (len docs) batch_size))))
  /\ (forall reply reply',
         submitted_batches (with_upload w reply) search_endpoint search_key
           index_name docs batch_size
         = submitted_batches (with_upload w reply') search_endpoint search_key
             index_name docs batch_size
         /\ snd (upload_documents (with_upload w reply) search_endpoint
                   search_key index_name docs batch_size)
            = snd (upload_documents (with_upload w reply') search_endpoint
                     search_key index_name docs batch_size))
  /\ (forall starts calls,
         upload_batches w docs batch_size starts calls
         = (concat (upload_reports w docs batch_size starts calls), Returns tt)
         /\ submitted (concat (upload_reports w docs batch_size starts calls))
            = map (fun i => py_slice docs i (i + batch_size)) starts)
  /\ (forall reply reply' starts calls (k : nat),
         (forall batch, reply (calls + k)%nat batch = reply' (calls + k)%nat batch) ->
         upload_reports (with_upload w reply) docs batch_size starts calls !! k
         = upload_reports (with_upload w reply') docs batch_size starts calls !! k).
Proof.
  split; [|split; [|split; [|split]]].
  - intros reply. apply upload_documents_with_replies.
  - intros reply Hsub.
    apply (upload_documents_submits_inv (with_upload w reply)) in Hsub.
    split; [exact Hsub|].
    destruct Hsub as (HB & H1 & H2 & Hclient & Hdocs).
    apply upload_documents_with_replies; assumption.
  - intros reply reply'. unfold submitted_batches.
    rewrite !upload_documents_run.
    destruct docs as [|d docs]; [split; reflexivity|].
    change (importable (with_upload w reply)) with (importable w).
    change (importable (with_upload w reply')) with (importable w).
    destruct (forallb (importable w) _); [|split; reflexivity].
    change (search_client (with_upload w reply)) with (search_client w).
    change (search_client (with_upload w reply')) with (search_client w).
    destruct (search_client w search_endpoint index_name search_key);
      [|split; reflexivity].
    destruct (py_range 0 (len (d :: docs)) batch_size) as [starts|e];
      [|split; reflexivity].
    cbn [fst snd submitted]. rewrite !submitted_upload_reports.
    split; reflexivity.
  - intros starts calls.
    split; [apply upload_batches_run | apply submitted_upload_reports].
  - intros reply reply' starts calls k Hk. unfold upload_reports.
    rewrite !list_lookup_imap. rewrite !with_upload_upload.
    destruct (starts !! k) as [i|]; [|reflexivity].
    cbn [fmap option_fmap option_map]. rewrite Hk. reflexivity.
Qed.

(** Three batches of one document, the second of which is refused: the
    third is submitted all the same. *)
Lemma upload_failure_isolated_witness :
  upload_documents
    (with_upload (example_world full_env everything [] accepts)
       (fun n _ => if (n =? 1)%nat
                   then Fails (Exn OtherException (py "refused"))
                   else Answers (py "ok")))
    [] [] []
    [{| id := py "a"; text := py "x" |}; {| id := py "b"; text := py "y" |};
     {| id := py "c"; text := py "z" |}] 1
  = ([Print (py "inside upload_documents");
      Submit [{| id := py "a"; text := py "x" |}];
      Print (py "Uploaded batch 1 (1 docs) " ++ [8594%N] ++ py " Result: ok");
      Submit [{| id := py "b"; text := py "y" |}];
      LogError (py "Failed to upload batch 2: refused");
      Submit [{| id := py "c"; text := py "z" |}];
      Print (py "Uploaded batch 3 (1 docs) " ++ [8594%N] ++ py " Result: ok")],
     Returns tt).
Proof.
  assert (1 <= 1) as HB by lia.
  assert ([{| id := py "a"; text := py "x" |};
           {| id := py "b"; text := py "y" |};
           {| id := py "c"; text := py "z" |}] <> []) as Hdocs by discriminate.
  destruct (proj1 (upload_failure_isolated
                     (example_world full_env everything [] accepts)
                     [] [] []
                     [{| id := py "a"; text := py "x" |};
                      {| id := py "b"; text := py "y" |};
                      {| id := py "c"; text := py "z" |}] 1)
              (fun n _ => if (n =? 1)%nat
                          then Fails (Exn OtherException (py "refused"))
                          else Answers (py "ok"))
              HB eq_refl eq_refl eq_refl Hdocs) as [Hrun _].
  rewrite Hrun. reflexivity.
Defined.

(** C6, as stated, fails: where the search SDK cannot be imported,
    [upload_documents] logs a warning and returns without submitting any
    batch, although [N = 1] and [B = 1] call for one batch. *)
Lemma upload_documents_partition_counterexample :
  upload_documents (example_world full_env nothing [] accepts) [] [] []
    [{| id := py "a"; text := py "x" |}] 1
  = ([LogWarning
        (py "Azure Search SDK not installed, skipping document upload.")],
     Returns tt)
  /\ submitted_batches (example_world full_env nothing [] accepts) [] [] []
       [{| id := py "a"; text := py "x" |}] 1 = []
  /\ ceil_div (len [{| id := py "a"; text := py "x" |}]) 1 = 1.
Proof. repeat split; reflexivity. Qed.

(** C6 (amended): when the search SDK can be imported and the search client
    is constructed, for every document sequence [docs] of length [N] and
    every batch size [B >= 1], [upload_documents] submits exactly
    [ceil(N / B)] batches, batch [k] being the slice [docs[k*B : (k+1)*B]],
    so that the batches concatenated in order give back [docs]; and when
    [docs] is empty nothing is submitted, whatever the world. *)
Theorem upload_documents_partition :
  (forall w search_endpoint search_key index_name docs batch_size,
      1 <= batch_size ->
      importable w "azure.core.credentials" = true ->
      importable w "azure.search.documents" = true ->
      search_client w search_endpoint index_name search_key = Answers tt ->
      len (submitted_batches w search_endpoint search_key index_name docs
             batch_size)
      = ceil_div (len docs) batch_size
      /\ (forall k : nat,
             Z.of_nat k < ceil_div (len docs) batch_size ->
             submitted_batches w search_endpoint search_key index_name docs
               batch_size !! k
             = Some (py_slice docs (Z.of_nat k * batch_size)
                       ((Z.of_nat k + 1) * batch_size)))
      /\ concat (submitted_batches w search_endpoint search_key index_name
                   docs batch_size)
         = docs)
  /\ (forall w search_endpoint search_key index_name batch_size,
         upload_documents w search_endpoint search_key index_name [] batch_size
         = ([Print (py "No documents to upload.")], Returns tt)
         /\ submitted_batches w search_endpoint search_key index_name []
              batch_size = []).
Proof.
  split; [|intros; split; reflexivity].
  intros w search_endpoint search_key index_name docs batch_size HB H1 H2 Hc.
  rewrite (submitted_batches_slices _ _ _ _ _ _ HB H1 H2 Hc).
  pose proof (len_nonneg docs) as HN.
  pose proof (ceil_div_nonneg (len docs) batch_size ltac:(lia) HN) as Hcount.
  pose proof (ceil_div_bounds (len docs) batch_size ltac:(lia)) as [_ Hhi].
  split; [|split].
  - rewrite len_map. unfold len at 1. rewrite starts_of_length. lia.
  - intros k Hk. unfold starts_of. rewrite map_map.
    rewrite list_lookup_fmap, lookup_seq_lt by lia. cbn.
    do 2 f_equal. lia.
  - rewrite starts_slices by assumption. apply pieces_concat.
    unfold len in *. nia.
Qed.

Lemma upload_documents_partition_witness :
  len (submitted_batches (example_world full_env everything [] accepts)
         [] [] []
         [{| id := py "a"; text := py "x" |}; {| id := py "b"; text := py "y" |};
          {| id := py "c"; text := py "z" |}] 2)
  = ceil_div
      (len [{| id := py "a"; text := py "x" |}; {| id := py "b"; text := py "y" |};
            {| id := py "c"; text := py "z" |}]) 2
  /\ concat (submitted_batches (example_world full_env everything [] accepts)
               [] [] []
               [{| id := py "a"; text := py "x" |};
                {| id := py "b"; text := py "y" |};
                {| id := py "c"; text := py "z" |}] 2)
     = [{| id := py "a"; text := py "x" |}; {| id := py "b"; text := py "y" |};
        {| id := py "c"; text := py "z" |}].
Proof.
  assert (1 <= 2) as HB by lia.
  destruct (proj1 upload_documents_partition
              (example_world full_env everything [] accepts) [] [] []
              [{| id := py "a"; text := py "x" |};
               {| id := py "b"; text := py "y" |};
               {| id := py "c"; text := py "z" |}] 2
              HB eq_refl eq_refl eq_refl) as (Hcount & _ & Hconcat).
  split; [exact Hcount | exact Hconcat].
Defined.

(** ** The orchestrator *)

(** An unset required variable makes the concatenation inside the first
    [print] of the [try] block raise; the handler at the end of [main] turns
    that into the internal-error report. *)
Lemma main_unset w v :
  In v required_vars -> getenv w v = None ->
  main w
  = ([Print (py "Trigger received, starting blob processing pipeline.");
      LogError (py "Pipeline error: " ++ exn_str concat_None)],
     Returns (py "Internal Server Error: " ++ exn_str concat_None)).
Proof.
  intros Hin Hnone. unfold required_vars in Hin. cbn [In] in Hin.
  unfold main, main_body.
  destruct Hin as [<-|[<-|[<-|[<-|[<-|[]]]]]]; rewrite Hnone;
    repeat match goal with
           | |- context [getenv w ?x] => destruct (getenv w x)
           end;
    reflexivity.
Qed.

(** C2 fails on the code.  With [SEARCH_KEY] unset the run ends with the
    internal-error report caused by the debugging [print], not with the
    configuration-error message; that message is only reached when every
    variable is set and one of them is empty. *)
Theorem main_unset_variable :
  main (example_world (delete "SEARCH_KEY"%string full_env) everything []
          accepts)
  = ([Print (py "Trigger received, starting blob processing pipeline.");
      LogError (py "Pipeline error: can only concatenate str (not "
                ++ [34%N] ++ py "NoneType" ++ [34%N] ++ py ") to str")],
     Returns (py "Internal Server Error: can only concatenate str (not "
              ++ [34%N] ++ py "NoneType" ++ [34%N] ++ py ") to str"))
  /\ main (example_world (<["SEARCH_KEY"%string := []]> full_env) everything []
             accepts)
     = ([Print (py "Trigger received, starting blob processing pipeline.");
         Print (py "env variables: conndocshttps://searchidx");
         LogWarning (py "Missing environment variables: ['SEARCH_KEY']")],
        Returns (py "Missing required environment variables: ['SEARCH_KEY']")).
Proof.
  split.
  - apply (main_unset _ "SEARCH_KEY"%string); [cbn; tauto | reflexivity].
  - vm_compute. reflexivity.
Qed.

(** * Further properties of the chunker *)

(** ** Tokens are words, and joining then splitting gives them back *)

Lemma split_go_words cur s :
  Forall (fun c => is_space c = false) cur ->
  Forall is_word (split_go cur s).
Proof.
  revert cur. induction s as [|c r IH]; intros cur Hcur.
  - cbn [split_go]. destruct cur as [|x cur]; [constructor|].
    constructor; [|constructor]. split.
    + intros H. apply (f_equal length) in H. rewrite length_rev in H.
      simpl in H. lia.
    + apply Forall_rev, Hcur.
  - cbn [split_go]. destruct (is_space c) eqn:Hc.
    + destruct cur as [|x cur]; [apply IH; constructor|].
      constructor; [|apply IH; constructor]. split.
      * intros H. apply (f_equal length) in H. rewrite length_rev in H.
        simpl in H. lia.
      * apply Forall_rev, Hcur.
    + apply IH. constructor; assumption.
Qed.

Lemma split_words s : Forall is_word (split s).
Proof. apply split_go_words. constructor. Qed.

Lemma split_go_word_prefix t :
  Forall (fun c => is_space c = false) t ->
  forall cur s, split_go cur (t ++ s) = split_go (rev t ++ cur) s.
Proof.
  induction 1 as [|c t Hc _ IH]; intros cur s; [reflexivity|].
  cbn [app split_go]. rewrite Hc, IH. cbn [rev]. rewrite <- app_assoc.
  reflexivity.
Qed.

Lemma split_go_space cur s :
  cur <> [] -> split_go cur (32%N :: s) = rev cur :: split_go [] s.
Proof. intros H. cbn. destruct cur; [congruence | reflexivity]. Qed.

Lemma split_go_end cur : cur <> [] -> split_go cur [] = [rev cur].
Proof. intros H. cbn. destruct cur; [congruence | reflexivity]. Qed.

(** [" ".join(words).split()] gives the words back. *)
Lemma split_join words :
  Forall is_word words -> split (join (py " ") words) = words.
Proof.
  unfold split. induction 1 as [|t r [Ht Hw] Hr IH]; [reflexivity|].
  assert (rev t ++ [] <> []) as Hrev.
  { rewrite app_nil_r. intros H. apply (f_equal length) in H.
    rewrite length_rev in H. destruct t; [congruence | simpl in H; lia]. }
  destruct r as [|u r].
  - cbn [join]. rewrite <- (app_nil_r t) at 1.
    rewrite split_go_word_prefix by assumption.
    rewrite split_go_end by assumption.
    rewrite app_nil_r, rev_involutive. reflexivity.
  - change (join (py " ") (t :: u :: r))
      with (t ++ 32%N :: join (py " ") (u :: r)).
    rewrite split_go_word_prefix by assumption.
    rewrite split_go_space by assumption.
    rewrite app_nil_r, rev_involutive, IH. reflexivity.
Qed.

Lemma py_slice_sublist {A} (P : A -> Prop) (l : list A) i j :
  Forall P l -> Forall P (py_slice l i j).
Proof. intros H. unfold py_slice. apply Forall_take, Forall_drop, H. Qed.

Lemma join_app sep a b :
  a <> [] -> b <> [] -> join sep (a ++ b) = join sep a ++ sep ++ join sep b.
Proof.
  intros Ha Hb. induction a as [|x a IH]; [congruence|].
  destruct a as [|y a].
  - cbn [app join]. destruct b; [congruence | reflexivity].
  - change (join sep ((x :: y :: a) ++ b))
      with (x ++ sep ++ join sep ((y :: a) ++ b)).
    rewrite IH by discriminate.
    change (join sep (x :: y :: a)) with (x ++ sep ++ join sep (y :: a)).
    rewrite <- !app_assoc. reflexivity.
Qed.

(** Joining the joins of non-empty pieces joins all their elements. *)
Lemma join_pieces sep pieces :
  Forall (fun p => p <> []) pieces ->
  join sep (map (join sep) pieces) = join sep (concat pieces).
Proof.
  induction 1 as [|p r Hp Hr IH]; [reflexivity|].
  destruct r as [|q r].
  - cbn [map join concat]. rewrite app_nil_r. reflexivity.
  - change (join sep (map (join sep) (p :: q :: r)))
      with (join sep p ++ sep ++ join sep (map (join sep) (q :: r))).
    rewrite IH. cbn [concat].
    rewrite (join_app sep p (q ++ concat r)); [reflexivity | assumption |].
    apply Forall_cons in Hr as [Hq _]. destruct q; [congruence | discriminate].
Qed.

(** ** Whitespace-only texts *)

Lemma split_go_nil cur s : split_go cur s = [] <-> cur = [] /\ blank s.
Proof.
  unfold blank. revert cur. induction s as [|c r IH]; intros cur.
  - cbn [split_go]. destruct cur; split.
    + intros _. split; [reflexivity | constructor].
    + reflexivity.
    + discriminate.
    + intros [H _]. discriminate.
  - cbn [split_go]. destruct (is_space c) eqn:Hc.
    + destruct cur as [|x cur].
      * rewrite IH. split; intros [H1 H2]; split; try reflexivity.
        -- constructor; assumption.
        -- apply Forall_cons in H2 as [_ H2]. exact H2.
      * split; [discriminate | intros [H _]; discriminate].
    + rewrite IH. split; [intros [H _]; discriminate|].
      intros [_ H]. apply Forall_cons in H as [H _]. congruence.
Qed.

Lemma split_nil s : split s = [] <-> blank s.
Proof. unfold split. rewrite split_go_nil. tauto. Qed.

Lemma lstrip_nil s : lstrip s = [] <-> blank s.
Proof.
  unfold blank. induction s as [|c r IH]; cbn [lstrip].
  - split; [constructor | reflexivity].
  - destruct (is_space c) eqn:Hc.
    + rewrite IH. split; intros H.
      * constructor; assumption.
      * apply Forall_cons in H as [_ H]. exact H.
    + split; [discriminate|]. intros H.
      apply Forall_cons in H as [H _]. congruence.
Qed.

Lemma lstrip_blank s : blank (lstrip s) <-> blank s.
Proof.
  split; intros H.
  - apply lstrip_nil. induction s as [|c r IH]; [reflexivity|].
    cbn [lstrip] in *. destruct (is_space c) eqn:Hc; [apply IH, H|].
    unfold blank in H. apply Forall_cons in H as [H _]. congruence.
  - apply lstrip_nil in H. rewrite H. constructor.
Qed.

Lemma strip_nil s : strip s = [] <-> blank s.
Proof.
  unfold strip. split.
  - intros H. apply (f_equal (@rev codepoint)) in H.
    rewrite rev_involutive in H. cbn [rev] in H.
    apply lstrip_nil in H. unfold blank in H. apply Forall_rev in H.
    rewrite rev_involutive in H. apply lstrip_blank, H.
  - intros H. apply lstrip_nil in H. rewrite H. reflexivity.
Qed.

(** ** Windows: coverage, order and contents *)

Lemma starts_of_lookup step n k :
  (k < n)%nat -> starts_of step n !! k = Some (Z.of_nat k * step).
Proof.
  intros Hk. unfold starts_of.
  rewrite list_lookup_fmap, lookup_seq_lt by assumption. reflexivity.
Qed.

(** The windows are the returned chunks, in order. *)
Lemma chunk_text_lookup text chunk_size overlap (k : nat) :
  overlap < chunk_size ->
  (k < window_count text chunk_size overlap)%nat ->
  exists chunks,
    chunk_text text chunk_size overlap = Returns chunks
    /\ length chunks = window_count text chunk_size overlap
    /\ chunks !! k
       = Some (join (py " ")
                 (window_tokens (split text) chunk_size
                    (Z.of_nat k * (chunk_size - overlap)))).
Proof.
  intros Hlt Hk. eexists. split; [apply chunk_text_returns, Hlt|]. split.
  - rewrite length_map, starts_of_length. reflexivity.
  - change (map (window (split text) chunk_size)) with
      (fmap (M := list) (window (split text) chunk_size)).
    rewrite list_lookup_fmap, starts_of_lookup by assumption. reflexivity.
Qed.

(** Window [k] exists exactly when its start offset is below the token count. *)
Lemma window_count_spec text chunk_size overlap (k : nat) :
  overlap < chunk_size ->
  (k < window_count text chunk_size overlap)%nat
  <-> Z.of_nat k * (chunk_size - overlap) < token_count text.
Proof.
  intros Hlt. unfold window_count.
  pose proof (len_nonneg (split text)) as HT. fold (token_count text) in HT.
  pose proof (ceil_div_bounds (token_count text) (chunk_size - overlap)
                ltac:(lia)) as [Hlo Hhi].
  pose proof (ceil_div_nonneg (token_count text) (chunk_size - overlap)
                ltac:(lia) HT) as Hc.
  split; intros H; [nia|].
  apply Nat2Z.inj_lt. rewrite Z2Nat.id by lia. nia.
Qed.

Lemma py_slice_lookup {A} (l : list A) start stop j :
  0 <= start -> start <= j -> j < stop -> stop <= len l ->
  py_slice l start stop !! Z.to_nat (j - start) = l !! Z.to_nat j.
Proof.
  intros H0 H1 H2 H3. rewrite py_slice_inside by lia.
  rewrite lookup_take_lt by lia. rewrite lookup_drop. f_equal. lia.
Qed.

(** X1: with [0 <= overlap < chunk_size] no token is lost.  [chunk_text]
    returns; every token position lies in the window of some returned chunk,
    where it is found at its offset from the window's start; and the last
    window ends at the last token. *)
Theorem chunk_text_covers text chunk_size overlap :
  0 <= overlap -> overlap < chunk_size ->
  exists chunks,
    chunk_text text chunk_size overlap = Returns chunks
    /\ (forall j : nat,
           (j < length (split text))%nat ->
           exists k : nat,
             chunks !! k
             = Some (join (py " ")
                       (window_tokens (split text) chunk_size
                          (Z.of_nat k * (chunk_size - overlap))))
             /\ Z.of_nat k * (chunk_size - overlap) <= Z.of_nat j
             /\ window_tokens (split text) chunk_size
                  (Z.of_nat k * (chunk_size - overlap))
                !! Z.to_nat (Z.of_nat j - Z.of_nat k * (chunk_size - overlap))
                = split text !! j)
    /\ (chunks <> [] ->
        Z.min ((len chunks - 1) * (chunk_size - overlap) + chunk_size)
          (token_count text)
        = token_count text).
Proof.
  intros Hov Hlt. eexists. split; [apply chunk_text_returns, Hlt|].
  set (step := chunk_size - overlap).
  pose proof (len_nonneg (split text)) as HT. fold (token_count text) in HT.
  pose proof (ceil_div_bounds (token_count text) step ltac:(lia)) as [Hlo Hhi].
  pose proof (ceil_div_nonneg (token_count text) step ltac:(lia) HT) as Hc.
  split.
  - intros j Hj.
    assert (0 <= Z.of_nat j < token_count text) as Hjz
      by (unfold token_count, len; lia).
    set (q := Z.of_nat j / step).
    pose proof (Z.mul_div_le (Z.of_nat j) step ltac:(lia)) as Hq1.
    pose proof (Z.mul_succ_div_gt (Z.of_nat j) step ltac:(lia)) as Hq2.
    fold q in Hq1, Hq2.
    assert (0 <= q) as Hq0 by (apply Z.div_pos; lia).
    assert (Z.of_nat (Z.to_nat q) * step <= Z.of_nat j
            /\ Z.of_nat j < Z.of_nat (Z.to_nat q) * step + step) as [Hlo' Hhi']
      by (rewrite Z2Nat.id by lia; lia).
    exists (Z.to_nat q).
    assert (Z.to_nat q < window_count text chunk_size overlap)%nat as Hk
      by (apply window_count_spec; [exact Hlt | fold step; lia]).
    split; [|split; [exact Hlo'|]].
    + change (map (window (split text) chunk_size)) with
        (fmap (M := list) (window (split text) chunk_size)).
      rewrite list_lookup_fmap, starts_of_lookup by exact Hk. reflexivity.
    + unfold window_tokens. fold (token_count text).
      rewrite py_slice_lookup; [rewrite Nat2Z.id; reflexivity | nia | lia
                               | lia | unfold token_count; lia].
  - intros Hne. rewrite len_map. unfold len. rewrite starts_of_length.
    unfold window_count. fold step.
    destruct (Z.to_nat (ceil_div (token_count text) step)) eqn:Hn;
      [exfalso; apply Hne; unfold window_count; fold step; rewrite Hn;
       reflexivity|].
    rewrite <- Hn, Z2Nat.id by lia. apply Z.min_r. nia.
Qed.

Lemma chunk_text_covers_witness :
  0 <= 1 /\ 1 < 3
  /\ exists chunks,
       chunk_text (py "a b c d e") 3 1 = Returns chunks
       /\ (forall j : nat,
              (j < length (split (py "a b c d e")))%nat ->
              exists k : nat,
                chunks !! k
                = Some (join (py " ")
                          (window_tokens (split (py "a b c d e")) 3
                             (Z.of_nat k * (3 - 1))))
                /\ Z.of_nat k * (3 - 1) <= Z.of_nat j
                /\ window_tokens (split (py "a b c d e")) 3
                     (Z.of_nat k * (3 - 1))
                   !! Z.to_nat (Z.of_nat j - Z.of_nat k * (3 - 1))
                   = split (py "a b c d e") !! j)
       /\ (chunks <> [] ->
           Z.min ((len chunks - 1) * (3 - 1) + 3)
             (token_count (py "a b c d e"))
           = token_count (py "a b c d e")).
Proof.
  split; [lia|]. split; [lia|].
  apply (chunk_text_covers (py "a b c d e") 3 1); lia.
Defined.

(** X2: splitting a returned chunk on whitespace gives back exactly the
    tokens of its window: chunk [k] is the text of the tokens
    [tokens[k*step : min(k*step + chunk_size, T)]] and of nothing else. *)
Theorem chunk_text_retokenize text chunk_size overlap :
  overlap < chunk_size ->
  exists chunks,
    chunk_text text chunk_size overlap = Returns chunks
    /\ map split chunks
       = map (window_tokens (split text) chunk_size)
             (starts_of (chunk_size - overlap) (length chunks))
    /\ Forall (fun chunk => Forall is_word (split chunk)) chunks.
Proof.
  intros Hlt. eexists. split; [apply chunk_text_returns, Hlt|].
  rewrite length_map, starts_of_length, map_map. split.
  - apply map_ext. intros start. unfold window.
    apply split_join, py_slice_sublist, split_words.
  - apply List.Forall_forall. intros chunk _. apply split_words.
Qed.

Lemma chunk_text_retokenize_witness :
  1 < 2
  /\ exists chunks,
       chunk_text (py "to be or not") 2 1 = Returns chunks
       /\ map split chunks
          = map (window_tokens (split (py "to be or not")) 2)
                (starts_of (2 - 1) (length chunks))
       /\ Forall (fun chunk => Forall is_word (split chunk)) chunks.
Proof.
  split; [lia|]. apply (chunk_text_retokenize (py "to be or not") 2 1). lia.
Defined.

Lemma py_slice_min {A} (l : list A) i B :
  0 <= i -> 0 <= B ->
  py_slice l i (Z.min (i + B) (len l)) = py_slice l i (i + B).
Proof.
  intros Hi HB. pose proof (len_nonneg l) as Hl.
  unfold py_slice, clamp_index.
  destruct (Z.ltb_spec (Z.min (i + B) (len l)) 0); [lia|].
  destruct (Z.ltb_spec (i + B) 0); [lia|].
  replace (Z.min (Z.min (i + B) (len l)) (len l))
    with (Z.min (i + B) (len l)) by lia.
  reflexivity.
Qed.

Lemma window_pieces tokens (B : Z) (n : nat) :
  1 <= B ->
  map (window tokens B) (starts_of B n)
  = map (join (py " "))
        (map (fun k => take (Z.to_nat B) (drop (k * Z.to_nat B) tokens))
             (seq 0 n)).
Proof.
  intros HB. rewrite <- (starts_slices tokens B n HB), map_map.
  apply map_ext_in. intros i Hi. apply starts_of_In in Hi as (k & _ & ->).
  unfold window. rewrite py_slice_min by nia. reflexivity.
Qed.

Lemma pieces_nonempty {A} (l : list A) (b n : nat) :
  (0 < b)%nat -> (0 < n -> (n - 1) * b < length l)%nat ->
  Forall (fun p => p <> [])
    (map (fun k => take b (drop (k * b) l)) (seq 0 n)).
Proof.
  intros Hb Hn. apply List.Forall_forall. intros p Hp.
  apply in_map_iff in Hp as (k & <- & Hk). apply in_seq in Hk.
  intros Hnil. apply (f_equal length) in Hnil.
  rewrite length_take, length_drop in Hnil. cbn [length] in Hnil.
  assert (k * b <= (n - 1) * b)%nat by (apply Nat.mul_le_mono_r; lia).
  specialize (Hn ltac:(lia)). lia.
Qed.

(** X3: without overlap the chunks partition the text.  For
    [chunk_size >= 1] and [overlap = 0], joining the chunks with single
    spaces gives the whitespace-normalised text, and the tokens of the chunks,
    taken in order, are exactly the tokens of the text, each once. *)
Theorem chunk_text_partitions text chunk_size :
  1 <= chunk_size ->
  exists chunks,
    chunk_text text chunk_size 0 = Returns chunks
    /\ join (py " ") chunks = join (py " ") (split text)
    /\ concat (map split chunks) = split text.
Proof.
  intros Hsize. eexists. split; [apply chunk_text_returns; lia|].
  rewrite Z.sub_0_r, window_pieces by assumption.
  set (b := Z.to_nat chunk_size).
  set (n := window_count text chunk_size 0).
  pose proof (len_nonneg (split text)) as HT. fold (token_count text) in HT.
  pose proof (ceil_div_bounds (token_count text) chunk_size ltac:(lia))
    as [Hlo Hhi].
  pose proof (ceil_div_nonneg (token_count text) chunk_size ltac:(lia) HT) as Hc.
  assert (Z.of_nat n = ceil_div (token_count text) chunk_size) as Hn
    by (subst n; unfold window_count; rewrite Z.sub_0_r, Z2Nat.id; lia).
  assert (Z.of_nat b = chunk_size) as Hb by (subst b; lia).
  assert (length (split text) <= n * b)%nat as Hall
    by (unfold token_count, len in *; nia).
  assert (Forall (fun p => p <> [])
            (map (fun k => take b (drop (k * b) (split text))) (seq 0 n)))
    as Hpieces.
  { apply pieces_nonempty; [lia|]. intros Hpos.
    unfold token_count, len in *. nia. }
  split.
  - rewrite join_pieces by exact Hpieces. rewrite pieces_concat by exact Hall.
    reflexivity.
  - rewrite !map_map.
    transitivity
      (concat (map (fun k => take b (drop (k * b) (split text))) (seq 0 n)));
      [|apply pieces_concat, Hall].
    f_equal. apply map_ext. intros k.
    apply split_join, Forall_take, Forall_drop, split_words.
Qed.

Lemma chunk_text_partitions_witness :
  1 <= 2
  /\ exists chunks,
       chunk_text (py " a  b c ") 2 0 = Returns chunks
       /\ join (py " ") chunks = join (py " ") (split (py " a  b c "))
       /\ concat (map split chunks) = split (py " a  b c ").
Proof.
  split; [lia|]. apply (chunk_text_partitions (py " a  b c ") 2). lia.
Defined.

(** X4: the orchestrator's skip test and the chunker agree.  A text is
    empty after [strip()] exactly when it has no token, and for
    [overlap < chunk_size] exactly when [chunk_text] returns no chunk; a text
    that passes the test yields at least one chunk. *)
Theorem blank_text_no_chunks text :
  (strip text = [] <-> split text = [])
  /\ (forall chunk_size overlap,
         overlap < chunk_size ->
         (chunk_text text chunk_size overlap = Returns [] <-> strip text = []))
  /\ (forall chunk_size overlap,
         overlap < chunk_size -> strip text <> [] ->
         exists chunk chunks,
           chunk_text text chunk_size overlap = Returns (chunk :: chunks)).
Proof.
  assert (strip text = [] <-> split text = []) as Hagree
    by (rewrite strip_nil, split_nil; reflexivity).
  assert (forall chunk_size overlap,
             overlap < chunk_size ->
             (window_count text chunk_size overlap = 0%nat
              <-> split text = [])) as Hcount.
  { intros chunk_size overlap Hlt.
    pose proof (window_count_spec text chunk_size overlap 0 Hlt) as H0.
    unfold token_count, len in H0. cbn [Z.of_nat Z.mul] in H0.
    destruct (split text) as [|t ts]; cbn [length] in H0; split; intros H;
      try reflexivity; try discriminate; lia. }
  split; [exact Hagree|]. split.
  - intros chunk_size overlap Hlt. rewrite chunk_text_returns by assumption.
    rewrite Hagree, <- (Hcount chunk_size overlap Hlt). split.
    + intros H. injection H as H. apply (f_equal length) in H.
      rewrite length_map, starts_of_length in H. exact H.
    + intros ->. reflexivity.
  - intros chunk_size overlap Hlt Hne.
    rewrite chunk_text_returns by assumption.
    destruct (window_count text chunk_size overlap) eqn:Hn.
    + exfalso. apply Hne, Hagree, (Hcount chunk_size overlap Hlt), Hn.
    + rewrite starts_of_S. cbn [map]. do 2 eexists. reflexivity.
Qed.

Lemma blank_text_no_chunks_witness :
  chunk_text (py "   ") 800 100 = Returns []
  /\ exists chunk chunks, chunk_text (py " x ") 800 100 = Returns (chunk :: chunks).
Proof.
  split.
  - apply (proj1 (proj2 (blank_text_no_chunks (py "   "))) 800 100);
      [lia | reflexivity].
  - apply (proj2 (proj2 (blank_text_no_chunks (py " x "))) 800 100);
      [lia | discriminate].
Defined.

(** * Further properties of the pipeline *)

(** ** Rules for computations *)

Lemma bind_Returns {A B} t a (k : A -> M B) :
  bind (t, Returns a) k = (t ++ fst (k a), snd (k a)).
Proof. cbn [bind]. destruct (k a). reflexivity. Qed.

Lemma fst_bind {A B} (m : M A) (k : A -> M B) :
  fst (bind m k)
  = fst m ++ match snd m with
             | Returns a => fst (k a)
             | _ => []
             end.
Proof.
  destruct m as [t [a|e|]]; cbn [fst snd].
  - rewrite bind_Returns. reflexivity.
  - cbn. rewrite app_nil_r. reflexivity.
  - cbn. rewrite app_nil_r. reflexivity.
Qed.

Lemma snd_bind {A B} (m : M A) (k : A -> M B) :
  snd (bind m k)
  = match snd m with
    | Returns a => snd (k a)
    | Raises e => Raises e
    | Diverges => Diverges
    end.
Proof.
  destruct m as [t [a|e|]]; cbn [snd]; [rewrite bind_Returns|..]; reflexivity.
Qed.

Lemma fst_try_except {A} (body : M A) caught handler :
  fst (try_except body caught handler)
  = fst body ++ match snd body with
                | Raises e => if caught e then fst (handler e) else []
                | _ => []
                end.
Proof.
  destruct body as [t [a|e|]]; cbn [fst snd try_except];
    rewrite ?app_nil_r; try reflexivity.
  destruct (caught e); [destruct (handler e)|]; cbn [fst];
    rewrite ?app_nil_r; reflexivity.
Qed.

Lemma snd_try_except {A} (body : M A) caught handler :
  snd (try_except body caught handler)
  = match snd body with
    | Raises e => if caught e then snd (handler e) else Raises e
    | other => other
    end.
Proof.
  destruct body as [t [a|e|]]; cbn [snd try_except]; try reflexivity.
  destruct (caught e); [destruct (handler e)|]; reflexivity.
Qed.

Lemma halts_bind {A B} (m : M A) (k : A -> M B) :
  halts m -> (forall a, halts (k a)) -> halts (bind m k).
Proof.
  unfold halts. rewrite snd_bind. intros Hm Hk.
  destruct (snd m); [apply Hk | discriminate | contradiction].
Qed.

Lemma halts_try_except {A} (body : M A) caught handler :
  halts body -> (forall e, halts (handler e)) ->
  halts (try_except body caught handler).
Proof.
  unfold halts. rewrite snd_try_except. intros Hb Hh.
  destruct (snd body); [discriminate | | contradiction].
  destruct (caught e); [apply Hh | discriminate].
Qed.

Lemma halts_ret {A} (a : A) : halts (ret a).
Proof. discriminate. Qed.

Lemma halts_emit ev : halts (emit ev).
Proof. discriminate. Qed.

Lemma halts_raise {A} e : halts (@raise A e).
Proof. discriminate. Qed.

Lemma halts_call {A} (a : answer A) : halts (call a).
Proof. destruct a; discriminate. Qed.

Lemma halts_returns {A} (m : M A) :
  (exists t a, m = (t, Returns a)) -> halts m.
Proof. intros (t & a & ->). discriminate. Qed.

Lemma ensures_bind {A B} (m : M A) (k : A -> M B) Q R P :
  ensures m Q P -> (forall a, Q a -> ensures (k a) R P) ->
  ensures (bind m k) R P.
Proof.
  unfold ensures. rewrite fst_bind, snd_bind. intros [Ht Hq] Hk.
  destruct (snd m) as [a|e|].
  - destruct (Hk a (Hq a eq_refl)) as [Ht' Hr].
    split; [apply Forall_app; split; assumption | exact Hr].
  - split; [rewrite app_nil_r; exact Ht | discriminate].
  - split; [rewrite app_nil_r; exact Ht | discriminate].
Qed.

Lemma ensures_try_except {A} (body : M A) caught handler Q P :
  ensures body Q P -> (forall e, ensures (handler e) Q P) ->
  ensures (try_except body caught handler) Q P.
Proof.
  unfold ensures. rewrite fst_try_except, snd_try_except. intros [Ht Hq] Hh.
  destruct (snd body) as [a|e|].
  - split; [rewrite app_nil_r; exact Ht | exact Hq].
  - destruct (caught e).
    + destruct (Hh e) as [Ht' Hq'].
      split; [apply Forall_app; split; assumption | exact Hq'].
    + split; [rewrite app_nil_r; exact Ht | discriminate].
  - split; [rewrite app_nil_r; exact Ht | discriminate].
Qed.

Lemma ensures_ret {A} (a : A) (Q : A -> Prop) P : Q a -> ensures (ret a) Q P.
Proof.
  intros H. split; [constructor|]. cbn. intros b Hb. injection Hb as <-.
  exact H.
Qed.

Lemma ensures_emit ev (Q : unit -> Prop) (P : event -> Prop) :
  P ev -> Q tt -> ensures (emit ev) Q P.
Proof.
  intros Hev Hq. split; [repeat constructor; exact Hev|].
  cbn. intros [] _. exact Hq.
Qed.

Lemma ensures_raise {A} e (Q : A -> Prop) P : ensures (raise e) Q P.
Proof. split; [constructor | discriminate]. Qed.

Lemma ensures_call {A} (a : answer A) (Q : A -> Prop) P :
  (forall x, a = Answers x -> Q x) -> ensures (call a) Q P.
Proof.
  intros H. destruct a as [x|e]; [apply ensures_ret, H; reflexivity|].
  apply ensures_raise.
Qed.

Lemma ensures_weaken {A} (m : M A) (Q Q' : A -> Prop) P :
  ensures m Q P -> (forall a, Q a -> Q' a) -> ensures m Q' P.
Proof. intros [Ht Hq] H. split; [exact Ht | intros a Ha; apply H, Hq, Ha]. Qed.

Lemma agree_refl {A} (m : M A) : agree m m.
Proof. split; reflexivity. Qed.

Lemma agree_bind {A B} (m1 m2 : M A) (k1 k2 : A -> M B) :
  agree m1 m2 -> (forall a, agree (k1 a) (k2 a)) ->
  agree (bind m1 k1) (bind m2 k2).
Proof.
  unfold agree. rewrite !fst_bind, !snd_bind, !submitted_app.
  intros [Hs Ht] Hk. rewrite Hs, Ht.
  destruct (snd m2) as [a|e|]; [|split; reflexivity..].
  destruct (Hk a) as [Hs' Ht']. rewrite Hs', Ht'. split; reflexivity.
Qed.

Lemma agree_try_except {A} (b1 b2 : M A) caught h1 h2 :
  agree b1 b2 -> (forall e, agree (h1 e) (h2 e)) ->
  agree (try_except b1 caught h1) (try_except b2 caught h2).
Proof.
  unfold agree. rewrite !fst_try_except, !snd_try_except, !submitted_app.
  intros [Hs Ht] Hh. rewrite Hs, Ht.
  destruct (snd b2) as [a|e|]; [split; reflexivity | | split; reflexivity].
  destruct (caught e); [|split; reflexivity].
  destruct (Hh e) as [Hs' Ht']. rewrite Hs', Ht'. split; reflexivity.
Qed.

Lemma bind_ext {A B} (m : M A) (k1 k2 : A -> M B) :
  (forall a, k1 a = k2 a) -> bind m k1 = bind m k2.
Proof. intros H. destruct m as [t [a|e|]]; cbn [bind]; rewrite ?H; reflexivity. Qed.

(** ** Every stage ends *)

Lemma halts_guarded_import w ms warning : halts (guarded_import w ms warning).
Proof.
  rewrite guarded_import_run.
  destruct (forallb (importable w) ms); [discriminate|].
  destruct (is_ImportError _); discriminate.
Qed.

Ltac halts_step :=
  first
    [ apply halts_ret | apply halts_emit | apply halts_call | apply halts_raise
    | apply halts_guarded_import
    | apply halts_bind; [|intros _]
    | apply halts_try_except; [|intros ?] ].

Lemma halts_download_each w local_folder blobs :
  halts (download_each w local_folder blobs).
Proof.
  induction blobs as [|name rest IH]; cbn [download_each];
    repeat halts_step. exact IH.
Qed.

Lemma halts_download_blobs w connection_string container_name local_folder :
  halts (download_blobs w connection_string container_name local_folder).
Proof.
  unfold download_blobs. apply halts_bind; [apply halts_guarded_import|].
  intros [|]; [|apply halts_ret].
  apply halts_bind; [apply halts_emit|]. intros _.
  apply halts_bind; [apply halts_call|]. intros _.
  apply halts_bind; [apply halts_call|]. intros blobs.
  apply halts_bind; [apply halts_download_each|]. intros _.
  repeat halts_step.
Qed.

Lemma halts_extract_text w path : halts (extract_text w path).
Proof.
  destruct (extract_text_outcome w path)
    as [(trace & s & H)|(suffix & m & _ & _ & _ & H)];
    unfold halts; rewrite H; discriminate.
Qed.

Lemma halts_file_docs w folder root fname : halts (file_docs w folder root fname).
Proof.
  unfold file_docs. apply halts_bind; [apply halts_call|]. intros rel_path.
  apply halts_bind; [apply halts_extract_text|]. intros text.
  destruct (strip text); [apply halts_ret|].
  apply halts_bind; [|intros chunks; apply halts_ret].
  unfold halts, lift. cbn [snd]. rewrite chunk_text_returns by lia.
  discriminate.
Qed.

Lemma halts_files_docs w folder root files :
  halts (files_docs w folder root files).
Proof.
  induction files as [|fname rest IH]; cbn [files_docs]; [apply halts_ret|].
  apply halts_bind; [apply halts_file_docs|]. intros docs.
  apply halts_bind; [exact IH|]. intros more. apply halts_ret.
Qed.

Lemma halts_walk_docs w folder dirs : halts (walk_docs w folder dirs).
Proof.
  induction dirs as [|[root files] rest IH]; cbn [walk_docs];
    [apply halts_ret|].
  apply halts_bind; [apply halts_files_docs|]. intros docs.
  apply halts_bind; [exact IH|]. intros more. apply halts_ret.
Qed.

Lemma halts_print_docs docs : halts (print_docs docs).
Proof.
  induction docs as [|doc rest IH]; cbn [print_docs]; repeat halts_step.
  exact IH.
Qed.

Lemma halts_ensure_index w search_endpoint search_key index_name :
  halts (ensure_index w search_endpoint search_key index_name).
Proof.
  unfold ensure_index. apply halts_bind; [apply halts_guarded_import|].
  intros [|]; [|apply halts_ret].
  apply halts_bind; [apply halts_emit|]. intros _.
  apply halts_bind; [apply halts_call|]. intros names.
  destruct (bool_decide _); repeat halts_step.
Qed.

Lemma halts_upload_documents w search_endpoint search_key index_name docs
    batch_size :
  halts (upload_documents w search_endpoint search_key index_name docs
           batch_size).
Proof.
  rewrite upload_documents_run. destruct docs; [discriminate|].
  destruct (forallb _ _); [|destruct (is_ImportError _); discriminate].
  destruct (search_client _ _ _ _); [|discriminate].
  destruct (py_range _ _ _); discriminate.
Qed.

Lemma halts_main_body w : halts (main_body w).
Proof.
  unfold main_body.
  destruct (getenv w "BLOB_CONNECTION_STRING"); [|apply halts_raise].
  destruct (getenv w "BLOB_CONTAINER_NAME"); [|apply halts_raise].
  destruct (getenv w "SEARCH_ENDPOINT"); [|apply halts_raise].
  destruct (getenv w "SEARCH_KEY"); [|apply halts_raise].
  destruct (getenv w "SEARCH_INDEX"); [|apply halts_raise].
  halts_step; [halts_step|].
  destruct (filter _ required_vars); [|repeat halts_step].
  apply halts_bind; [apply halts_download_blobs|].
  intros [[|c folder]|]; try apply halts_ret.
  apply halts_bind; [apply halts_walk_docs|]. intros chunked_docs.
  halts_step; [apply halts_print_docs|].
  halts_step; [apply halts_ensure_index|].
  halts_step; [apply halts_upload_documents|].
  apply halts_ret.
Qed.

(** X5: a run never crashes and never hangs.  Whatever the environment, the
    files and the behaviour of the libraries and services, [main] returns a
    string: every exception that escapes a stage is turned into the
    internal-error report, and the chunker is only called with parameters
    for which its loop ends. *)
Theorem main_always_reports w :
  exists trace report, main w = (trace, Returns report).
Proof.
  pose proof (halts_main_body w) as Hhalts.
  unfold main. destruct (main_body w) as [t [s|e|]] eqn:Hbody.
  - do 2 eexists. reflexivity.
  - do 2 eexists. reflexivity.
  - exfalso. apply Hhalts. reflexivity.
Qed.

Lemma bind_nil {A B} (a : A) (k : A -> M B) : bind ([], Returns a) k = k a.
Proof. cbn [bind]. destruct (k a). reflexivity. Qed.

(** ** Only the uploader talks to the upload endpoint *)

Lemma lower_go_with_upload w reply s :
  forall before, lower_go (with_upload w reply) before s = lower_go w before s.
Proof.
  induction s as [|c r IH]; intros before; [reflexivity|].
  cbn [lower_go]. rewrite IH. reflexivity.
Qed.

Lemma guarded_import_with_upload w reply ms warning :
  guarded_import (with_upload w reply) ms warning = guarded_import w ms warning.
Proof. rewrite !guarded_import_run. reflexivity. Qed.

Lemma extract_text_with_upload w reply path :
  extract_text (with_upload w reply) path = extract_text w path.
Proof.
  unfold extract_text, lower. rewrite lower_go_with_upload.
  unfold extract_text_from_pdf, extract_text_from_docx, extract_text_from_pptx,
    extract_text_from_xlsx, extract_text_from_csv.
  rewrite !guarded_import_run. reflexivity.
Qed.

Lemma file_docs_with_upload w reply folder root fname :
  file_docs (with_upload w reply) folder root fname
  = file_docs w folder root fname.
Proof. unfold file_docs. rewrite extract_text_with_upload. reflexivity. Qed.

Lemma files_docs_with_upload w reply folder root files :
  files_docs (with_upload w reply) folder root files
  = files_docs w folder root files.
Proof.
  induction files as [|fname rest IH]; [reflexivity|].
  cbn [files_docs]. rewrite file_docs_with_upload, IH. reflexivity.
Qed.

Lemma walk_docs_with_upload w reply folder dirs :
  walk_docs (with_upload w reply) folder dirs = walk_docs w folder dirs.
Proof.
  induction dirs as [|[root files] rest IH]; [reflexivity|].
  cbn [walk_docs]. rewrite files_docs_with_upload, IH. reflexivity.
Qed.

Lemma download_each_with_upload w reply local_folder blobs :
  download_each (with_upload w reply) local_folder blobs
  = download_each w local_folder blobs.
Proof.
  induction blobs as [|name rest IH]; [reflexivity|].
  cbn [download_each]. rewrite IH. reflexivity.
Qed.

Lemma download_blobs_with_upload w reply connection_string container_name
    local_folder :
  download_blobs (with_upload w reply) connection_string container_name
    local_folder
  = download_blobs w connection_string container_name local_folder.
Proof.
  unfold download_blobs. rewrite guarded_import_with_upload.
  apply bind_ext. intros [|]; [|reflexivity].
  do 2 (apply bind_ext; intros _).
  apply bind_ext. intros blobs. rewrite download_each_with_upload.
  reflexivity.
Qed.

Lemma ensure_index_with_upload w reply search_endpoint search_key index_name :
  ensure_index (with_upload w reply) search_endpoint search_key index_name
  = ensure_index w search_endpoint search_key index_name.
Proof. unfold ensure_index. rewrite !guarded_import_run. reflexivity. Qed.

Lemma agree_upload_documents w reply search_endpoint search_key index_name docs
    batch_size :
  agree
    (upload_documents (with_upload w reply) search_endpoint search_key
       index_name docs batch_size)
    (upload_documents w search_endpoint search_key index_name docs batch_size).
Proof.
  unfold agree. rewrite !upload_documents_run.
  change (importable (with_upload w reply)) with (importable w).
  change (search_client (with_upload w reply)) with (search_client w).
  destruct docs as [|d docs]; [split; reflexivity|].
  destruct (forallb (importable w) _); [|split; reflexivity].
  destruct (search_client w search_endpoint index_name search_key);
    [|split; reflexivity].
  destruct (py_range 0 (len (d :: docs)) batch_size); [|split; reflexivity].
  cbn [fst snd submitted]. rewrite !submitted_upload_reports.
  split; reflexivity.
Qed.

(** X6: the report of a run does not depend on what the upload endpoint
    replies.  Whether it accepts every batch or refuses every batch, [main]
    returns the same string and submits the same batches: the success summary
    counts the documents handed to the uploader, not the documents stored. *)
Theorem main_ignores_upload_replies w reply :
  snd (main (with_upload w reply)) = snd (main w)
  /\ submitted (fst (main (with_upload w reply))) = submitted (fst (main w)).
Proof.
  change (agree (main (with_upload w reply)) (main w)).
  unfold main. apply agree_bind; [apply agree_refl|]. intros _.
  apply agree_try_except; [|intros e; apply agree_refl].
  unfold main_body, getenv.
  change (environ (with_upload w reply)) with (environ w).
  change (var_missing (with_upload w reply)) with (var_missing w).
  destruct (environ w !! "BLOB_CONNECTION_STRING"%string); [|apply agree_refl].
  destruct (environ w !! "BLOB_CONTAINER_NAME"%string); [|apply agree_refl].
  destruct (environ w !! "SEARCH_ENDPOINT"%string); [|apply agree_refl].
  destruct (environ w !! "SEARCH_KEY"%string); [|apply agree_refl].
  destruct (environ w !! "SEARCH_INDEX"%string); [|apply agree_refl].
  apply agree_bind; [apply agree_refl|]. intros _.
  destruct (filter _ required_vars); [|apply agree_refl].
  apply agree_bind;
    [rewrite download_blobs_with_upload; apply agree_refl|].
  intros [[|c folder]|]; try apply agree_refl.
  apply agree_bind; [rewrite walk_docs_with_upload; apply agree_refl|].
  intros chunked_docs.
  apply agree_bind; [apply agree_refl|]. intros _.
  apply agree_bind; [rewrite ensure_index_with_upload; apply agree_refl|].
  intros _.
  apply agree_bind; [apply agree_upload_documents|]. intros _.
  apply agree_refl.
Qed.

(** ** What reaches the index *)

Section Quiet.
Variable P : event -> Prop.
Hypothesis HP : forall ev, not_Submit ev -> P ev.

Lemma ensures_guarded_import w ms warning :
  ensures (guarded_import w ms warning) (fun _ => True) P.
Proof.
  rewrite guarded_import_run. destruct (forallb (importable w) ms).
  - split; [constructor | intros; exact I].
  - destruct (is_ImportError _).
    + split; [repeat constructor; apply HP; exact I | intros; exact I].
    + split; [constructor | intros; exact I].
Qed.

Ltac quiet_step :=
  first
    [ apply ensures_ret; exact I
    | apply ensures_emit; [apply HP; exact I | exact I]
    | apply ensures_raise
    | apply ensures_call; intros; exact I
    | apply ensures_guarded_import
    | apply ensures_try_except; [|intros ?] ].

Ltac quiet_bind := apply ensures_bind with (Q := fun _ => True).

Lemma ensures_download_each w local_folder blobs :
  ensures (download_each w local_folder blobs) (fun _ => True) P.
Proof.
  induction blobs as [|name rest IH]; cbn [download_each]; [quiet_step|].
  quiet_bind; [quiet_step|]. intros _ _.
  quiet_bind; [quiet_step|]. intros _ _.
  quiet_bind; [|intros _ _; exact IH].
  quiet_step; [|quiet_step].
  quiet_bind; [quiet_step|]. intros _ _. quiet_step.
Qed.

Lemma ensures_download_blobs w connection_string container_name local_folder :
  ensures (download_blobs w connection_string container_name local_folder)
    (fun _ => True) P.
Proof.
  unfold download_blobs. quiet_bind; [quiet_step|]. intros [|] _; [|quiet_step].
  quiet_bind; [quiet_step|]. intros _ _.
  quiet_bind; [quiet_step|]. intros _ _.
  quiet_bind; [quiet_step|]. intros blobs _.
  quiet_bind; [apply ensures_download_each|]. intros _ _.
  quiet_bind; [quiet_step|]. intros _ _. quiet_step.
Qed.

Ltac quiet_handler :=
  quiet_bind; [quiet_step|]; intros [|] _; [|quiet_step];
  quiet_step;
  [ first [ quiet_step
          | quiet_bind; [quiet_step|]; intros ? _; quiet_step ]
  | quiet_bind; [quiet_step|]; intros _ _; quiet_step ].

Lemma ensures_extract_text w path :
  ensures (extract_text w path) (fun _ => True) P.
Proof.
  unfold extract_text.
  destruct (endswith _ (py ".pdf"));
    [unfold extract_text_from_pdf; quiet_handler|].
  destruct (endswith _ (py ".docx"));
    [unfold extract_text_from_docx; quiet_handler|].
  destruct (endswith _ (py ".pptx"));
    [unfold extract_text_from_pptx; quiet_handler|].
  destruct (endswith _ (py ".xlsx"));
    [unfold extract_text_from_xlsx; quiet_handler|].
  destruct (endswith _ (py ".csv"));
    [unfold extract_text_from_csv; quiet_handler|].
  quiet_step.
Qed.

Lemma ensures_print_docs docs : ensures (print_docs docs) (fun _ => True) P.
Proof.
  induction docs as [|doc rest IH]; cbn [print_docs]; [quiet_step|].
  quiet_bind; [quiet_step|]. intros _ _. exact IH.
Qed.

Lemma ensures_ensure_index w search_endpoint search_key index_name :
  ensures (ensure_index w search_endpoint search_key index_name)
    (fun _ => True) P.
Proof.
  unfold ensure_index. quiet_bind; [quiet_step|]. intros [|] _; [|quiet_step].
  quiet_bind; [quiet_step|]. intros _ _.
  quiet_bind; [quiet_step|]. intros names _.
  destruct (bool_decide _); [quiet_step|].
  quiet_bind; [quiet_step|]. intros _ _.
  quiet_bind; [quiet_step|]. intros _ _. quiet_step.
Qed.

End Quiet.

(** Every window of the chunker holds between one and [chunk_size] words. *)
Lemma windows_words text chunk_size overlap :
  1 <= chunk_size -> overlap < chunk_size ->
  Forall
    (fun chunk =>
       exists words,
         Forall is_word words /\ words <> [] /\ len words <= chunk_size
         /\ chunk = join (py " ") words)
    (map (window (split text) chunk_size)
         (starts_of (chunk_size - overlap)
                    (window_count text chunk_size overlap))).
Proof.
  intros Hsize Hlt. apply List.Forall_forall. intros chunk Hin.
  apply in_map_iff in Hin as (start & <- & Hin).
  apply starts_of_In in Hin as (k & Hk & ->).
  apply window_count_spec in Hk; [|exact Hlt].
  set (start := Z.of_nat k * (chunk_size - overlap)) in *.
  assert (0 <= start) as Hs0 by (subst start; nia).
  set (stop := Z.min (start + chunk_size) (token_count text)).
  assert (start < stop /\ stop <= token_count text
          /\ stop - start <= chunk_size) as (Hss & Hst & Hw)
    by (subst stop; lia).
  assert (len (py_slice (split text) start stop) = stop - start) as Hlen
    by (apply py_slice_length; [lia | lia | exact Hst]).
  exists (py_slice (split text) start stop). split; [|split; [|split]].
  - apply py_slice_sublist, split_words.
  - intros Hnil. rewrite Hnil in Hlen. unfold len in Hlen. simpl in Hlen. lia.
  - lia.
  - reflexivity.
Qed.

Lemma chunk_docs_chunk_documents chunk_size sep rel_path chunks :
  Forall
    (fun chunk =>
       exists words,
         Forall is_word words /\ words <> [] /\ len words <= chunk_size
         /\ chunk = join (py " ") words)
    chunks ->
  forall i, Forall (chunk_document chunk_size) (chunk_docs sep rel_path i chunks).
Proof.
  induction 1 as [|chunk r Hc _ IH]; intros i; cbn [chunk_docs];
    constructor; [|apply IH].
  split; [apply sanitize_id_safe | exact Hc].
Qed.

Section Submissions.
Variable P : event -> Prop.
Hypothesis HP : forall ev, not_Submit ev -> P ev.

Lemma ensures_file_docs w folder root fname :
  ensures (file_docs w folder root fname) (Forall (chunk_document 800)) P.
Proof.
  unfold file_docs.
  apply ensures_bind with (Q := fun _ => True);
    [apply ensures_call; intros; exact I|]. intros rel_path _.
  apply ensures_bind with (Q := fun _ => True);
    [apply ensures_extract_text, HP|]. intros text _.
  destruct (strip text); [apply ensures_ret; constructor|].
  unfold lift. rewrite chunk_text_returns by lia. rewrite bind_nil.
  apply ensures_ret, chunk_docs_chunk_documents, windows_words; lia.
Qed.

Lemma ensures_files_docs w folder root files :
  ensures (files_docs w folder root files) (Forall (chunk_document 800)) P.
Proof.
  induction files as [|fname rest IH]; cbn [files_docs];
    [apply ensures_ret; constructor|].
  eapply ensures_bind; [apply ensures_file_docs|]. intros docs Hdocs.
  eapply ensures_bind; [exact IH|]. intros more Hmore.
  apply ensures_ret, Forall_app. split; assumption.
Qed.

Lemma ensures_walk_docs w folder dirs :
  ensures (walk_docs w folder dirs) (Forall (chunk_document 800)) P.
Proof.
  induction dirs as [|[root files] rest IH]; cbn [walk_docs];
    [apply ensures_ret; constructor|].
  eapply ensures_bind; [apply ensures_files_docs|]. intros docs Hdocs.
  eapply ensures_bind; [exact IH|]. intros more Hmore.
  apply ensures_ret, Forall_app. split; assumption.
Qed.

End Submissions.

(** The uploader submits non-empty batches of at most [batch_size]
    documents, all of them taken from [docs]. *)
Lemma upload_documents_batches w search_endpoint search_key index_name docs
    batch_size (Q : Document -> Prop) :
  1 <= batch_size -> Forall Q docs ->
  Forall (submits_within batch_size Q)
    (fst (upload_documents w search_endpoint search_key index_name docs
            batch_size)).
Proof.
  intros HB Hdocs. rewrite upload_documents_run.
  destruct docs as [|d docs]; [repeat constructor|].
  destruct (forallb (importable w) _);
    [|destruct (is_ImportError _); repeat constructor].
  destruct (search_client w search_endpoint index_name search_key);
    [|repeat constructor].
  rewrite py_range_from_0 by (try apply len_nonneg; lia).
  cbn [fst]. constructor; [exact I|].
  pose proof (len_nonneg (d :: docs)) as HN.
  pose proof (ceil_div_bounds (len (d :: docs)) batch_size ltac:(lia))
    as [Hlo _].
  pose proof (ceil_div_nonneg (len (d :: docs)) batch_size ltac:(lia) HN) as Hc.
  apply Forall_concat. unfold upload_reports.
  apply List.Forall_forall. intros report Hin.
  apply list_elem_of_In, list_elem_of_lookup in Hin as [j Hj].
  rewrite list_lookup_imap in Hj.
  destruct (starts_of batch_size _ !! j) as [i|] eqn:Hi; [|discriminate].
  cbn in Hj. injection Hj as <-.
  apply list_elem_of_lookup_2, list_elem_of_In, starts_of_In in Hi
    as (k & Hk & ->).
  set (i := Z.of_nat k * batch_size).
  assert (0 <= i /\ i < len (d :: docs)) as [Hi0 Hi1] by (subst i; split; nia).
  assert (len (py_slice (d :: docs) i (i + batch_size))
          = Z.min (i + batch_size) (len (d :: docs)) - i) as Hlen.
  { rewrite <- py_slice_min by lia. apply py_slice_length; lia. }
  unfold batch_events. constructor; [|constructor; [|constructor]].
  - cbn. split; [|split].
    + intros Hnil. rewrite Hnil in Hlen. unfold len in Hlen at 1.
      cbn [length] in Hlen. lia.
    + lia.
    + apply py_slice_sublist, Hdocs.
  - destruct (search_upload w _ _); exact I.
Qed.

(** The effects of a run satisfy [P] as soon as every effect that is not a
    submission does and the uploader, given chunk documents, keeps to [P]. *)
Lemma main_effects w (P : event -> Prop) :
  (forall ev, not_Submit ev -> P ev) ->
  (forall search_endpoint search_key index_name docs,
      Forall (chunk_document 800) docs ->
      Forall P (fst (upload_documents w search_endpoint search_key index_name
                       docs 500))) ->
  Forall P (fst (main w)).
Proof.
  intros HP Hupload.
  enough (ensures (main w) (fun _ => True) P) as [H _] by exact H.
  unfold main.
  apply ensures_bind with (Q := fun _ => True);
    [apply ensures_emit; [apply HP; exact I | exact I]|]. intros _ _.
  apply ensures_try_except;
    [|intros e; apply ensures_bind with (Q := fun _ => True);
      [apply ensures_emit; [apply HP; exact I | exact I]
      |intros _ _; apply ensures_ret; exact I]].
  unfold main_body.
  destruct (getenv w "BLOB_CONNECTION_STRING"); [|apply ensures_raise].
  destruct (getenv w "BLOB_CONTAINER_NAME"); [|apply ensures_raise].
  destruct (getenv w "SEARCH_ENDPOINT"); [|apply ensures_raise].
  destruct (getenv w "SEARCH_KEY"); [|apply ensures_raise].
  destruct (getenv w "SEARCH_INDEX"); [|apply ensures_raise].
  apply ensures_bind with (Q := fun _ => True);
    [apply ensures_emit; [apply HP; exact I | exact I]|]. intros _ _.
  destruct (filter _ required_vars).
  2:{ apply ensures_bind with (Q := fun _ => True);
        [apply ensures_emit; [apply HP; exact I | exact I]|].
      intros _ _. apply ensures_ret. exact I. }
  apply ensures_bind with (Q := fun _ => True);
    [apply ensures_download_blobs, HP|].
  intros [[|c folder]|] _; try (apply ensures_ret; exact I).
  eapply ensures_bind; [apply ensures_walk_docs, HP|].
  intros chunked_docs Hdocs.
  apply ensures_bind with (Q := fun _ => True);
    [apply ensures_print_docs, HP|]. intros _ _.
  apply ensures_bind with (Q := fun _ => True);
    [apply ensures_ensure_index, HP|]. intros _ _.
  apply ensures_bind with (Q := fun _ => True);
    [|intros _ _; apply ensures_ret; exact I].
  split; [|intros; exact I]. apply Hupload, Hdocs.
Qed.

(** X7: whatever a run submits to the index is a well-formed batch.  Every
    submission made by [main] is a non-empty batch of at most 500 documents,
    and every document in it has an identifier made only of characters of
    [[A-Za-z0-9_\-=]] and a text of between 1 and 800 whitespace-free words
    joined by single spaces. *)
Theorem main_submits_chunk_documents w :
  Forall (submits_within 500 (chunk_document 800)) (fst (main w)).
Proof.
  apply main_effects.
  - intros [] H; try exact I. destruct H.
  - intros search_endpoint search_key index_name docs Hdocs.
    apply upload_documents_batches; [lia | exact Hdocs].
Qed.

(** ** The stages of a run *)

Lemma filter_ext_in {A} (P1 P2 : A -> Prop) `{!forall x, Decision (P1 x)}
    `{!forall x, Decision (P2 x)} (l : list A) :
  (forall x, In x l -> (P1 x <-> P2 x)) -> filter P1 l = filter P2 l.
Proof.
  induction l as [|x l IH]; intros Hext; [reflexivity|].
  rewrite !filter_cons.
  assert (P1 x <-> P2 x) as Hx by (apply Hext; left; reflexivity).
  rewrite IH by (intros y Hy; apply Hext; right; exact Hy).
  destruct (decide (P1 x)), (decide (P2 x)); tauto.
Qed.

(** With every variable set, [main_body] prints them, then either reports
    the empty ones or goes on to the stages. *)
Lemma main_body_all_set w :
  (forall v, In v required_vars -> is_Some (getenv w v)) ->
  main_body w
  = (run emit (Print (env_line w));
     match filter (fun v => getenv w v = Some []) required_vars with
     | [] => main_stages w
     | missing_vars =>
         run emit (LogWarning (py "Missing environment variables: "
                               ++ repr_names missing_vars));
         ret (py "Missing required environment variables: "
              ++ repr_names missing_vars)
     end).
Proof.
  intros Hset.
  assert (filter (fun v => var_missing w v = true) required_vars
          = filter (fun v => getenv w v = Some []) required_vars) as Hfilter.
  { apply filter_ext_in. intros v Hv. destruct (Hset v Hv) as [s Hs].
    unfold var_missing. rewrite Hs.
    destruct s; split; try reflexivity; try discriminate. }
  unfold main_body, main_stages, env_line, getenv_or. rewrite Hfilter.
  destruct (Hset "BLOB_CONNECTION_STRING"%string) as [cs ->]; [cbn; tauto|].
  destruct (Hset "BLOB_CONTAINER_NAME"%string) as [cn ->]; [cbn; tauto|].
  destruct (Hset "SEARCH_ENDPOINT"%string) as [se ->]; [cbn; tauto|].
  destruct (Hset "SEARCH_KEY"%string) as [sk ->]; [cbn; tauto|].
  destruct (Hset "SEARCH_INDEX"%string) as [ix ->]; [cbn; tauto|].
  reflexivity.
Qed.

Lemma configured_all_set w :
  configured w -> forall v, In v required_vars -> is_Some (getenv w v).
Proof. intros H v Hv. destruct (H v Hv) as (s & -> & _). eexists. reflexivity. Qed.

Lemma configured_none_empty w :
  configured w -> filter (fun v => getenv w v = Some []) required_vars = [].
Proof.
  intros H.
  destruct (filter (fun v => getenv w v = Some []) required_vars) as [|v r] eqn:E;
    [reflexivity|].
  assert (v ∈ filter (fun v => getenv w v = Some []) required_vars) as Hv
    by (rewrite E; left).
  apply list_elem_of_filter in Hv as [Hempty Hv].
  apply list_elem_of_In in Hv. destruct (H v Hv) as (s & Hs & Hne).
  congruence.
Qed.

(** A configured run prints its configuration and goes on to the stages. *)
Lemma main_configured w :
  configured w ->
  main w
  = (run emit (Print (py "Trigger received, starting blob processing pipeline."));
     try_except (run emit (Print (env_line w)); main_stages w) is_Exception
       (fun e =>
          run emit (LogError (py "Pipeline error: " ++ exn_str e));
          ret (py "Internal Server Error: " ++ exn_str e))).
Proof.
  intros H. unfold main.
  rewrite main_body_all_set by (apply configured_all_set, H).
  rewrite configured_none_empty by exact H. reflexivity.
Qed.

(** X8: an empty required variable stops the run before any work.  When the
    five variables are all set and at least one of them is the empty string,
    [main] prints its two lines, logs one warning and returns the
    configuration message that lists exactly the empty variables, in the
    order of the source: nothing is downloaded, parsed or submitted. *)
Theorem main_empty_variable w :
  (forall v, In v required_vars -> is_Some (getenv w v)) ->
  (exists v, In v required_vars /\ getenv w v = Some []) ->
  filter (fun v => getenv w v = Some []) required_vars <> []
  /\ main w
     = ([Print (py "Trigger received, starting blob processing pipeline.");
         Print (env_line w);
         LogWarning
           (py "Missing environment variables: "
            ++ repr_names
                 (filter (fun v => getenv w v = Some []) required_vars))],
        Returns
          (py "Missing required environment variables: "
           ++ repr_names
                (filter (fun v => getenv w v = Some []) required_vars))).
Proof.
  intros Hset (v & Hv & Hempty).
  assert (filter (fun v => getenv w v = Some []) required_vars <> []) as Hne.
  { intros Hnil.
    assert (v ∈ filter (fun v => getenv w v = Some []) required_vars) as Hin
      by (apply list_elem_of_filter; split;
          [exact Hempty | apply list_elem_of_In, Hv]).
    rewrite Hnil in Hin. inversion Hin. }
  split; [exact Hne|].
  unfold main. rewrite main_body_all_set by exact Hset.
  destruct (filter (fun v => getenv w v = Some []) required_vars);
    [congruence | reflexivity].
Qed.

Lemma main_empty_variable_witness :
  main (example_world (<["SEARCH_INDEX"%string := []]>
                         (<["BLOB_CONTAINER_NAME"%string := []]> full_env))
          everything [] accepts)
  = ([Print (py "Trigger received, starting blob processing pipeline.");
      Print (py "env variables: connhttps://searchkey");
      LogWarning
        (py "Missing environment variables: ['BLOB_CONTAINER_NAME', 'SEARCH_INDEX']")],
     Returns
       (py "Missing required environment variables: ['BLOB_CONTAINER_NAME', 'SEARCH_INDEX']")).
Proof.
  refine (eq_trans
            (proj2 (main_empty_variable
                      (example_world
                         (<["SEARCH_INDEX"%string := []]>
                            (<["BLOB_CONTAINER_NAME"%string := []]> full_env))
                         everything [] accepts) _ _)) _).
  - intros v Hv. unfold required_vars in Hv. cbn [In] in Hv.
    destruct Hv as [<-|[<-|[<-|[<-|[<-|[]]]]]]; vm_compute; eexists;
      reflexivity.
  - exists "SEARCH_INDEX"%string. split; [cbn; tauto | reflexivity].
  - vm_compute. reflexivity.
Defined.

Lemma example_world_configured installed files reply :
  configured (example_world full_env installed files reply).
Proof.
  intros v Hv. unfold required_vars in Hv. cbn [In] in Hv.
  destruct Hv as [<-|[<-|[<-|[<-|[<-|[]]]]]]; vm_compute; eexists;
    (split; [reflexivity | discriminate]).
Qed.

(** ** Blob download *)

(** X9: without the blob SDK a configured run stops after the download
    stage.  When the import of the SDK raises [ImportError], it logs the
    warning of [download_blobs], returns [Blob download failed or skipped.]
    and touches neither the files nor the search service.  When the import
    raises anything else, [download_blobs] lets it through and [main]
    returns the internal-error report carrying its text instead. *)
Theorem main_without_blob_sdk w :
  configured w -> importable w "azure.storage.blob" = false ->
  main w
  = if is_ImportError (import_error w "azure.storage.blob")
    then
      ([Print (py "Trigger received, starting blob processing pipeline.");
        Print (env_line w);
        LogWarning
          (py "azure-storage-blob not installed, skipping blob download.")],
       Returns (py "Blob download failed or skipped."))
    else
      ([Print (py "Trigger received, starting blob processing pipeline.");
        Print (env_line w);
        LogError (py "Pipeline error: "
                  ++ exn_str (import_error w "azure.storage.blob"))],
       Returns (py "Internal Server Error: "
                ++ exn_str (import_error w "azure.storage.blob"))).
Proof.
  intros Hconf Hsdk. rewrite main_configured by exact Hconf.
  unfold main_stages, download_blobs. rewrite guarded_import_one, Hsdk.
  destruct (is_ImportError (import_error w "azure.storage.blob"));
    reflexivity.
Qed.

Lemma main_without_blob_sdk_witness :
  main (example_world full_env nothing [py "a.pdf"] accepts)
  = ([Print (py "Trigger received, starting blob processing pipeline.");
      Print (env_line (example_world full_env nothing [py "a.pdf"] accepts));
      LogWarning (py "azure-storage-blob not installed, skipping blob download.")],
     Returns (py "Blob download failed or skipped.")).
Proof.
  refine (eq_trans
            (main_without_blob_sdk
               (example_world full_env nothing [py "a.pdf"] accepts) _ _) _).
  - apply example_world_configured.
  - reflexivity.
  - reflexivity.
Defined.

(** X10: a failure to list the container is not tolerated.  In a configured
    run with the blob SDK present, when the download folder can be created
    and listing the container raises [e], [main] does nothing further and
    returns the internal-error report carrying [str(e)]. *)
Theorem main_listing_failure w e :
  configured w -> importable w "azure.storage.blob" = true ->
  os_makedirs w (default_folder w) = Answers tt ->
  blob_list w (getenv_or w "BLOB_CONNECTION_STRING" [])
    (getenv_or w "BLOB_CONTAINER_NAME" []) = Fails e ->
  main w
  = ([Print (py "Trigger received, starting blob processing pipeline.");
      Print (env_line w);
      MakeDirs (default_folder w);
      LogError (py "Pipeline error: " ++ exn_str e)],
     Returns (py "Internal Server Error: " ++ exn_str e)).
Proof.
  intros Hconf Hsdk Hmk Hlist. rewrite main_configured by exact Hconf.
  unfold main_stages, download_blobs. rewrite guarded_import_run.
  cbn [forallb]. rewrite Hsdk. cbn [andb]. rewrite bind_nil.
  fold (default_folder w). rewrite Hmk, Hlist. reflexivity.
Qed.

Lemma main_listing_failure_witness :
  main (with_blobs (example_world full_env everything [] accepts)
          (Fails (Exn OtherException (py "ContainerNotFound")))
          (fun _ => Answers tt))
  = ([Print (py "Trigger received, starting blob processing pipeline.");
      Print (py "env variables: conndocshttps://searchkeyidx");
      MakeDirs (py "/tmp/blobs");
      LogError (py "Pipeline error: ContainerNotFound")],
     Returns (py "Internal Server Error: ContainerNotFound")).
Proof.
  refine (eq_trans
            (main_listing_failure
               (with_blobs (example_world full_env everything [] accepts)
                  (Fails (Exn OtherException (py "ContainerNotFound")))
                  (fun _ => Answers tt))
               (Exn OtherException (py "ContainerNotFound")) _ _ _ _) _).
  - exact (example_world_configured everything [] accepts).
  - reflexivity.
  - reflexivity.
  - reflexivity.
  - vm_compute. reflexivity.
Defined.

Lemma omap_cons {A B} (f : A -> option B) x l :
  omap f (x :: l)
  = match f x with
    | Some y => y :: omap f l
    | None => omap f l
    end.
Proof. reflexivity. Qed.

(** One blob after the other: with directories that can be created, the
    loop fetches every blob and ends normally, warning once per failure. *)
Lemma download_each_run w local_folder blobs :
  (forall p, os_makedirs w p = Answers tt) ->
  exists trace,
    download_each w local_folder blobs = (trace, Returns tt)
    /\ fetched trace
       = map (fun name => (name, path_join w local_folder name)) blobs
    /\ warnings trace
       = omap (fun name =>
                 match blob_fetch w name (path_join w local_folder name) with
                 | Fails e =>
                     Some (py "Failed to download blob " ++ name
                           ++ py ": " ++ exn_str e)
                 | Answers _ => None
                 end) blobs.
Proof.
  intros Hmk. induction blobs as [|name rest IH].
  - exists []. repeat split; reflexivity.
  - destruct IH as (trace & Hrun & Hf & Hw).
    cbn [download_each map]. rewrite omap_cons, Hmk, Hrun.
    destruct (blob_fetch w name (path_join w local_folder name));
      eexists; (split; [reflexivity|]); cbn [fetched warnings app];
      rewrite Hf, Hw; split; reflexivity.
Qed.

(** X11: one blob that cannot be downloaded does not stop the others.  With
    the blob SDK present, directories that can be created and a container
    that lists [blobs], [download_blobs] tries to fetch every listed blob, in
    order, into the folder it returns, whatever fetches fail; it logs one
    warning per failed fetch, naming the blob and the error. *)
Theorem download_blobs_fetches_every_blob w connection_string container_name
    local_folder blobs :
  importable w "azure.storage.blob" = true ->
  (forall p, os_makedirs w p = Answers tt) ->
  blob_list w connection_string container_name = Answers blobs ->
  snd (download_blobs w connection_string container_name local_folder)
  = Returns (Some (default (default_folder w) local_folder))
  /\ fetched (fst (download_blobs w connection_string container_name
                     local_folder))
     = map (fun name =>
              (name,
               path_join w (default (default_folder w) local_folder) name))
           blobs
  /\ warnings (fst (download_blobs w connection_string container_name
                      local_folder))
     = omap (fun name =>
               match blob_fetch w name
                       (path_join w (default (default_folder w) local_folder)
                          name) with
               | Fails e =>
                   Some (py "Failed to download blob " ++ name
                         ++ py ": " ++ exn_str e)
               | Answers _ => None
               end) blobs.
Proof.
  intros Hsdk Hmk Hlist.
  destruct (download_each_run w (default (default_folder w) local_folder)
              blobs Hmk) as (trace & Hrun & Hf & Hw).
  assert (download_blobs w connection_string container_name local_folder
          = (MakeDirs (default (default_folder w) local_folder)
             :: trace
             ++ [Print (py "Downloaded blobs to "
                        ++ default (default_folder w) local_folder)],
             Returns (Some (default (default_folder w) local_folder))))
    as Hall.
  { unfold download_blobs. rewrite guarded_import_run.
    cbn [forallb]. rewrite Hsdk. cbn [andb]. rewrite bind_nil.
    replace (match local_folder with
             | Some folder => folder
             | None => path_join w (getenv_or w "TMP" (py "/tmp")) (py "blobs")
             end)
      with (default (default_folder w) local_folder)
      by (destruct local_folder; reflexivity).
    rewrite Hmk, Hlist. cbn [call ret emit bind app].
    rewrite Hrun. reflexivity. }
  rewrite Hall. cbn [fst snd fetched warnings].
  assert (forall t ev, not_Submit ev ->
            match ev with FetchBlob _ _ | LogWarning _ => False | _ => True end ->
            fetched (t ++ [ev]) = fetched t
            /\ warnings (t ++ [ev]) = warnings t) as Htail.
  { intros t ev _ Hev. induction t as [|x t [IH1 IH2]].
    - destruct ev; try destruct Hev; split; reflexivity.
    - destruct x; cbn [app fetched warnings]; rewrite ?IH1, ?IH2;
        split; reflexivity. }
  destruct (Htail trace
              (Print (py "Downloaded blobs to "
                      ++ default (default_folder w) local_folder)) I I)
    as [-> ->].
  repeat split; assumption.
Qed.

Lemma download_blobs_fetches_every_blob_witness :
  fetched
    (fst (download_blobs
            (with_blobs (example_world full_env everything [] accepts)
               (Answers [py "a.pdf"; py "b.pdf"; py "c.pdf"])
               (fun name =>
                  if bool_decide (name = py "b.pdf")
                  then Fails (Exn OtherException (py "timeout"))
                  else Answers tt))
            (py "conn") (py "docs") None))
  = map (fun name =>
           (name,
            path_join
              (with_blobs (example_world full_env everything [] accepts)
                 (Answers [py "a.pdf"; py "b.pdf"; py "c.pdf"])
                 (fun name =>
                    if bool_decide (name = py "b.pdf")
                    then Fails (Exn OtherException (py "timeout"))
                    else Answers tt))
              (default
                 (default_folder
                    (with_blobs (example_world full_env everything [] accepts)
                       (Answers [py "a.pdf"; py "b.pdf"; py "c.pdf"])
                       (fun name =>
                          if bool_decide (name = py "b.pdf")
                          then Fails (Exn OtherException (py "timeout"))
                          else Answers tt)))
                 None)
              name))
        [py "a.pdf"; py "b.pdf"; py "c.pdf"].
Proof.
  apply (download_blobs_fetches_every_blob
           (with_blobs (example_world full_env everything [] accepts)
              (Answers [py "a.pdf"; py "b.pdf"; py "c.pdf"])
              (fun name =>
                 if bool_decide (name = py "b.pdf")
                 then Fails (Exn OtherException (py "timeout"))
                 else Answers tt))
           (py "conn") (py "docs") None
           [py "a.pdf"; py "b.pdf"; py "c.pdf"]).
  - reflexivity.
  - intros p. reflexivity.
  - reflexivity.
Defined.

(** ** Index provisioning *)

Lemma ensure_index_run w search_endpoint search_key index_name :
  ensure_index w search_endpoint search_key index_name
  = if forallb (importable w) index_modules then
      match search_list_indexes w search_endpoint search_key with
      | Fails e => ([Print (py "inside ensure_index")], Raises e)
      | Answers names =>
          if bool_decide (index_name ∈ names) then
            ([Print (py "inside ensure_index")], Returns tt)
          else
            match search_create_index w index_name with
            | Fails e =>
                ([Print (py "inside ensure_index"); CreateIndex index_name],
                 Raises e)
            | Answers _ =>
                ([Print (py "inside ensure_index"); CreateIndex index_name;
                  Print (py "Created index: " ++ index_name)],
                 Returns tt)
            end
      end
    else if is_ImportError (import_error w (failing_import w index_modules))
    then
      ([LogWarning (py "Azure Search SDK not installed, skipping index creation.")],
       Returns tt)
    else ([], Raises (import_error w (failing_import w index_modules))).
Proof.
  unfold ensure_index. rewrite guarded_import_run. fold index_modules.
  destruct (forallb (importable w) _);
    [|destruct (is_ImportError _); reflexivity].
  rewrite bind_nil.
  destruct (search_list_indexes w search_endpoint search_key) as [names|e];
    [|reflexivity].
  cbn [emit call ret bind app]. destruct (bool_decide (index_name ∈ names));
    [reflexivity|].
  destruct (search_create_index w index_name); reflexivity.
Qed.

(** X12: [ensure_index] creates an index only when it is missing, and only
    the one it was asked for.  If the listing contains [index_name] the call
    is a no-op besides its print; a creation is attempted exactly when the
    SDK is importable, the listing succeeds and does not contain
    [index_name], and then for [index_name] alone, once. *)
Theorem ensure_index_creates_only_missing w search_endpoint search_key
    index_name :
  (forall names,
      forallb (importable w) index_modules = true ->
      search_list_indexes w search_endpoint search_key = Answers names ->
      In index_name names ->
      ensure_index w search_endpoint search_key index_name
      = ([Print (py "inside ensure_index")], Returns tt))
  /\ (created (fst (ensure_index w search_endpoint search_key index_name))
      = [index_name]
      \/ created (fst (ensure_index w search_endpoint search_key index_name))
         = [])
  /\ (created (fst (ensure_index w search_endpoint search_key index_name))
      = [index_name]
      <-> forallb (importable w) index_modules = true
          /\ exists names,
               search_list_indexes w search_endpoint search_key = Answers names
               /\ ~ In index_name names).
Proof.
  rewrite ensure_index_run. split; [|split].
  - intros names -> -> Hin. apply list_elem_of_In in Hin.
    rewrite bool_decide_eq_true_2 by exact Hin. reflexivity.
  - destruct (forallb (importable w) index_modules);
      [|destruct (is_ImportError _); right; reflexivity].
    destruct (search_list_indexes w search_endpoint search_key) as [names|e];
      [|right; reflexivity].
    destruct (bool_decide (index_name ∈ names)); [right; reflexivity|].
    destruct (search_create_index w index_name); left; reflexivity.
  - destruct (forallb (importable w) index_modules);
      [|destruct (is_ImportError _);
        (split; [discriminate | intros [H _]; discriminate])].
    destruct (search_list_indexes w search_endpoint search_key) as [names|e];
      [|split; [discriminate | intros [_ (names & H & _)]; discriminate]].
    destruct (bool_decide (index_name ∈ names)) eqn:Hin.
    + apply bool_decide_eq_true in Hin. apply list_elem_of_In in Hin.
      split; [discriminate|]. intros [_ (names' & H & Hnot)].
      injection H as <-. contradiction.
    + apply bool_decide_eq_false in Hin.
      assert (~ In index_name names) as Hnot
        by (intros H; apply Hin, list_elem_of_In, H).
      destruct (search_create_index w index_name); cbn [fst created];
        (split; [intros _; split; [reflexivity | exists names; split;
                                   [reflexivity | exact Hnot]]
                | reflexivity]).
Qed.

Lemma ensure_index_creates_only_missing_witness :
  ensure_index
    (example_world full_env everything [] accepts) (py "https://search")
    (py "key") (py "idx")
  <> ([Print (py "inside ensure_index")], Returns tt)
  /\ created
       (fst (ensure_index (example_world full_env everything [] accepts)
               (py "https://search") (py "key") (py "idx")))
     = [py "idx"].
Proof.
  split; [vm_compute; discriminate|].
  apply (proj2 (proj2 (ensure_index_creates_only_missing
                         (example_world full_env everything [] accepts)
                         (py "https://search") (py "key") (py "idx")))).
  split; [reflexivity|]. exists []. split; [reflexivity | intros []].
Defined.

(** ** Batch sizes that are not positive *)

(** X13: a batch size that is not positive uploads nothing.  With documents
    to upload, the SDK importable and the client constructed,
    [batch_size = 0] makes [upload_documents] raise the [ValueError] of
    [range], and a negative [batch_size] makes it return normally; in both
    cases without a single submission. *)
Theorem upload_documents_bad_batch_size w search_endpoint search_key
    index_name docs batch_size :
  docs <> [] -> forallb (importable w) upload_modules = true ->
  search_client w search_endpoint index_name search_key = Answers tt ->
  batch_size <= 0 ->
  upload_documents w search_endpoint search_key index_name docs batch_size
  = ([Print (py "inside upload_documents")],
     if batch_size =? 0
     then Raises (Exn ValueError (py "range() arg 3 must not be zero"))
     else Returns tt).
Proof.
  intros Hdocs Hsdk Hclient HB. rewrite upload_documents_run.
  destruct docs as [|d docs]; [congruence|].
  unfold upload_modules in Hsdk. rewrite Hsdk, Hclient.
  unfold py_range. destruct (Z.eqb_spec batch_size 0); [reflexivity|].
  destruct (Z.ltb_spec 0 batch_size); [lia|].
  pose proof (len_nonneg (d :: docs)).
  destruct (Z.ltb_spec (len (d :: docs)) 0); [lia|]. reflexivity.
Qed.

Lemma upload_documents_bad_batch_size_witness :
  upload_documents (example_world full_env everything [] accepts) [] [] []
    [{| id := py "a"; text := py "x" |}] (-5)
  = ([Print (py "inside upload_documents")], Returns tt)
  /\ upload_documents (example_world full_env everything [] accepts) [] [] []
       [{| id := py "a"; text := py "x" |}] 0
     = ([Print (py "inside upload_documents")],
        Raises (Exn ValueError (py "range() arg 3 must not be zero"))).
Proof.
  split.
  - apply (upload_documents_bad_batch_size
             (example_world full_env everything [] accepts) [] [] []
             [{| id := py "a"; text := py "x" |}] (-5));
      [discriminate | reflexivity | reflexivity | lia].
  - apply (upload_documents_bad_batch_size
             (example_world full_env everything [] accepts) [] [] []
             [{| id := py "a"; text := py "x" |}] 0);
      [discriminate | reflexivity | reflexivity | lia].
Defined.

(** ** Flattening and sanitising *)

Lemma sanitize_replace sep s :
  id_char sep = false ->
  sanitize_id (replace_char sep 95%N s) = sanitize_id s.
Proof.
  intros Hsep. unfold sanitize_id, replace_char. rewrite map_map.
  apply map_ext. intros c. destruct (N.eqb_spec c sep) as [->|_];
    [rewrite Hsep|]; reflexivity.
Qed.

(** X14: flattening the separators adds nothing to sanitising.  For a
    separator outside [[A-Za-z0-9_\-=]], as [/] and [\] are, the identifier
    is the sanitised text of the relative path followed by [_chunk_] and the
    index; the same path string therefore gets the same identifiers whichever
    of the two separators the platform uses. *)
Theorem safe_id_ignores_separator sep rel_path i :
  id_char sep = false ->
  safe_id sep rel_path i
  = sanitize_id (rel_path ++ py "_chunk_" ++ str_of_nat i)
  /\ safe_id sep rel_path i = safe_id 47%N rel_path i
  /\ safe_id sep rel_path i = safe_id 92%N rel_path i.
Proof.
  intros Hsep.
  assert (forall c, id_char c = false ->
            safe_id c rel_path i
            = sanitize_id (rel_path ++ py "_chunk_" ++ str_of_nat i)) as H.
  { intros c Hc. unfold safe_id, raw_id.
    rewrite !sanitize_id_app, sanitize_replace by exact Hc. reflexivity. }
  rewrite (H sep Hsep), (H 47%N eq_refl), (H 92%N eq_refl).
  repeat split; reflexivity.
Qed.

Lemma safe_id_ignores_separator_witness :
  safe_id 92%N (py "Reports\Q1.pdf") 0
  = sanitize_id (py "Reports\Q1.pdf" ++ py "_chunk_" ++ str_of_nat 0)
  /\ safe_id 92%N (py "Reports\Q1.pdf") 0 = safe_id 47%N (py "Reports\Q1.pdf") 0
  /\ safe_id 92%N (py "Reports\Q1.pdf") 0 = safe_id 92%N (py "Reports\Q1.pdf") 0.
Proof.
  apply (safe_id_ignores_separator 92%N (py "Reports\Q1.pdf") 0). reflexivity.
Defined.

(** ** Identifiers across a run *)

Lemma bind_Returns_inv {A B} (m : M A) (k : A -> M B) t b :
  bind m k = (t, Returns b) ->
  exists t1 a t2, m = (t1, Returns a) /\ k a = (t2, Returns b) /\ t = t1 ++ t2.
Proof.
  destruct m as [t1 [a|e|]]; cbn [bind]; [|discriminate..].
  destruct (k a) as [t2 o] eqn:Hk. intros H. injection H as <- ->.
  exists t1, a, t2. repeat split. exact Hk.
Qed.

Lemma file_docs_ids w folder root fname trace docs :
  file_docs w folder root fname = (trace, Returns docs) ->
  exists rel_path n,
    rel_path_of w folder (root, fname) = Some rel_path
    /\ map id docs = group_ids (os_sep w) (rel_path, n).
Proof.
  unfold file_docs, rel_path_of. cbn [fst snd]. intros H.
  apply bind_Returns_inv in H as (t1 & rel_path & t2 & Hrel & H & _).
  destruct (path_relpath w (path_join w root fname) folder) as [r|e];
    [|discriminate]. injection Hrel as _ <-.
  apply bind_Returns_inv in H as (t3 & text & t4 & _ & H & _).
  destruct (strip text).
  - injection H as _ <-. exists r, 0%nat. split; reflexivity.
  - apply bind_Returns_inv in H as (t5 & chunks & t6 & _ & H & _).
    injection H as _ <-. exists r, (length chunks).
    split; [reflexivity | apply chunk_docs_ids].
Qed.

Lemma files_docs_ids w folder root files :
  forall trace docs,
    files_docs w folder root files = (trace, Returns docs) ->
    exists groups,
      map id docs = concat (map (group_ids (os_sep w)) groups)
      /\ map fst groups = omap (rel_path_of w folder) (map (pair root) files).
Proof.
  induction files as [|fname rest IH]; intros trace docs H.
  - injection H as _ <-. exists []. split; reflexivity.
  - cbn [files_docs] in H.
    apply bind_Returns_inv in H as (t1 & ds & t2 & Hfile & H & _).
    apply bind_Returns_inv in H as (t3 & more & t4 & Hrest & H & _).
    injection H as _ <-.
    apply file_docs_ids in Hfile as (r & n & Hr & Hids).
    apply IH in Hrest as (groups & Hmore & Hfst).
    exists ((r, n) :: groups). cbn [map concat].
    rewrite omap_cons, Hr, map_app, Hids, Hmore, Hfst.
    split; reflexivity.
Qed.

Lemma omap_app_list {A B} (f : A -> option B) l1 l2 :
  omap f (l1 ++ l2) = omap f l1 ++ omap f l2.
Proof.
  induction l1 as [|x l1 IH]; [reflexivity|].
  cbn [app]. rewrite !omap_cons, IH. destruct (f x); reflexivity.
Qed.

Lemma walk_docs_ids w folder dirs :
  forall trace docs,
    walk_docs w folder dirs = (trace, Returns docs) ->
    exists groups,
      map id docs = concat (map (group_ids (os_sep w)) groups)
      /\ map fst groups = rel_paths w folder dirs.
Proof.
  unfold rel_paths.
  induction dirs as [|[root files] rest IH]; intros trace docs H.
  - injection H as _ <-. exists []. split; reflexivity.
  - cbn [walk_docs] in H.
    apply bind_Returns_inv in H as (t1 & ds & t2 & Hdir & H & _).
    apply bind_Returns_inv in H as (t3 & more & t4 & Hrest & H & _).
    injection H as _ <-.
    apply files_docs_ids in Hdir as (g1 & Hids1 & Hfst1).
    apply IH in Hrest as (g2 & Hids2 & Hfst2).
    exists (g1 ++ g2). cbn [walk_files flat_map fst snd].
    rewrite omap_app_list, !map_app, concat_app, Hids1, Hids2, Hfst1.
    unfold walk_files in Hfst2. rewrite Hfst2. split; reflexivity.
Qed.

Lemma group_ids_In sep g x :
  In x (group_ids sep g) -> exists i, x = safe_id sep (fst g) i.
Proof.
  unfold group_ids. rewrite in_map_iff. intros (i & <- & _). exists i.
  reflexivity.
Qed.

(** Files with distinct sanitised flattened paths have disjoint, duplicate
    free groups of identifiers. *)
Lemma groups_NoDup sep groups :
  NoDup (map (flat_path sep) (map fst groups)) ->
  NoDup (concat (map (group_ids sep) groups)).
Proof.
  induction groups as [|g rest IH]; cbn [map concat]; intros H;
    [constructor|].
  apply NoDup_cons in H as [Hg Hrest]. apply NoDup_app. split; [|split].
  - unfold group_ids. apply NoDup_fmap_2; [|apply NoDup_seq].
    intros i j Heq. apply safe_id_eq in Heq as [_ Hi]. exact Hi.
  - intros x Hx Hx'. apply list_elem_of_In in Hx, Hx'.
    apply group_ids_In in Hx as [i ->].
    apply in_concat in Hx' as (ids & Hids & Hin).
    apply in_map_iff in Hids as (g' & <- & Hg').
    apply group_ids_In in Hin as [j Heq].
    apply safe_id_eq in Heq as [Hflat _].
    apply Hg. rewrite Hflat. apply list_elem_of_In.
    apply in_map, in_map, Hg'.
  - apply IH, Hrest.
Qed.

(** X15: distinct files get distinct identifiers unless their paths
    collide.  When the walk of a run returns its documents and no two walked
    files have the same sanitised flattened relative path, the identifiers of
    all the documents of the run are pairwise distinct. *)
Theorem walk_docs_distinct_ids w folder dirs trace docs :
  walk_docs w folder dirs = (trace, Returns docs) ->
  NoDup (map (flat_path (os_sep w)) (rel_paths w folder dirs)) ->
  NoDup (map id docs).
Proof.
  intros Hwalk Hpaths.
  apply walk_docs_ids in Hwalk as (groups & -> & Hfst).
  apply groups_NoDup. rewrite Hfst. exact Hpaths.
Qed.

Lemma walk_docs_distinct_ids_witness :
  NoDup
    (map id
       (match
          snd (walk_docs
                 (example_world full_env everything
                    [py "a b.pdf"; py "notes.txt"; py "c.csv"] accepts)
                 (py "/tmp/blobs")
                 [(py "/tmp/blobs",
                   [py "a b.pdf"; py "notes.txt"; py "c.csv"])])
        with
        | Returns docs => docs
        | _ => []
        end)).
Proof.
  destruct (walk_docs
              (example_world full_env everything
                 [py "a b.pdf"; py "notes.txt"; py "c.csv"] accepts)
              (py "/tmp/blobs")
              [(py "/tmp/blobs", [py "a b.pdf"; py "notes.txt"; py "c.csv"])])
    as [trace [docs|e|]] eqn:Hwalk; cbn [snd]; [|constructor..].
  apply (walk_docs_distinct_ids _ _ _ _ _ Hwalk).
  apply (bool_decide_unpack _). vm_compute. exact I.
Defined.

(** ** Accounting of a successful run *)

Lemma quiet_submitted trace : Forall not_Submit trace -> submitted trace = [].
Proof.
  induction 1 as [|ev t Hev _ IH]; [reflexivity|].
  destruct ev; cbn [submitted]; try exact IH. destruct Hev.
Qed.

Lemma ret_inv {A} (a b : A) t : ret a = (t, Returns b) -> t = [] /\ a = b.
Proof. unfold ret. intros H. split; congruence. Qed.

Lemma success_summary_head n : head (success_summary n) = Some 123%N.
Proof. reflexivity. Qed.

Lemma success_summary_inj n m : success_summary n = success_summary m -> n = m.
Proof.
  unfold success_summary. intros H.
  repeat apply app_inv_head in H.
  apply app_inv_tail in H. apply str_of_nat_inj, H.
Qed.

(** With the SDK importable and a batch size of at least one, an upload that
    ends normally has submitted every document, once, in order. *)
Lemma upload_documents_submits_all w search_endpoint search_key index_name
    docs batch_size trace :
  1 <= batch_size -> forallb (importable w) upload_modules = true ->
  upload_documents w search_endpoint search_key index_name docs batch_size
  = (trace, Returns tt) ->
  concat (submitted trace) = docs.
Proof.
  intros HB Hsdk H. rewrite upload_documents_run in H.
  destruct docs as [|d docs]; [injection H as <-; reflexivity|].
  unfold upload_modules in Hsdk. rewrite Hsdk in H.
  destruct (search_client w search_endpoint index_name search_key);
    [|discriminate].
  rewrite py_range_from_0 in H by (try apply len_nonneg; lia).
  injection H as <-. cbn [submitted].
  rewrite submitted_upload_reports, starts_slices by exact HB.
  apply pieces_concat.
  pose proof (len_nonneg (d :: docs)) as HN.
  pose proof (ceil_div_nonneg (len (d :: docs)) batch_size ltac:(lia) HN).
  pose proof (ceil_div_bounds (len (d :: docs)) batch_size ltac:(lia))
    as [_ Hhi].
  unfold len in *. nia.
Qed.

Ltac wrong_report H :=
  exfalso; apply (f_equal (fun m : M pystr => first_char (snd m))) in H;
  vm_compute in H; discriminate H.

Ltac wrong_outcome H :=
  exfalso; apply (f_equal first_char) in H; vm_compute in H; discriminate H.

(** A [try] block that returns the success summary went through every
    stage; only its last stage, the upload, may have submitted anything. *)
Lemma main_body_success_inv w trace n :
  main_body w = (trace, Returns (success_summary n)) ->
  exists search_endpoint search_key index_name before docs uploading,
    trace = before ++ uploading
    /\ Forall not_Submit before
    /\ upload_documents w search_endpoint search_key index_name docs 500
       = (uploading, Returns tt)
    /\ length docs = n.
Proof.
  unfold main_body. intros H.
  destruct (getenv w "BLOB_CONNECTION_STRING") as [cs|]; [|discriminate].
  destruct (getenv w "BLOB_CONTAINER_NAME") as [cn|]; [|discriminate].
  destruct (getenv w "SEARCH_ENDPOINT") as [se|]; [|discriminate].
  destruct (getenv w "SEARCH_KEY") as [sk|]; [|discriminate].
  destruct (getenv w "SEARCH_INDEX") as [ix|]; [|discriminate].
  apply bind_Returns_inv in H as (t0 & [] & t1 & Hprint & H & ->).
  injection Hprint as <-.
  destruct (filter _ required_vars) as [|v vs].
  2:{ apply bind_Returns_inv in H as (t2 & [] & t3 & _ & H & _).
      wrong_report H. }
  apply bind_Returns_inv in H as (t_dl & folder & t2 & Hdl & H & ->).
  destruct folder as [[|c folder]|]; [wrong_report H | | wrong_report H].
  apply bind_Returns_inv in H as (t_walk & docs & t3 & Hwalk & H & ->).
  apply bind_Returns_inv in H as (t_pr & [] & t4 & Hpr & H & ->).
  apply bind_Returns_inv in H as (t_ix & [] & t5 & Hix & H & ->).
  apply bind_Returns_inv in H as (t_up & [] & t6 & Hup & H & ->).
  apply ret_inv in H as [-> Hsum]. apply success_summary_inj in Hsum.
  exists se, sk, ix,
    ([Print (py "env variables: " ++ cs ++ cn ++ se ++ sk ++ ix)]
     ++ t_dl ++ t_walk ++ t_pr ++ t_ix), docs, t_up.
  split; [rewrite app_nil_r, <- !app_assoc; reflexivity|].
  split; [|split; [exact Hup | exact Hsum]].
  pose proof (ensures_download_blobs not_Submit (fun _ H => H) w cs cn None)
    as [Hq1 _]. rewrite Hdl in Hq1.
  pose proof (ensures_walk_docs not_Submit (fun _ H => H) w (c :: folder)
                (os_walk w (c :: folder))) as [Hq2 _]. rewrite Hwalk in Hq2.
  pose proof (ensures_print_docs not_Submit (fun _ H => H) docs) as [Hq3 _].
  rewrite Hpr in Hq3.
  pose proof (ensures_ensure_index not_Submit (fun _ H => H) w se sk ix)
    as [Hq4 _]. rewrite Hix in Hq4.
  cbn [fst] in *. repeat (apply Forall_app; split); try assumption.
  repeat constructor.
Qed.

(** X16: the count of a success summary is the number of documents
    submitted.  When the modules of the uploader can be imported and [main]
    returns the success summary with [docs_uploaded = n], the batches
    submitted during the run hold exactly [n] documents in all. *)
Theorem main_docs_uploaded_submitted w n :
  forallb (importable w) upload_modules = true ->
  snd (main w) = Returns (success_summary n) ->
  length (concat (submitted (fst (main w)))) = n.
Proof.
  intros Hsdk Hres. unfold main in *.
  rewrite snd_bind, snd_try_except in Hres.
  rewrite fst_bind, fst_try_except.
  destruct (main_body w) as [tb [s|e|]] eqn:Hb; cbn [emit fst snd] in *.
  - injection Hres as ->.
    apply main_body_success_inv
      in Hb as (se & sk & ix & before & docs & t_up & -> & Hq & Hup & <-).
    rewrite app_nil_r. cbn [app submitted].
    rewrite submitted_app, (quiet_submitted before Hq). cbn [app].
    rewrite (upload_documents_submits_all w se sk ix docs 500 t_up
               ltac:(lia) Hsdk Hup).
    reflexivity.
  - wrong_outcome Hres.
  - discriminate.
Qed.

Lemma main_docs_uploaded_submitted_witness :
  length
    (concat
       (submitted
          (fst (main (example_world full_env everything
                        [py "a.pdf"; py "b.docx"] accepts)))))
  = 2%nat.
Proof.
  apply (main_docs_uploaded_submitted
           (example_world full_env everything [py "a.pdf"; py "b.docx"]
              accepts) 2).
  - reflexivity.
  - vm_compute. reflexivity.
Defined.

(** X17: without the search client library nothing reaches the index.  If
    a module of the uploader cannot be imported, no run submits a batch,
    although a run can still end with the success summary. *)
Theorem main_without_search_sdk w :
  forallb (importable w) upload_modules = false ->
  submitted (fst (main w)) = [].
Proof.
  intros Hsdk. apply quiet_submitted, main_effects.
  - intros ev H. exact H.
  - intros search_endpoint search_key index_name docs _.
    rewrite upload_documents_run. unfold upload_modules in Hsdk.
    destruct docs; [repeat constructor|]. rewrite Hsdk.
    destruct (is_ImportError _); repeat constructor.
Qed.

Lemma main_without_search_sdk_witness :
  submitted
    (fst (main (example_world full_env without_search [py "a.pdf"] accepts)))
  = []
  /\ snd (main (example_world full_env without_search [py "a.pdf"] accepts))
     = Returns (success_summary 1).
Proof.
  split.
  - apply (main_without_search_sdk
             (example_world full_env without_search [py "a.pdf"] accepts)).
    reflexivity.
  - vm_compute. reflexivity.
Defined.

(** ** What consecutive chunks share *)

Lemma window_tokens_inside tokens chunk_size start :
  0 <= start -> 0 <= chunk_size -> start <= len tokens ->
  window_tokens tokens chunk_size start
  = take (Z.to_nat (Z.min chunk_size (len tokens - start)))
         (drop (Z.to_nat start) tokens).
Proof.
  intros Hs Hc Hl. unfold window_tokens.
  rewrite py_slice_inside by lia. do 2 f_equal. lia.
Qed.

(** X18: the overlap is honoured.  For [0 < overlap < chunk_size], after
    every chunk that holds a full window of [chunk_size] tokens comes a next
    chunk, and the first [overlap] tokens of that next chunk are the last
    [overlap] tokens of the full one. *)
Theorem chunk_text_overlap text chunk_size overlap (k : nat) :
  0 < overlap -> overlap < chunk_size ->
  Z.of_nat k * (chunk_size - overlap) + chunk_size <= token_count text ->
  exists chunks,
    chunk_text text chunk_size overlap = Returns chunks
    /\ chunks !! k
       = Some (join (py " ")
                 (window_tokens (split text) chunk_size
                    (Z.of_nat k * (chunk_size - overlap))))
    /\ chunks !! S k
       = Some (join (py " ")
                 (window_tokens (split text) chunk_size
                    (Z.of_nat (S k) * (chunk_size - overlap))))
    /\ take (Z.to_nat overlap)
         (window_tokens (split text) chunk_size
            (Z.of_nat (S k) * (chunk_size - overlap)))
       = drop (Z.to_nat (chunk_size - overlap))
           (window_tokens (split text) chunk_size
              (Z.of_nat k * (chunk_size - overlap)))
    /\ len (drop (Z.to_nat (chunk_size - overlap))
              (window_tokens (split text) chunk_size
                 (Z.of_nat k * (chunk_size - overlap))))
       = overlap.
Proof.
  intros Hov Hlt Hfull.
  set (step := chunk_size - overlap) in *.
  assert (0 <= Z.of_nat k * step) as Hs0 by nia.
  assert (Z.of_nat (S k) * step = Z.of_nat k * step + step) as HS
    by (rewrite Nat2Z.inj_succ; lia).
  assert (k < window_count text chunk_size overlap)%nat as Hk
    by (apply window_count_spec; [exact Hlt | fold step; lia]).
  assert (S k < window_count text chunk_size overlap)%nat as HSk
    by (apply window_count_spec; [exact Hlt | fold step; lia]).
  eexists. split; [apply chunk_text_returns, Hlt|].
  change (map (window (split text) chunk_size)) with
    (fmap (M := list) (window (split text) chunk_size)).
  rewrite !list_lookup_fmap. fold step.
  rewrite (starts_of_lookup step _ k Hk), (starts_of_lookup step _ (S k) HSk).
  split; [reflexivity|]. split; [reflexivity|].
  unfold token_count in Hfull.
  rewrite !window_tokens_inside by lia. rewrite HS.
  set (s := Z.of_nat k * step) in *.
  rewrite (Z.min_l chunk_size (len (split text) - s)) by lia.
  rewrite take_take, skipn_firstn_comm, drop_drop.
  replace (Z.to_nat (s + step)) with (Z.to_nat s + Z.to_nat step)%nat by lia.
  split.
  - f_equal. lia.
  - unfold len in *. rewrite length_take, length_drop. lia.
Qed.

Lemma chunk_text_overlap_witness :
  exists chunks,
    chunk_text (py "a b c d e f g") 4 2 = Returns chunks
    /\ chunks !! 1%nat
       = Some (join (py " ")
                 (window_tokens (split (py "a b c d e f g")) 4
                    (Z.of_nat 1 * (4 - 2))))
    /\ chunks !! 2%nat
       = Some (join (py " ")
                 (window_tokens (split (py "a b c d e f g")) 4
                    (Z.of_nat 2 * (4 - 2))))
    /\ take (Z.to_nat 2)
         (window_tokens (split (py "a b c d e f g")) 4 (Z.of_nat 2 * (4 - 2)))
       = drop (Z.to_nat (4 - 2))
           (window_tokens (split (py "a b c d e f g")) 4
              (Z.of_nat 1 * (4 - 2)))
    /\ len (drop (Z.to_nat (4 - 2))
              (window_tokens (split (py "a b c d e f g")) 4
                 (Z.of_nat 1 * (4 - 2))))
       = 2.
Proof.
  apply (chunk_text_overlap (py "a b c d e f g") 4 2 1);
    [lia | lia | vm_compute; discriminate].
Defined.

(** X19: a trailing chunk can be pure repetition.  For
    [0 <= overlap < chunk_size], a chunk that starts within the last
    [overlap] tokens of the text (its start offset [s] has [T <= s + overlap])
    and is not the first chunk holds no new token: its tokens are the tokens
    of the chunk before it with the first [chunk_size - overlap] removed. *)
Theorem chunk_text_repeated_tail text chunk_size overlap (j : nat) :
  0 <= overlap -> overlap < chunk_size ->
  Z.of_nat (S j) * (chunk_size - overlap) < token_count text ->
  token_count text <= Z.of_nat (S j) * (chunk_size - overlap) + overlap ->
  exists chunks,
    chunk_text text chunk_size overlap = Returns chunks
    /\ chunks !! j
       = Some (join (py " ")
                 (window_tokens (split text) chunk_size
                    (Z.of_nat j * (chunk_size - overlap))))
    /\ chunks !! S j
       = Some (join (py " ")
                 (window_tokens (split text) chunk_size
                    (Z.of_nat (S j) * (chunk_size - overlap))))
    /\ window_tokens (split text) chunk_size
         (Z.of_nat (S j) * (chunk_size - overlap))
       = drop (Z.to_nat (chunk_size - overlap))
           (window_tokens (split text) chunk_size
              (Z.of_nat j * (chunk_size - overlap))).
Proof.
  intros Hov Hlt Hstart Hend.
  set (step := chunk_size - overlap) in *.
  assert (0 <= Z.of_nat j * step) as Hs0 by nia.
  assert (Z.of_nat (S j) * step = Z.of_nat j * step + step) as HS
    by (rewrite Nat2Z.inj_succ; lia).
  assert (S j < window_count text chunk_size overlap)%nat as HSj
    by (apply window_count_spec; [exact Hlt | fold step; lia]).
  assert (j < window_count text chunk_size overlap)%nat as Hj by lia.
  eexists. split; [apply chunk_text_returns, Hlt|].
  change (map (window (split text) chunk_size)) with
    (fmap (M := list) (window (split text) chunk_size)).
  rewrite !list_lookup_fmap. fold step.
  rewrite (starts_of_lookup step _ j Hj), (starts_of_lookup step _ (S j) HSj).
  split; [reflexivity|]. split; [reflexivity|].
  unfold token_count in Hstart, Hend.
  rewrite !window_tokens_inside by lia. rewrite HS in *.
  set (s := Z.of_nat j * step) in *.
  rewrite !take_ge by (rewrite length_drop; unfold len in *; lia).
  rewrite drop_drop. f_equal. lia.
Qed.

Lemma chunk_text_repeated_tail_witness :
  exists chunks,
    chunk_text (py "a b c d e f g h i j") 4 1 = Returns chunks
    /\ chunks !! 2%nat
       = Some (join (py " ")
                 (window_tokens (split (py "a b c d e f g h i j")) 4
                    (Z.of_nat 2 * (4 - 1))))
    /\ chunks !! 3%nat
       = Some (join (py " ")
                 (window_tokens (split (py "a b c d e f g h i j")) 4
                    (Z.of_nat 3 * (4 - 1))))
    /\ window_tokens (split (py "a b c d e f g h i j")) 4
         (Z.of_nat 3 * (4 - 1))
       = drop (Z.to_nat (4 - 1))
           (window_tokens (split (py "a b c d e f g h i j")) 4
              (Z.of_nat 2 * (4 - 1))).
Proof.
  apply (chunk_text_repeated_tail (py "a b c d e f g h i j") 4 1 2);
    [lia | lia | vm_compute; reflexivity | vm_compute; discriminate].
Defined.
